(** * Procedural sprite generation and validation: a shallow embedding

    This development embeds the sprite pipeline of the repository
    ([tools/sprite_generator/sprite_generator.py], [batch_generator.py] and
    [validate.py]) and proves the properties its design document states
    about it.  [main] of [sprite_generator.py] starts from the parsed
    arguments; [main] of [batch_generator.py] is left out, and so are the
    lines [validate_generated_sprites] prints.

    Conventions.
    - Python [int] is [Z]; [a // b] is [Z.div] (both round to the floor).
    - A [float] fraction of the archetype table is kept as its exact
      number of hundredths, and [int(h * f)] is truncation of the exact
      product; rounding of IEEE doubles is not part of the model.
    - A [dict] is a [gmap]; [d.get(k, v)] is [dict_get].
    - A [pathlib.Path] is the list of its components below the root.
    - A PIL image is kept symbolically: its mode, its size, and the drawing
      and conversion calls applied to it, in order.  Two images with the
      same history have the same pixels.
    - The file system is a finite map from paths to entries; statements that
      touch it or print run in a state-and-exception monad [M].
    - The methods of the generator are functions of their arguments, and
      module [objects] has them a second time on the objects they share
      (class tables, attributes, images), where every read and write of the
      source is an operation on a store; [objects_generate_run] relates the
      two.
    - Of the ways the libraries can fail, the model has these: a negative
      canvas size, an index into an empty list, a file where a directory is
      needed, a directory where a file is written, and a file that does not
      open as an image.  No drawing call of a generated sprite is given a
      box with its corners out of order, which is proved below. *)

From stdpp Require Import base numbers strings list gmap sorting pretty.

Local Open Scope string_scope.
Local Open Scope Z_scope.
Local Open Scope list_scope.

(** ** Exceptions and results *)

Abbreviation path := (list string).

Inductive exn :=
  | ValueError (msg : string)
  | IndexError (msg : string)
  | FileExistsError (p : path)
  | NotADirectoryError (p : path)
  | IsADirectoryError (p : path)
  | FileNotFoundError (p : path)
  | UnidentifiedImageError (p : path)
  | KeyError (key : string).

Inductive result (A : Type) :=
  | Ok (a : A)
  | Raise (e : exn).
Arguments Ok {A} a.
Arguments Raise {A} e.

#[global] Instance result_ret : MRet result := fun A a => Ok a.
#[global] Instance result_bind : MBind result := fun A B f r =>
  match r with
  | Ok a => f a
  | Raise e => Raise e
  end.

(** [d.get(k, v)] *)
Definition dict_get {V} (d : gmap string V) (k : string) (v : V) : V :=
  default v (d !! k).

(** [l[i]] for a non-negative literal index *)
Definition item {A} (l : list A) (i : nat) : result A :=
  match l !! i with
  | Some a => Ok a
  | None => Raise (IndexError "list index out of range")
  end.

(** Truth value of a dict: empty is false. *)
Definition truthy {V} (d : gmap string V) : bool :=
  negb (bool_decide (d = ∅)).

(** ** PIL images, symbolically *)

Abbreviation Color := (Z * Z * Z)%type.
Abbreviation Box := (Z * Z * Z * Z)%type.

Inductive Shape :=
  | Rectangle (box : Box) (fill : option Color) (outline : option Color)
  | Ellipse (box : Box) (fill : option Color) (outline : option Color).

Inductive ImageOp :=
  | Draw (s : Shape)
  | Quantize (colors : Z) (dither : string)
  | Convert (to_mode : string).

Record Image := mkImage {
  mode : string;
  size : Z * Z;
  background : Z * Z * Z * Z;
  history : list ImageOp
}.

(** [Image.new(mode, size, color)]; PIL rejects a negative dimension. *)
Definition Image_new (m : string) (sz : Z * Z) (color : Z * Z * Z * Z) : result Image :=
  if bool_decide (sz.1 < 0 ∨ sz.2 < 0)
  then Raise (ValueError "Width and height must be >= 0")
  else Ok (mkImage m sz color []).

(** The calls made through [ImageDraw.Draw(sprite)] change [sprite] in place. *)
Definition draw_shapes (im : Image) (shapes : list Shape) : Image :=
  mkImage (mode im) (size im) (background im) (history im ++ (Draw <$> shapes)).

Definition quantize (im : Image) (colors : Z) (dither : string) : Image :=
  mkImage "P" (size im) (background im) (history im ++ [Quantize colors dither]).

Definition convert (im : Image) (m : string) : Image :=
  mkImage m (size im) (background im) (history im ++ [Convert m]).

(** ** File system, console and the monad of statements *)

Inductive FsEntry :=
  | Dir
  | ImageFile (img : Image)
  | OtherFile.

Inductive Event :=
  | Generated (name : string)
  | ErrorGenerating (tier pose : string) (e : exn)
  | ProcessingCharacter (character_id : string)
  | BatchHeader (n_characters : nat) (poses : list string)
  | Validating (character : string)
  | SpriteValid (pose quality : string) (w h : Z)
  | SizeMismatch (pose quality : string) (w h expected_w expected_h : Z)
  | FailedToValidate (pose : string) (e : exn)
  | FileNotFound (pose : string)
  | DirectoryNotFound
  | Totals (total loaded enhanced : Z)
  | CharacterSummary (character : string) (enhanced original missing : Z)
  | Verdict (msg : string).

Record World := mkWorld {
  fs : gmap path FsEntry;
  console : list Event
}.

Definition M (A : Type) : Type := World → result A * World.

#[global] Instance M_ret : MRet M := fun A a w => (Ok a, w).
#[global] Instance M_bind : MBind M := fun A B f m w =>
  match m w with
  | (Ok a, w') => f a w'
  | (Raise e, w') => (Raise e, w')
  end.

Definition lift {A} (r : result A) : M A := fun w => (r, w).

(** [try: body except Exception as e: handler(e)] *)
Definition try_except {A} (body : M A) (handler : exn → M A) : M A := fun w =>
  match body w with
  | (Ok a, w') => (Ok a, w')
  | (Raise e, w') => handler e w'
  end.

Definition print (ev : Event) : M unit := fun w =>
  (Ok tt, mkWorld (fs w) (console w ++ [ev])).

(** [for x in l: s = body(x, s)] *)
Fixpoint for_each {A S} (l : list A) (body : A → S → M S) (s : S) : M S :=
  match l with
  | [] => mret s
  | x :: l' => s' ← body x s; for_each l' body s'
  end.

(** A statement that only touches the file system. *)
Definition fs_op {A} (f : gmap path FsEntry → result A * gmap path FsEntry) : M A :=
  fun w => let '(r, m) := f (fs w) in (r, mkWorld m (console w)).

(** What is at [p]; the root is a directory. *)
Definition entry (m : gmap path FsEntry) (p : path) : option FsEntry :=
  match p with
  | [] => Some Dir
  | _ => m !! p
  end.

(** [p.exists()] *)
Definition exists_ (p : path) : M bool :=
  fs_op (fun m => (Ok (bool_decide (is_Some (entry m p))), m)).

(** [os.makedirs(p, exist_ok=True)] and [Path.mkdir(parents=True, exist_ok=True)]:
    walk down from the root, creating what is missing; a component that is a
    file stops the walk. *)
Fixpoint makedirs_from (parent : path) (rest : list string) (m : gmap path FsEntry)
    : result unit * gmap path FsEntry :=
  match rest with
  | [] => (Ok tt, m)
  | c :: rest' =>
      let p := parent ++ [c] in
      match entry m p with
      | Some Dir => makedirs_from p rest' m
      | Some _ =>
          (Raise (match rest' with
                  | [] => FileExistsError p
                  | _ => NotADirectoryError p
                  end), m)
      | None => makedirs_from p rest' (<[p := Dir]> m)
      end
  end.

Definition makedirs (p : path) : M unit := fs_op (makedirs_from [] p).

(** [sprite.save(p, "PNG", ...)]: the directory must be there and [p] must not
    be a directory; the file is replaced as a whole. *)
Definition write_image (sprite : Image) (p : path) (m : gmap path FsEntry)
    : result unit * gmap path FsEntry :=
  match entry m (removelast p) with
  | Some Dir =>
      match entry m p with
      | Some Dir => (Raise (IsADirectoryError p), m)
      | _ => (Ok tt, <[p := ImageFile sprite]> m)
      end
  | Some _ => (Raise (NotADirectoryError p), m)
  | None => (Raise (FileNotFoundError p), m)
  end.

Definition Image_save (sprite : Image) (p : path) : M unit := fs_op (write_image sprite p).

(** [Image.open(p)] followed by reading [img.size] *)
Definition Image_open_size (p : path) : M (Z * Z) :=
  fs_op (fun m =>
    match entry m p with
    | Some (ImageFile img) => (Ok (size img), m)
    | Some Dir => (Raise (IsADirectoryError p), m)
    | Some OtherFile => (Raise (UnidentifiedImageError p), m)
    | None => (Raise (FileNotFoundError p), m)
    end).

(** [str(p)] and [p.name] *)
Definition path_str (p : path) : string := String.concat "/" p.
Definition path_name (p : path) : string := List.last p "".

(** ** Directories, sorting and substrings *)

(** [p.is_dir()] *)
Definition Path_is_dir (p : path) : M bool :=
  fs_op (fun m =>
    (Ok match entry m p with
        | Some Dir => true
        | _ => false
        end, m)).

(** The entries directly below [d]. *)
Definition children (m : gmap path FsEntry) (d : path) : list path :=
  filter (λ p, p = d ++ [path_name p]) (map_to_list m).*1.

(** [d.iterdir()], read to the end: the order of the entries is the one of
    the underlying map, as arbitrary as the one of the operating system. *)
Definition Path_iterdir (d : path) : M (list path) :=
  fs_op (fun m =>
    match entry m d with
    | Some Dir => (Ok (children m d), m)
    | Some _ => (Raise (NotADirectoryError d), m)
    | None => (Raise (FileNotFoundError d), m)
    end).

(** The order of Python on [str]: lexicographic in the code points, which on
    UTF-8 is lexicographic in the bytes. *)
Definition str_le (a b : string) : Prop := String.leb a b = true.

#[global] Instance str_le_dec : RelDecision str_le.
Proof. intros a b. unfold str_le. apply _. Defined.

(** [sorted(l)] for a list of strings *)
Definition sorted (l : list string) : list string := merge_sort str_le l.

(** [needle in hay] for strings *)
Fixpoint str_in (needle hay : string) : bool :=
  String.prefix needle hay
  || match hay with
     | EmptyString => false
     | String _ hay' => str_in needle hay'
     end.

(** [s.replace(old, new)] for a non-empty [old]: occurrences are replaced
    from the left and do not overlap; [skip] counts the characters of a
    replaced occurrence that are still to be dropped. *)
Fixpoint replace_from (old new : string) (skip : nat) (s : string) : string :=
  match s with
  | EmptyString => EmptyString
  | String a s' =>
      match skip with
      | S k => replace_from old new k s'
      | O =>
          if String.prefix old s
          then new +:+ replace_from old new (String.length old - 1) s'
          else String a (replace_from old new O s')
      end
  end.

Definition str_replace (s old new : string) : string := replace_from old new O s.

(** * sprite_generator.py *)

Module sprite_generator.

Record SpriteConfig := mkSpriteConfig {
  width : Z;
  height : Z;
  enhanced_width : Z;
  enhanced_height : Z;
  frames_per_animation : Z;
  palette_name : string;
  use_dithering : bool;
  archetype : string
}.

(** [SpriteConfig()] with every field at its default *)
Definition SpriteConfig_default : SpriteConfig :=
  mkSpriteConfig 64 96 256 384 1 "default" false "balanced".

(** ** class ColorPalette *)

Abbreviation Palette := (gmap string (list Color)).

Definition palette_default : Palette := list_to_map [
  ("skin", [(255, 220, 177); (235, 200, 157); (215, 180, 137)]);
  ("hair", [(139, 69, 19); (160, 82, 45); (101, 67, 33)]);
  ("gi_primary", [(255, 255, 255); (240, 240, 240); (220, 220, 220)]);
  ("gi_secondary", [(220, 20, 60); (200, 20, 40); (180, 20, 20)]);
  ("belt", [(139, 69, 19); (101, 67, 33); (83, 53, 19)]);
  ("eyes", [(0, 100, 200); (0, 80, 180); (0, 60, 160)]);
  ("outline", [(0, 0, 0); (32, 32, 32); (64, 64, 64)])
].

Definition palette_ryu : Palette := list_to_map [
  ("skin", [(255, 220, 177); (235, 200, 157); (215, 180, 137)]);
  ("hair", [(139, 69, 19); (160, 82, 45); (101, 67, 33)]);
  ("gi_primary", [(255, 255, 255); (240, 240, 240); (220, 220, 220)]);
  ("gi_secondary", [(255, 255, 255); (240, 240, 240); (220, 220, 220)]);
  ("belt", [(0, 0, 0); (32, 32, 32); (16, 16, 16)]);
  ("eyes", [(101, 67, 33); (83, 53, 19); (65, 39, 15)]);
  ("outline", [(0, 0, 0); (32, 32, 32); (64, 64, 64)])
].

Definition palette_ken : Palette := list_to_map [
  ("skin", [(255, 220, 177); (235, 200, 157); (215, 180, 137)]);
  ("hair", [(255, 215, 0); (255, 193, 37); (255, 165, 0)]);
  ("gi_primary", [(255, 0, 0); (220, 0, 0); (180, 0, 0)]);
  ("gi_secondary", [(255, 255, 255); (240, 240, 240); (220, 220, 220)]);
  ("belt", [(139, 69, 19); (101, 67, 33); (83, 53, 19)]);
  ("eyes", [(0, 100, 200); (0, 80, 180); (0, 60, 160)]);
  ("outline", [(0, 0, 0); (32, 32, 32); (64, 64, 64)])
].

Definition palette_chun_li : Palette := list_to_map [
  ("skin", [(255, 228, 196); (245, 218, 186); (225, 198, 166)]);
  ("hair", [(139, 69, 19); (101, 67, 33); (83, 53, 19)]);
  ("gi_primary", [(30, 144, 255); (0, 123, 255); (0, 100, 200)]);
  ("gi_secondary", [(255, 215, 0); (255, 193, 37); (255, 165, 0)]);
  ("belt", [(255, 215, 0); (255, 193, 37); (255, 165, 0)]);
  ("eyes", [(101, 67, 33); (83, 53, 19); (65, 39, 15)]);
  ("outline", [(0, 0, 0); (32, 32, 32); (64, 64, 64)])
].

Definition palette_zangief : Palette := list_to_map [
  ("skin", [(255, 220, 177); (235, 200, 157); (215, 180, 137)]);
  ("hair", [(205, 92, 92); (178, 34, 34); (139, 0, 0)]);
  ("gi_primary", [(255, 0, 0); (220, 0, 0); (180, 0, 0)]);
  ("gi_secondary", [(255, 215, 0); (255, 193, 37); (255, 165, 0)]);
  ("belt", [(255, 215, 0); (255, 193, 37); (255, 165, 0)]);
  ("eyes", [(0, 100, 200); (0, 80, 180); (0, 60, 160)]);
  ("outline", [(0, 0, 0); (32, 32, 32); (64, 64, 64)])
].

Definition palette_sagat : Palette := list_to_map [
  ("skin", [(210, 180, 140); (190, 160, 120); (170, 140, 100)]);
  ("hair", [(0, 0, 0); (32, 32, 32); (16, 16, 16)]);
  ("gi_primary", [(128, 0, 128); (106, 0, 106); (84, 0, 84)]);
  ("gi_secondary", [(255, 215, 0); (255, 193, 37); (255, 165, 0)]);
  ("belt", [(255, 215, 0); (255, 193, 37); (255, 165, 0)]);
  ("eyes", [(255, 0, 0); (220, 0, 0); (180, 0, 0)]);
  ("outline", [(0, 0, 0); (32, 32, 32); (64, 64, 64)])
].

Definition palette_lei_wulong : Palette := list_to_map [
  ("skin", [(255, 228, 196); (245, 218, 186); (225, 198, 166)]);
  ("hair", [(0, 0, 0); (32, 32, 32); (16, 16, 16)]);
  ("gi_primary", [(255, 255, 255); (240, 240, 240); (220, 220, 220)]);
  ("gi_secondary", [(0, 0, 0); (32, 32, 32); (16, 16, 16)]);
  ("belt", [(139, 69, 19); (101, 67, 33); (83, 53, 19)]);
  ("eyes", [(101, 67, 33); (83, 53, 19); (65, 39, 15)]);
  ("outline", [(0, 0, 0); (32, 32, 32); (64, 64, 64)])
].

Definition PALETTES : gmap string Palette := list_to_map [
  ("default", palette_default);
  ("ryu", palette_ryu);
  ("ken", palette_ken);
  ("chun_li", palette_chun_li);
  ("zangief", palette_zangief);
  ("sagat", palette_sagat);
  ("lei_wulong", palette_lei_wulong)
].

(** [PALETTES.get(name, PALETTES["default"])] *)
Definition get_palette (name : string) : Palette :=
  dict_get PALETTES name (PALETTES !!! "default").

(** ** class FighterArchetype *)

(** Fractions of the sprite height, in hundredths. *)
Record Proportions := mkProportions {
  head : Z;
  torso : Z;
  legs : Z
}.

Record Archetype := mkArchetype {
  body_type : string;
  stance : string;
  proportions : Proportions;
  muscle_definition : string
}.

#[global] Instance Archetype_inhabited : Inhabited Archetype :=
  populate (mkArchetype "" "" (mkProportions 0 0 0) "").

Definition ARCHETYPES : gmap string Archetype := list_to_map [
  ("balanced", mkArchetype "medium" "neutral" (mkProportions 12 45 43) "medium");
  ("rushdown", mkArchetype "lean" "forward" (mkProportions 11 44 45) "low");
  ("grappler", mkArchetype "heavy" "wide" (mkProportions 10 50 40) "high");
  ("zoner", mkArchetype "tall" "defensive" (mkProportions 13 42 45) "medium");
  ("technical", mkArchetype "medium" "precise" (mkProportions 12 43 45) "medium")
].

(** [ARCHETYPES.get(name, ARCHETYPES["balanced"])] *)
Definition get_archetype (name : string) : Archetype :=
  dict_get ARCHETYPES name (ARCHETYPES !!! "balanced").

(** [int(h * f)] for a fraction [f] of [pct] hundredths *)
Definition int_mul (h pct : Z) : Z := Z.quot (h * pct) 100.

(** ** class SpriteGenerator *)

(** The object built by [__init__]; [archetype_def] is [self.archetype]. *)
Record SpriteGenerator := mkSpriteGenerator {
  config : SpriteConfig;
  palette : Palette;
  archetype_def : Archetype
}.

Definition SpriteGenerator_init (cfg : SpriteConfig) : SpriteGenerator :=
  mkSpriteGenerator cfg (get_palette (palette_name cfg)) (get_archetype (archetype cfg)).

Definition _get_pose_offset (pose : string) (scale : Z) : Z * Z :=
  let offsets : gmap string (Z * Z) := list_to_map [
    ("idle", (0, 0));
    ("walk", (2 * scale, 0));
    ("punch", (3 * scale, -2 * scale));
    ("kick", (1 * scale, -1 * scale));
    ("jump", (0, -8 * scale));
    ("special", (2 * scale, -4 * scale))
  ] in
  dict_get offsets pose (0, 0).

Definition _get_body_lean (pose : string) (scale : Z) : Z :=
  let leans : gmap string Z := list_to_map [
    ("idle", 0);
    ("walk", 1 * scale);
    ("punch", 3 * scale);
    ("kick", -2 * scale);
    ("jump", 0);
    ("special", 2 * scale)
  ] in
  dict_get leans pose 0.

Definition _draw_legs (palette : Palette) (center_x bottom_y width height : Z)
    (pose : string) (scale : Z) : result (list Shape) :=
  let leg_colors := dict_get palette "gi_primary" [(255, 255, 255)] in
  let outline_colors := dict_get palette "outline" [(0, 0, 0)] in
  if String.eqb pose "kick" then
    let leg1_x1 := center_x - width / 4 in
    let leg1_x2 := center_x in
    let leg1_y1 := bottom_y in
    let leg1_y2 := bottom_y - height in
    let leg2_x1 := center_x in
    let leg2_x2 := center_x + width / 2 in
    let leg2_y1 := bottom_y - height / 3 in
    let leg2_y2 := bottom_y - height / 2 in
    fill ← item leg_colors 0;
    outline ← item outline_colors 0;
    mret [Rectangle (leg1_x1, leg1_y2, leg1_x2, leg1_y1) (Some fill) (Some outline);
          Rectangle (leg2_x1, leg2_y2, leg2_x2, leg2_y1) (Some fill) (Some outline)]
  else if String.eqb pose "jump" then
    let leg_width := width / 3 in
    let leg_height := height * 2 / 3 in
    fill ← item leg_colors 0;
    outline ← item outline_colors 0;
    mret [Rectangle (center_x - width / 2, bottom_y - leg_height,
                     center_x - width / 4, bottom_y) (Some fill) (Some outline);
          Rectangle (center_x + width / 4, bottom_y - leg_height,
                     center_x + width / 2, bottom_y) (Some fill) (Some outline)]
  else
    fill ← item leg_colors 0;
    outline ← item outline_colors 0;
    mret [Rectangle (center_x - width / 2, bottom_y - height,
                     center_x - width / 8, bottom_y) (Some fill) (Some outline);
          Rectangle (center_x + width / 8, bottom_y - height,
                     center_x + width / 2, bottom_y) (Some fill) (Some outline)].

Definition _draw_torso (self : SpriteGenerator) (palette : Palette)
    (center_x bottom_y width height : Z) (pose : string) (scale : Z)
    : result (list Shape) :=
  let torso_colors := dict_get palette "gi_primary" [(255, 255, 255)] in
  let secondary_colors := dict_get palette "gi_secondary" [(220, 20, 60)] in
  let outline_colors := dict_get palette "outline" [(0, 0, 0)] in
  let torso_rect := (center_x - width / 2, bottom_y - height,
                     center_x + width / 2, bottom_y) in
  fill ← item torso_colors 0;
  outline ← item outline_colors 0;
  let belt_y := bottom_y - height / 4 in
  belt ← item (dict_get palette "belt" [(139, 69, 19)]) 0;
  let base := [Rectangle torso_rect (Some fill) (Some outline);
               Rectangle (center_x - width / 2, belt_y - 2 * scale,
                          center_x + width / 2, belt_y + 2 * scale)
                         (Some belt) (Some outline)] in
  if String.eqb (muscle_definition (archetype_def self)) "high" then
    let chest_y := bottom_y - height * 3 / 4 in
    chest ← (if bool_decide (1 < Z.of_nat (length torso_colors))
             then item torso_colors 1 else item outline_colors 0);
    mret (base ++ [Ellipse (center_x - width / 3, chest_y - 4 * scale,
                            center_x + width / 3, chest_y + 4 * scale)
                           None (Some chest)])
  else mret base.

Definition _draw_head (palette : Palette) (center_x bottom_y width height : Z)
    (pose : string) (scale : Z) : result (list Shape) :=
  let skin_colors := dict_get palette "skin" [(255, 220, 177)] in
  let hair_colors := dict_get palette "hair" [(139, 69, 19)] in
  let eye_colors := dict_get palette "eyes" [(0, 100, 200)] in
  let outline_colors := dict_get palette "outline" [(0, 0, 0)] in
  let head_rect := (center_x - width / 2, bottom_y - height,
                    center_x + width / 2, bottom_y) in
  skin ← item skin_colors 0;
  outline ← item outline_colors 0;
  let hair_height := height / 3 in
  let hair_rect := (center_x - width / 2, bottom_y - height,
                    center_x + width / 2, bottom_y - height + hair_height) in
  hair ← item hair_colors 0;
  let eye_y := bottom_y - height * 2 / 3 in
  let eye_size := 2 * scale in
  eye ← item eye_colors 0;
  mret [Ellipse head_rect (Some skin) (Some outline);
        Ellipse hair_rect (Some hair) (Some outline);
        Ellipse (center_x - width / 4 - eye_size / 2, eye_y - eye_size / 2,
                 center_x - width / 4 + eye_size / 2, eye_y + eye_size / 2)
                (Some eye) None;
        Ellipse (center_x + width / 4 - eye_size / 2, eye_y - eye_size / 2,
                 center_x + width / 4 + eye_size / 2, eye_y + eye_size / 2)
                (Some eye) None].

Definition _draw_arms (palette : Palette) (center_x center_y : Z) (pose : string)
    (scale torso_width torso_height : Z) : result (list Shape) :=
  let arm_colors := dict_get palette "gi_primary" [(255, 255, 255)] in
  let skin_colors := dict_get palette "skin" [(255, 220, 177)] in
  let outline_colors := dict_get palette "outline" [(0, 0, 0)] in
  let arm_width := 4 * scale in
  let arm_length := torso_height / 2 in
  if String.eqb pose "punch" then
    fill ← item arm_colors 0;
    outline ← item outline_colors 0;
    skin ← item skin_colors 0;
    mret [Rectangle (center_x + torso_width / 2, center_y - arm_width / 2,
                     center_x + torso_width / 2 + arm_length, center_y + arm_width / 2)
                    (Some fill) (Some outline);
          Ellipse (center_x + torso_width / 2 + arm_length - 3 * scale, center_y - 3 * scale,
                   center_x + torso_width / 2 + arm_length + 3 * scale, center_y + 3 * scale)
                  (Some skin) (Some outline);
          Rectangle (center_x - torso_width / 2 - arm_length / 2, center_y - arm_width / 2,
                     center_x - torso_width / 2, center_y + arm_width / 2)
                    (Some fill) (Some outline)]
  else if String.eqb pose "special" then
    fill ← item arm_colors 0;
    outline ← item outline_colors 0;
    mret [Rectangle (center_x - torso_width / 2 - arm_width / 2, center_y - arm_length,
                     center_x - torso_width / 2 + arm_width / 2, center_y)
                    (Some fill) (Some outline);
          Rectangle (center_x + torso_width / 2, center_y,
                     center_x + torso_width / 2 + arm_length / 2, center_y + arm_length / 2)
                    (Some fill) (Some outline)]
  else
    fill ← item arm_colors 0;
    outline ← item outline_colors 0;
    mret [Rectangle (center_x - torso_width / 2 - arm_width, center_y - arm_width / 2,
                     center_x - torso_width / 2, center_y + arm_length)
                    (Some fill) (Some outline);
          Rectangle (center_x + torso_width / 2, center_y - arm_width / 2,
                     center_x + torso_width / 2 + arm_width, center_y + arm_length)
                    (Some fill) (Some outline)].

(** The shapes drawn on the canvas, in drawing order. *)
Definition _draw_character (self : SpriteGenerator) (palette : Palette)
    (pose : string) (width height scale : Z) : result (list Shape) :=
  let center_x := width / 2 in
  let proportions := proportions (archetype_def self) in
  let head_height := int_mul height (head proportions) in
  let torso_height := int_mul height (torso proportions) in
  let legs_height := int_mul height (legs proportions) in
  let pose_offset := _get_pose_offset pose scale in
  let body_lean := _get_body_lean pose scale in
  let current_y := height - 5 * scale in
  let leg_width :=
    if String.eqb (body_type (archetype_def self)) "heavy" then 8 * scale else 6 * scale in
  drawn_legs ← _draw_legs palette (center_x + body_lean) current_y
                          leg_width legs_height pose scale;
  let current_y := current_y - legs_height in
  let torso_width :=
    if String.eqb (body_type (archetype_def self)) "heavy" then 12 * scale else 10 * scale in
  drawn_torso ← _draw_torso self palette (center_x + body_lean) current_y
                            torso_width torso_height pose scale;
  let current_y := current_y - torso_height in
  let head_width := 8 * scale in
  drawn_head ← _draw_head palette (center_x + body_lean) current_y
                          head_width head_height pose scale;
  drawn_arms ← _draw_arms palette (center_x + body_lean) (current_y + head_height / 2)
                          pose scale torso_width torso_height;
  mret (drawn_legs ++ drawn_torso ++ drawn_head ++ drawn_arms).

Definition _apply_dithering (image : Image) : Image :=
  let image := quantize image 16 "FLOYDSTEINBERG" in
  convert image "RGBA".

(** The palette the sprite is drawn with. *)
Definition char_palette_of (self : SpriteGenerator) (character_id : string) : Palette :=
  let char_palette := get_palette character_id in
  if negb (truthy char_palette) then palette self else char_palette.

Definition generate_character_sprite (self : SpriteGenerator)
    (character_id pose : string) (enhanced : bool) : result Image :=
  let '(width, height, scale) :=
    if enhanced
    then (enhanced_width (config self), enhanced_height (config self), 4)
    else (width (config self), height (config self), 1) in
  sprite ← Image_new "RGBA" (width, height) (0, 0, 0, 0);
  let char_palette := char_palette_of self character_id in
  shapes ← _draw_character self char_palette pose width height scale;
  let sprite := draw_shapes sprite shapes in
  let sprite := if use_dithering (config self) then _apply_dithering sprite else sprite in
  mret sprite.

Definition save_sprite (sprite : Image) (output_path : path) : M unit :=
  _ ← makedirs (removelast output_path);
  Image_save sprite output_path.

(** ** The command line of [sprite_generator.py] *)

(** The arguments of [main] as [argparse] returns them.  The output
    directory is kept as an absolute path. *)
Record Args := mkArgs {
  args_character : string;
  args_poses : list string;
  args_palette : string;
  args_archetype : string;
  args_output_dir : path;
  args_width : Z;
  args_height : Z;
  args_enhanced_width : Z;
  args_enhanced_height : Z;
  args_dithering : bool;
  args_enhanced_only : bool
}.

(** The body of [for pose in args.poses]. *)
Definition main_pose (generator : SpriteGenerator) (args : Args) (pose : string)
    (generated_sprites : list string) : M (list string) :=
  _ ← print (Verdict ("Generating " +:+ pose +:+ " pose..."));
  generated_sprites ←
    (if negb (args_enhanced_only args) then
       sprite ← lift (generate_character_sprite generator (args_character args) pose false);
       let output_path :=
         args_output_dir args ++ [args_character args +:+ "_" +:+ pose +:+ ".png"] in
       _ ← save_sprite sprite output_path;
       let generated_sprites := generated_sprites ++ [path_str output_path] in
       _ ← print (Verdict ("  Original: " +:+ path_str output_path));
       mret generated_sprites
     else mret generated_sprites);
  enhanced_sprite ← lift (generate_character_sprite generator (args_character args) pose true);
  let enhanced_output_path :=
    args_output_dir args ++ [args_character args +:+ "_" +:+ pose +:+ "_enhanced.png"] in
  _ ← save_sprite enhanced_sprite enhanced_output_path;
  let generated_sprites := generated_sprites ++ [path_str enhanced_output_path] in
  _ ← print (Verdict ("  Enhanced: " +:+ path_str enhanced_output_path));
  mret generated_sprites.

Definition main (args : Args) : M (list string) :=
  let config := mkSpriteConfig
    (args_width args) (args_height args)
    (args_enhanced_width args) (args_enhanced_height args)
    1 (args_palette args) (args_dithering args) (args_archetype args) in
  let generator := SpriteGenerator_init config in
  _ ← print (Verdict ("Generating sprites for character: " +:+ args_character args));
  _ ← print (Verdict ("Poses: " +:+ String.concat ", " (args_poses args)));
  _ ← print (Verdict ("Palette: " +:+ args_palette args));
  _ ← print (Verdict ("Archetype: " +:+ args_archetype args));
  _ ← print (Verdict ("Output directory: " +:+ path_str (args_output_dir args)));
  let generated_sprites := [] in
  generated_sprites ← for_each (args_poses args) (main_pose generator args) generated_sprites;
  _ ← print (Verdict ("Successfully generated " +:+ pretty (length generated_sprites)
                      +:+ " sprites!"));
  _ ← print (Verdict ("All sprites saved to: " +:+ path_str (args_output_dir args)));
  mret generated_sprites.

End sprite_generator.

(** * sprite_generator.py on its objects

    The same methods once more, this time on the objects they share: the two
    class-level tables, the attributes of the generator, the state of the
    [random] module that the file imports, and the images PIL has allocated.
    A dict of a table is referred to by the key it is stored under (the
    tables never lose an entry), an image by its position in the order of
    allocation.  Every statement of the source that reads or writes one of
    these objects is one operation on the store. *)

Module objects.
Import sprite_generator.

Record Store := mkStore {
  PALETTES_now : gmap string Palette;
  ARCHETYPES_now : gmap string Archetype;
  self_config : SpriteConfig;
  self_palette : string;
  self_archetype : string;
  random_state : Z;
  images : list Image
}.

Definition G (A : Type) : Type := Store → result A * Store.

#[global] Instance G_ret : MRet G := fun A a st => (Ok a, st).
#[global] Instance G_bind : MBind G := fun A B f m st =>
  match m st with
  | (Ok a, st') => f a st'
  | (Raise e, st') => (Raise e, st')
  end.

Definition gets {A} (f : Store → A) : G A := fun st => (Ok (f st), st).
Definition modify (f : Store → Store) : G unit := fun st => (Ok tt, f st).
Definition raise {A} (e : exn) : G A := fun st => (Raise e, st).
Definition lift_result {A} (r : result A) : G A := fun st => (r, st).

(** ** Dicts behind references *)

Definition palette_at (st : Store) (ref : string) : Palette :=
  default ∅ (PALETTES_now st !! ref).

Definition archetype_at (st : Store) (ref : string) : Archetype :=
  default (mkArchetype "" "" (mkProportions 0 0 0) "") (ARCHETYPES_now st !! ref).

(** [table.get(name, table[fallback])]: the fallback entry is looked up
    first, as an argument of the call. *)
Definition table_get {V} (table : Store → gmap string V) (name fallback : string)
    : G string :=
  t ← gets table;
  match t !! fallback with
  | None => raise (KeyError fallback)
  | Some _ =>
      match t !! name with
      | Some _ => mret name
      | None => mret fallback
      end
  end.

(** [ColorPalette.get_palette(name)] and [FighterArchetype.get_archetype(name)] *)
Definition get_palette (name : string) : G string :=
  table_get PALETTES_now name "default".

Definition get_archetype (name : string) : G string :=
  table_get ARCHETYPES_now name "balanced".

(** [palette.get(part, fallback)] on the dict behind [palette] *)
Definition palette_get (palette part : string) (fallback : list Color) : G (list Color) :=
  gets (fun st => dict_get (palette_at st palette) part fallback).

(** [not palette] *)
Definition palette_is_empty (palette : string) : G bool :=
  gets (fun st => negb (truthy (palette_at st palette))).

(** [self.archetype[...]] *)
Definition self_archetype_dict : G Archetype :=
  gets (fun st => archetype_at st (self_archetype st)).

(** ** Images *)

(** A new image object; its reference is returned. *)
Definition allocate (im : Image) : G nat := fun st =>
  (Ok (length (images st)),
   mkStore (PALETTES_now st) (ARCHETYPES_now st) (self_config st) (self_palette st)
           (self_archetype st) (random_state st) (images st ++ [im])).

Definition Image_new (m : string) (sz : Z * Z) (color : Z * Z * Z * Z) : G nat :=
  im ← lift_result (Image_new m sz color);
  allocate im.

(** The image behind [ref], changed in place. *)
Definition update_image (ref : nat) (f : Image → Image) : G unit :=
  modify (fun st =>
    mkStore (PALETTES_now st) (ARCHETYPES_now st) (self_config st) (self_palette st)
            (self_archetype st) (random_state st) (alter f ref (images st))).

(** [ImageDraw.Draw(sprite)]: a handle that draws on [sprite] itself. *)
Definition ImageDraw_Draw (sprite : nat) : G nat := mret sprite.

Definition draw_rectangle (draw : nat) (box : Box) (fill outline : option Color) : G unit :=
  update_image draw (fun im => draw_shapes im [Rectangle box fill outline]).

Definition draw_ellipse (draw : nat) (box : Box) (fill outline : option Color) : G unit :=
  update_image draw (fun im => draw_shapes im [Ellipse box fill outline]).

Definition image_at (st : Store) (ref : nat) : Image :=
  default (mkImage "" (0, 0) (0, 0, 0, 0) []) (images st !! ref).

(** [image.quantize(...)] and [image.convert(...)] return new images. *)
Definition Image_quantize (image : nat) (colors : Z) (dither : string) : G nat :=
  im ← gets (fun st => image_at st image);
  allocate (quantize im colors dither).

Definition Image_convert (image : nat) (m : string) : G nat :=
  im ← gets (fun st => image_at st image);
  allocate (convert im m).

(** ** class SpriteGenerator *)

Definition SpriteGenerator_init (config : SpriteConfig) : G unit :=
  _ ← modify (fun st =>
         mkStore (PALETTES_now st) (ARCHETYPES_now st) config (self_palette st)
                 (self_archetype st) (random_state st) (images st));
  palette ← get_palette (palette_name config);
  _ ← modify (fun st =>
         mkStore (PALETTES_now st) (ARCHETYPES_now st) (self_config st) palette
                 (self_archetype st) (random_state st) (images st));
  archetype ← get_archetype (archetype config);
  modify (fun st =>
    mkStore (PALETTES_now st) (ARCHETYPES_now st) (self_config st) (self_palette st)
            archetype (random_state st) (images st)).

Definition _draw_legs (draw : nat) (palette : string) (center_x bottom_y width height : Z)
    (pose : string) (scale : Z) : G unit :=
  leg_colors ← palette_get palette "gi_primary" [(255, 255, 255)];
  outline_colors ← palette_get palette "outline" [(0, 0, 0)];
  if String.eqb pose "kick" then
    let leg1_x1 := center_x - width / 4 in
    let leg1_x2 := center_x in
    let leg1_y1 := bottom_y in
    let leg1_y2 := bottom_y - height in
    let leg2_x1 := center_x in
    let leg2_x2 := center_x + width / 2 in
    let leg2_y1 := bottom_y - height / 3 in
    let leg2_y2 := bottom_y - height / 2 in
    fill ← lift_result (item leg_colors 0);
    outline ← lift_result (item outline_colors 0);
    _ ← draw_rectangle draw (leg1_x1, leg1_y2, leg1_x2, leg1_y1) (Some fill) (Some outline);
    fill ← lift_result (item leg_colors 0);
    outline ← lift_result (item outline_colors 0);
    draw_rectangle draw (leg2_x1, leg2_y2, leg2_x2, leg2_y1) (Some fill) (Some outline)
  else if String.eqb pose "jump" then
    let leg_width := width / 3 in
    let leg_height := height * 2 / 3 in
    fill ← lift_result (item leg_colors 0);
    outline ← lift_result (item outline_colors 0);
    _ ← draw_rectangle draw (center_x - width / 2, bottom_y - leg_height,
                             center_x - width / 4, bottom_y) (Some fill) (Some outline);
    fill ← lift_result (item leg_colors 0);
    outline ← lift_result (item outline_colors 0);
    draw_rectangle draw (center_x + width / 4, bottom_y - leg_height,
                         center_x + width / 2, bottom_y) (Some fill) (Some outline)
  else
    fill ← lift_result (item leg_colors 0);
    outline ← lift_result (item outline_colors 0);
    _ ← draw_rectangle draw (center_x - width / 2, bottom_y - height,
                             center_x - width / 8, bottom_y) (Some fill) (Some outline);
    fill ← lift_result (item leg_colors 0);
    outline ← lift_result (item outline_colors 0);
    draw_rectangle draw (center_x + width / 8, bottom_y - height,
                         center_x + width / 2, bottom_y) (Some fill) (Some outline).

Definition _draw_torso (draw : nat) (palette : string) (center_x bottom_y width height : Z)
    (pose : string) (scale : Z) : G unit :=
  torso_colors ← palette_get palette "gi_primary" [(255, 255, 255)];
  secondary_colors ← palette_get palette "gi_secondary" [(220, 20, 60)];
  outline_colors ← palette_get palette "outline" [(0, 0, 0)];
  let torso_rect := (center_x - width / 2, bottom_y - height,
                     center_x + width / 2, bottom_y) in
  fill ← lift_result (item torso_colors 0);
  outline ← lift_result (item outline_colors 0);
  _ ← draw_rectangle draw torso_rect (Some fill) (Some outline);
  let belt_y := bottom_y - height / 4 in
  belt_colors ← palette_get palette "belt" [(139, 69, 19)];
  belt ← lift_result (item belt_colors 0);
  outline ← lift_result (item outline_colors 0);
  _ ← draw_rectangle draw (center_x - width / 2, belt_y - 2 * scale,
                           center_x + width / 2, belt_y + 2 * scale)
                     (Some belt) (Some outline);
  archetype ← self_archetype_dict;
  if String.eqb (muscle_definition archetype) "high" then
    let chest_y := bottom_y - height * 3 / 4 in
    chest ← lift_result (if bool_decide (1 < Z.of_nat (length torso_colors))
                         then item torso_colors 1 else item outline_colors 0);
    draw_ellipse draw (center_x - width / 3, chest_y - 4 * scale,
                       center_x + width / 3, chest_y + 4 * scale)
                 None (Some chest)
  else mret tt.

Definition _draw_head (draw : nat) (palette : string) (center_x bottom_y width height : Z)
    (pose : string) (scale : Z) : G unit :=
  skin_colors ← palette_get palette "skin" [(255, 220, 177)];
  hair_colors ← palette_get palette "hair" [(139, 69, 19)];
  eye_colors ← palette_get palette "eyes" [(0, 100, 200)];
  outline_colors ← palette_get palette "outline" [(0, 0, 0)];
  let head_rect := (center_x - width / 2, bottom_y - height,
                    center_x + width / 2, bottom_y) in
  skin ← lift_result (item skin_colors 0);
  outline ← lift_result (item outline_colors 0);
  _ ← draw_ellipse draw head_rect (Some skin) (Some outline);
  let hair_height := height / 3 in
  let hair_rect := (center_x - width / 2, bottom_y - height,
                    center_x + width / 2, bottom_y - height + hair_height) in
  hair ← lift_result (item hair_colors 0);
  outline ← lift_result (item outline_colors 0);
  _ ← draw_ellipse draw hair_rect (Some hair) (Some outline);
  let eye_y := bottom_y - height * 2 / 3 in
  let eye_size := 2 * scale in
  eye ← lift_result (item eye_colors 0);
  _ ← draw_ellipse draw (center_x - width / 4 - eye_size / 2, eye_y - eye_size / 2,
                         center_x - width / 4 + eye_size / 2, eye_y + eye_size / 2)
                   (Some eye) None;
  eye ← lift_result (item eye_colors 0);
  draw_ellipse draw (center_x + width / 4 - eye_size / 2, eye_y - eye_size / 2,
                     center_x + width / 4 + eye_size / 2, eye_y + eye_size / 2)
               (Some eye) None.

Definition _draw_arms (draw : nat) (palette : string) (center_x center_y : Z)
    (pose : string) (scale torso_width torso_height : Z) : G unit :=
  arm_colors ← palette_get palette "gi_primary" [(255, 255, 255)];
  skin_colors ← palette_get palette "skin" [(255, 220, 177)];
  outline_colors ← palette_get palette "outline" [(0, 0, 0)];
  let arm_width := 4 * scale in
  let arm_length := torso_height / 2 in
  if String.eqb pose "punch" then
    fill ← lift_result (item arm_colors 0);
    outline ← lift_result (item outline_colors 0);
    _ ← draw_rectangle draw
          (center_x + torso_width / 2, center_y - arm_width / 2,
           center_x + torso_width / 2 + arm_length, center_y + arm_width / 2)
          (Some fill) (Some outline);
    skin ← lift_result (item skin_colors 0);
    outline ← lift_result (item outline_colors 0);
    _ ← draw_ellipse draw
          (center_x + torso_width / 2 + arm_length - 3 * scale, center_y - 3 * scale,
           center_x + torso_width / 2 + arm_length + 3 * scale, center_y + 3 * scale)
          (Some skin) (Some outline);
    fill ← lift_result (item arm_colors 0);
    outline ← lift_result (item outline_colors 0);
    draw_rectangle draw
      (center_x - torso_width / 2 - arm_length / 2, center_y - arm_width / 2,
       center_x - torso_width / 2, center_y + arm_width / 2)
      (Some fill) (Some outline)
  else if String.eqb pose "special" then
    fill ← lift_result (item arm_colors 0);
    outline ← lift_result (item outline_colors 0);
    _ ← draw_rectangle draw
          (center_x - torso_width / 2 - arm_width / 2, center_y - arm_length,
           center_x - torso_width / 2 + arm_width / 2, center_y)
          (Some fill) (Some outline);
    fill ← lift_result (item arm_colors 0);
    outline ← lift_result (item outline_colors 0);
    draw_rectangle draw
      (center_x + torso_width / 2, center_y,
       center_x + torso_width / 2 + arm_length / 2, center_y + arm_length / 2)
      (Some fill) (Some outline)
  else
    fill ← lift_result (item arm_colors 0);
    outline ← lift_result (item outline_colors 0);
    _ ← draw_rectangle draw
          (center_x - torso_width / 2 - arm_width, center_y - arm_width / 2,
           center_x - torso_width / 2, center_y + arm_length)
          (Some fill) (Some outline);
    fill ← lift_result (item arm_colors 0);
    outline ← lift_result (item outline_colors 0);
    draw_rectangle draw
      (center_x + torso_width / 2, center_y - arm_width / 2,
       center_x + torso_width / 2 + arm_width, center_y + arm_length)
      (Some fill) (Some outline).

Definition _draw_character (draw : nat) (palette : string) (pose : string)
    (width height scale : Z) : G unit :=
  let center_x := width / 2 in
  archetype ← self_archetype_dict;
  let proportions := proportions archetype in
  let head_height := int_mul height (head proportions) in
  let torso_height := int_mul height (torso proportions) in
  let legs_height := int_mul height (legs proportions) in
  let pose_offset := _get_pose_offset pose scale in
  let body_lean := _get_body_lean pose scale in
  let current_y := height - 5 * scale in
  archetype ← self_archetype_dict;
  let leg_width := if String.eqb (body_type archetype) "heavy" then 8 * scale else 6 * scale in
  _ ← _draw_legs draw palette (center_x + body_lean) current_y
                 leg_width legs_height pose scale;
  let current_y := current_y - legs_height in
  archetype ← self_archetype_dict;
  let torso_width :=
    if String.eqb (body_type archetype) "heavy" then 12 * scale else 10 * scale in
  _ ← _draw_torso draw palette (center_x + body_lean) current_y
                  torso_width torso_height pose scale;
  let current_y := current_y - torso_height in
  let head_width := 8 * scale in
  _ ← _draw_head draw palette (center_x + body_lean) current_y
                 head_width head_height pose scale;
  _draw_arms draw palette (center_x + body_lean) (current_y + head_height / 2)
             pose scale torso_width torso_height.

Definition _apply_dithering (image : nat) : G nat :=
  image ← Image_quantize image 16 "FLOYDSTEINBERG";
  Image_convert image "RGBA".

Definition generate_character_sprite (character_id pose : string) (enhanced : bool)
    : G nat :=
  config ← gets self_config;
  let '(width, height, scale) :=
    if enhanced
    then (enhanced_width config, enhanced_height config, 4)
    else (width config, height config, 1) in
  sprite ← Image_new "RGBA" (width, height) (0, 0, 0, 0);
  draw ← ImageDraw_Draw sprite;
  char_palette ← get_palette character_id;
  empty ← palette_is_empty char_palette;
  char_palette ← (if (empty : bool) then gets self_palette else mret char_palette);
  _ ← _draw_character draw char_palette pose width height scale;
  config ← gets self_config;
  if use_dithering config then _apply_dithering sprite else mret sprite.

End objects.

(** * batch_generator.py *)

Module batch_generator.
Import sprite_generator.

Record BatchSpriteGenerator := mkBatchSpriteGenerator {
  project_root : path;
  asset_dir : path
}.

(** [BatchSpriteGenerator(project_root)] for a given root *)
Definition BatchSpriteGenerator_init (project_root : path) : BatchSpriteGenerator :=
  mkBatchSpriteGenerator project_root
    (project_root ++ ["assets"; "sprites"; "street_fighter_6"]).

Definition archetype_mapping : gmap string string := list_to_map [
  ("ryu", "balanced");
  ("ken", "rushdown");
  ("chun_li", "technical");
  ("zangief", "grappler");
  ("sagat", "zoner");
  ("lei_wulong", "technical");
  ("akuma", "technical");
  ("cammy", "rushdown");
  ("guile", "zoner");
  ("dhalsim", "zoner");
  ("blanka", "rushdown");
  ("e_honda", "grappler")
].

Definition _get_character_archetype (character_id : string) : string :=
  dict_get archetype_mapping character_id "balanced".

Definition pose_mapping : gmap string string := list_to_map [
  ("punch", "attack");
  ("kick", "attack");
  ("special", "attack")
].

Definition _map_pose_name (pose : string) : string :=
  dict_get pose_mapping pose pose.

(** [f"{character_id}_{pose_name}.png"] and [f"{character_id}_{pose_name}_enhanced.png"] *)
Definition sprite_filename (character_id pose_name : string) (enhanced : bool) : string :=
  character_id +:+ "_" +:+ pose_name +:+ (if enhanced then "_enhanced.png" else ".png").

(** One [try ... except Exception] block of the pose loop. *)
Definition generate_one (generator : SpriteGenerator) (char_sprite_dir : path)
    (character_id pose pose_name : string) (enhanced : bool)
    (generated_paths : list string) : M (list string) :=
  try_except
    (sprite ← lift (generate_character_sprite generator character_id pose enhanced);
     let out_path := char_sprite_dir ++ [sprite_filename character_id pose_name enhanced] in
     _ ← save_sprite sprite out_path;
     let generated_paths := generated_paths ++ [path_str out_path] in
     _ ← print (Generated (path_name out_path));
     mret generated_paths)
    (fun e =>
     _ ← print (ErrorGenerating (if enhanced then "enhanced" else "original") pose e);
     mret generated_paths).

(** The body of [for pose in poses]. *)
Definition pose_body (generator : SpriteGenerator) (char_sprite_dir : path)
    (character_id pose : string) (generated_paths : list string) : M (list string) :=
  let pose_name := _map_pose_name pose in
  generated_paths ← generate_one generator char_sprite_dir character_id pose pose_name
                                 false generated_paths;
  generate_one generator char_sprite_dir character_id pose pose_name true generated_paths.

Definition _generate_character_sprites (self : BatchSpriteGenerator)
    (character_id : string) (poses : list string) (config : SpriteConfig)
    : M (list string) :=
  let generator := SpriteGenerator_init config in
  let generated_paths := [] in
  let char_sprite_dir := asset_dir self ++ [character_id; "sprites"] in
  _ ← makedirs char_sprite_dir;
  for_each poses (pose_body generator char_sprite_dir character_id) generated_paths.

(** The body of [for character_id in characters]. *)
Definition character_body (self : BatchSpriteGenerator) (poses : list string)
    (config : SpriteConfig) (character_id : string)
    (results : gmap string (list string)) : M (gmap string (list string)) :=
  _ ← print (ProcessingCharacter character_id);
  let char_archetype := _get_character_archetype character_id in
  let char_config := mkSpriteConfig
    (width config) (height config)
    (enhanced_width config) (enhanced_height config)
    1 character_id (use_dithering config) char_archetype in
  generated_paths ← _generate_character_sprites self character_id poses char_config;
  mret (<[character_id := generated_paths]> results).

Definition generate_character_batch (self : BatchSpriteGenerator)
    (characters : list string) (poses : option (list string))
    (config : option SpriteConfig) : M (gmap string (list string)) :=
  let poses := default ["idle"; "walk"; "attack"; "jump"] poses in
  let config := default SpriteConfig_default config in
  _ ← print (BatchHeader (length characters) poses);
  for_each characters (character_body self poses config) ∅.

(** ** Detection of the project root *)

(** The [while current != current.parent] loop of [__init__]: the parent of
    the root is the root itself, and every other step drops a component, so
    [length current] rounds are all the loop can make. *)
Fixpoint find_project_root (rounds : nat) (current : path) : M (option path) :=
  match rounds with
  | O => mret None
  | S rounds' =>
      if bool_decide (current ≠ removelast current) then
        marked ← exists_ (current ++ ["project.godot"]);
        if (marked : bool) then mret (Some current)
        else find_project_root rounds' (removelast current)
      else mret None
  end.

(** [BatchSpriteGenerator(project_root)] in the module at [file] *)
Definition BatchSpriteGenerator_new (file : path) (project_root : option path)
    : M BatchSpriteGenerator :=
  project_root ←
    match project_root with
    | None =>
        let current := removelast file in
        project_root ← find_project_root (length current) current;
        match project_root with
        | None => mret (removelast (removelast (removelast file)))
        | Some project_root => mret project_root
        end
    | Some project_root => mret project_root
    end;
  mret (BatchSpriteGenerator_init project_root).

(** ** The characters of the project *)

(** The body of [for item in self.asset_dir.iterdir()]. *)
Definition existing_body (item : path) (characters : list string) : M (list string) :=
  item_is_dir ← Path_is_dir item;
  if (item_is_dir : bool) && negb (String.prefix "." (path_name item))
  then mret (characters ++ [path_name item])
  else mret characters.

Definition _get_existing_characters (self : BatchSpriteGenerator) : M (list string) :=
  asset_dir_exists ← exists_ (asset_dir self);
  if negb asset_dir_exists then mret []
  else
    items ← Path_iterdir (asset_dir self);
    characters ← for_each items existing_body [];
    mret (sorted characters).

Definition default_characters : list string :=
  ["ryu"; "ken"; "chun_li"; "zangief"; "sagat"; "lei_wulong"].

Definition generate_all_existing_characters (self : BatchSpriteGenerator)
    (config : option SpriteConfig) : M (gmap string (list string)) :=
  existing_characters ← _get_existing_characters self;
  existing_characters ←
    (if bool_decide (existing_characters = []) then
       _ ← print (Verdict "No existing characters found. Generating default set.");
       mret default_characters
     else mret existing_characters);
  generate_character_batch self existing_characters None config.

(** ** [validate_generated_sprites]

    The function is kept as the dict it returns.  The lines it prints, a
    heading and one or two for every entry of [results] in the order the
    entries were inserted, do not enter the dict and are left out. *)

Record Validation := mkValidation {
  total_generated : nat;
  original_count : Z;
  enhanced_count : Z;
  missing_poses : list string;
  valid_sprites : list string
}.

Definition expected_poses : list string := ["idle"; "walk"; "attack"; "jump"].

(** The body of [for pose in expected_poses]. *)
Definition validate_pose (character_id : string) (sprite_paths : list string)
    (pose : string) (char_results : Validation) : Validation :=
  let original_expected := character_id +:+ "_" +:+ pose +:+ ".png" in
  let enhanced_expected := character_id +:+ "_" +:+ pose +:+ "_enhanced.png" in
  let original_found := existsb (str_in original_expected) sprite_paths in
  let enhanced_found := existsb (str_in enhanced_expected) sprite_paths in
  let char_results :=
    if original_found
    then mkValidation (total_generated char_results) (original_count char_results + 1)
           (enhanced_count char_results) (missing_poses char_results)
           (valid_sprites char_results ++ ["original_" +:+ pose])
    else char_results in
  let char_results :=
    if enhanced_found
    then mkValidation (total_generated char_results) (original_count char_results)
           (enhanced_count char_results + 1) (missing_poses char_results)
           (valid_sprites char_results ++ ["enhanced_" +:+ pose])
    else char_results in
  if negb original_found && negb enhanced_found
  then mkValidation (total_generated char_results) (original_count char_results)
         (enhanced_count char_results) (missing_poses char_results ++ [pose])
         (valid_sprites char_results)
  else char_results.

(** The entry of [validation_results] for one entry of [results]. *)
Definition validate_character (character_id : string) (sprite_paths : list string)
    : Validation :=
  foldl (λ char_results pose, validate_pose character_id sprite_paths pose char_results)
        (mkValidation (length sprite_paths) 0 0 [] []) expected_poses.

Definition validate_generated_sprites (results : gmap string (list string))
    : gmap string Validation :=
  map_imap (λ character_id sprite_paths,
              Some (validate_character character_id sprite_paths)) results.

End batch_generator.

(** * validate.py *)

Module validate.

Record CharResults := mkCharResults {
  original : Z;
  enhanced : Z;
  missing : list string
}.

Record Counters := mkCounters {
  total_sprites : Z;
  loaded_sprites : Z;
  enhanced_sprites : Z
}.

Definition characters : list string :=
  ["ryu"; "ken"; "chun_li"; "zangief"; "sagat"; "lei_wulong"].
Definition poses : list string := ["idle"; "walk"; "attack"; "jump"].

(** The "smart loading" branch: the selected path with its [is_enhanced] flag,
    and the counters after it. *)
Definition select_sprite (enhanced_path original_path : path) (pose : string)
    (st : Counters * CharResults)
    : M (option (path * bool) * (Counters * CharResults)) :=
  let '(c, r) := st in
  enhanced_exists ← exists_ enhanced_path;
  if (enhanced_exists : bool) then
    mret (Some (enhanced_path, true),
          (mkCounters (total_sprites c) (loaded_sprites c + 1) (enhanced_sprites c + 1),
           mkCharResults (original r) (enhanced r + 1) (missing r)))
  else
    original_exists ← exists_ original_path;
    if (original_exists : bool) then
      mret (Some (original_path, false),
            (mkCounters (total_sprites c) (loaded_sprites c + 1) (enhanced_sprites c),
             mkCharResults (original r + 1) (enhanced r) (missing r)))
    else
      mret (None, (c, mkCharResults (original r) (enhanced r) (missing r ++ [pose]))).

(** The "validate sprite properties" branch for a selected path. *)
Definition check_selected (pose : string) (selected : option (path * bool)) : M unit :=
  match selected with
  | Some (selected_path, is_enhanced) =>
      try_except
        (sz ← Image_open_size selected_path;
         let '(width, height) := sz in
         let quality := if (is_enhanced : bool) then "ENHANCED" else "Original" in
         let expected_w := if is_enhanced then 256 else 64 in
         let expected_h := if is_enhanced then 384 else 96 in
         if bool_decide (width = expected_w) && bool_decide (height = expected_h)
         then print (SpriteValid pose quality width height)
         else print (SizeMismatch pose quality width height expected_w expected_h))
        (fun e => print (FailedToValidate pose e))
  | None => print (FileNotFound pose)
  end.

(** The body of [for pose in poses]. *)
Definition pose_body (asset_dir : path) (character pose : string)
    (st : Counters * CharResults) : M (Counters * CharResults) :=
  let '(c, r) := st in
  let c := mkCounters (total_sprites c + 1) (loaded_sprites c) (enhanced_sprites c) in
  let enhanced_path :=
    asset_dir ++ [character; "sprites"; character +:+ "_" +:+ pose +:+ "_enhanced.png"] in
  let original_path :=
    asset_dir ++ [character; "sprites"; character +:+ "_" +:+ pose +:+ ".png"] in
  sel ← select_sprite enhanced_path original_path pose (c, r);
  _ ← check_selected pose sel.1;
  mret sel.2.

(** The body of [for character in characters]. *)
Definition character_body (asset_dir : path) (character : string)
    (st : Counters * gmap string CharResults) : M (Counters * gmap string CharResults) :=
  let '(c, results) := st in
  _ ← print (Validating character);
  let char_results := mkCharResults 0 0 [] in
  st' ← for_each poses (pose_body asset_dir character) (c, char_results);
  mret (st'.1, <[character := st'.2]> results).

(** Everything up to the printed report: the counters and [results]. *)
Definition validate_loops (asset_dir : path) : M (Counters * gmap string CharResults) :=
  for_each characters (character_body asset_dir) (mkCounters 0 0 0, ∅).

Definition print_summary (results : gmap string CharResults) (character : string)
    (u : unit) : M unit :=
  match results !! character with
  | Some char_data =>
      print (CharacterSummary character (enhanced char_data) (original char_data)
                              (Z.of_nat (length (missing char_data))))
  | None => mret tt
  end.

Definition validate_sprite_system (project_root : path) : M bool :=
  let asset_dir := project_root ++ ["assets"; "sprites"; "street_fighter_6"] in
  asset_dir_exists ← exists_ asset_dir;
  if negb asset_dir_exists then
    _ ← print DirectoryNotFound;
    mret false
  else
    st ← validate_loops asset_dir;
    let '(c, results) := st in
    _ ← print (Totals (total_sprites c) (loaded_sprites c) (enhanced_sprites c));
    _ ← for_each characters (print_summary results) tt;
    if bool_decide (loaded_sprites c = total_sprites c)
       && bool_decide (enhanced_sprites c = total_sprites c) then
      _ ← print (Verdict "PERFECT! All sprites found with enhanced quality!");
      mret true
    else if bool_decide (loaded_sprites c = total_sprites c) then
      _ ← print (Verdict "All sprites found successfully!");
      mret true
    else
      _ ← print (Verdict "sprites are missing.");
      mret false.

(** ** The compatibility test

    [file] is the path of [validate.py].  A resource path
    [res://assets/...] is kept as the list of its components. *)

Definition simulate_character_loading (file : path) (character_id state : string)
    : M (option path * string) :=
  let sprite_filename := character_id +:+ "_" +:+ state +:+ ".png" in
  let enhanced_sprite_path :=
    ["assets"; "sprites"; "street_fighter_6"; character_id; "sprites";
     str_replace sprite_filename ".png" "_enhanced.png"] in
  let original_sprite_path :=
    ["assets"; "sprites"; "street_fighter_6"; character_id; "sprites"; sprite_filename] in
  let project_root := removelast (removelast (removelast file)) in
  let enhanced_path := project_root ++ enhanced_sprite_path in
  let original_path := project_root ++ original_sprite_path in
  enhanced_exists ← exists_ enhanced_path;
  if (enhanced_exists : bool) then mret (Some enhanced_path, "enhanced")
  else
    original_exists ← exists_ original_path;
    if (original_exists : bool) then mret (Some original_path, "original")
    else mret (None, "missing").

Definition test_cases : list (string * string) :=
  [("ryu", "idle"); ("ken", "walk"); ("chun_li", "attack"); ("akuma", "jump")].

(** The body of [for character_id, state in test_cases]. *)
Definition compatibility_body (file : path) (test_case : string * string)
    (all_passed : bool) : M bool :=
  let '(character_id, state) := test_case in
  loaded ← simulate_character_loading file character_id state;
  let '(selected, quality) := (loaded : option path * string) in
  match selected with
  | Some selected_path =>
      sz ← Image_open_size selected_path;
      let '(width, height) := sz in
      _ ← print (Verdict ("Smart Loading: " +:+ character_id +:+ " " +:+ state +:+ " -> "
                          +:+ quality +:+ " (" +:+ pretty width +:+ "x" +:+ pretty height
                          +:+ ")"));
      mret all_passed
  | None =>
      _ ← print (Verdict ("Smart Loading FAILED: " +:+ character_id +:+ " " +:+ state
                          +:+ " -> " +:+ quality));
      mret false
  end.

Definition validate_character_cs_compatibility (file : path) : M bool :=
  _ ← print (Verdict "=== CHARACTER.CS COMPATIBILITY TEST ===");
  let all_passed := true in
  for_each test_cases (compatibility_body file) all_passed.

Definition main (file : path) : M Z :=
  let project_root := removelast (removelast (removelast file)) in
  _ ← print (Verdict "Validating Sprite Generator Integration");
  _ ← print (Verdict ("Project Root: " +:+ path_str project_root));
  sprites_valid ← validate_sprite_system project_root;
  compatibility_valid ← validate_character_cs_compatibility file;
  _ ← print (Verdict "==================================================");
  if (sprites_valid : bool) && (compatibility_valid : bool) then
    _ ← print (Verdict "ALL VALIDATIONS PASSED!");
    _ ← print (Verdict "Sprite generator system is fully compatible with Character.cs");
    _ ← print (Verdict "All sprites are properly formatted and accessible");
    mret 0
  else
    _ ← print (Verdict "Some validations failed.");
    _ ← (if negb sprites_valid
         then print (Verdict "Sprite system validation failed")
         else mret tt);
    _ ← (if negb compatibility_valid
         then print (Verdict "Character.cs compatibility test failed")
         else mret tt);
    mret 1.

End validate.

(** * Vocabulary of the statements *)

Import sprite_generator batch_generator.

(** ** Poses, palettes and canvases *)

(** The keys of the two pose tables. *)
Definition pose_vocabulary : list string :=
  ["idle"; "walk"; "punch"; "kick"; "jump"; "special"].

(** The two tables at [scale = 1]. *)
Definition base_offsets : list (Z * Z) :=
  [(0, 0); (2, 0); (3, -2); (1, -1); (0, -8); (2, -4)].
Definition base_leans : list Z := [0; 1; 3; -2; 0; 2].

Definition registry_palettes : list Palette :=
  [palette_default; palette_ryu; palette_ken; palette_chun_li;
   palette_zangief; palette_sagat; palette_lei_wulong].

(** Every colour ramp of the palette has a first colour. *)
Definition palette_ok (p : Palette) : Prop :=
  map_Forall (λ _ ramp, ramp ≠ []) p.

(** A bounding box PIL accepts: its corners are in order. *)
Definition box_ordered (s : Shape) : Prop :=
  match s with
  | Rectangle (x0, y0, x1, y1) _ _ | Ellipse (x0, y0, x1, y1) _ _ => x0 ≤ x1 ∧ y0 ≤ y1
  end.

Definition op_ordered (op : ImageOp) : Prop :=
  match op with
  | Draw s => box_ordered s
  | _ => True
  end.

(** The finishing step of [generate_character_sprite]. *)
Definition finish (self : SpriteGenerator) (sprite : Image) : Image :=
  if use_dithering (config self) then _apply_dithering sprite else sprite.

(** The configuration with another base size. *)
Definition with_base_size (cfg : SpriteConfig) (w h : Z) : SpriteConfig :=
  mkSpriteConfig w h (enhanced_width cfg) (enhanced_height cfg)
    (frames_per_animation cfg) (palette_name cfg) (use_dithering cfg) (archetype cfg).

(** ** The design of a sprite and its scale *)

(** The measures of a drawing that are given in pixels rather than taken
    from the canvas. *)
Record Measures := mkMeasures {
  px_margin : Z;
  px_leg : Z;
  px_torso : Z;
  px_head : Z;
  px_belt : Z;
  px_chest : Z;
  px_eye : Z;
  px_arm : Z;
  px_fist : Z;
  px_lean : Z
}.

(** The measures of the design at base resolution: the bottom margin, the
    widths of legs, torso and head (legs and torso wider for a heavy body),
    half the height of the belt and of the chest line, the eye, the width of
    an arm, the radius of the fist, and the lean of the pose. *)
Definition design (a : Archetype) (pose : string) : Measures :=
  let heavy := String.eqb (body_type a) "heavy" in
  mkMeasures 5 (if heavy then 8 else 6) (if heavy then 12 else 10) 8 2 4 2 4 3
             (_get_body_lean pose 1).

(** Every measure multiplied by [k]. *)
Definition scaled (k : Z) (m : Measures) : Measures :=
  mkMeasures (k * px_margin m) (k * px_leg m) (k * px_torso m) (k * px_head m)
             (k * px_belt m) (k * px_chest m) (k * px_eye m) (k * px_arm m)
             (k * px_fist m) (k * px_lean m).

(** The geometry of a drawing call: the kind of the shape and its box. *)
Inductive Outline :=
  | Rect (box : Box)
  | Oval (box : Box).

Definition outline_of (s : Shape) : Outline :=
  match s with
  | Rectangle box _ _ => Rect box
  | Ellipse box _ _ => Oval box
  end.

(** The drawing laid out on a canvas [w] x [h] from pixel measures [m]: the
    centre line is the middle of the canvas moved by the lean, the heights
    of legs, torso and head are the archetype's shares of [h], and the parts
    are stacked upwards from the bottom margin. *)
Section Layout.
Context (m : Measures) (a : Archetype) (pose : string) (w h : Z).

Definition layout_x : Z := w / 2 + px_lean m.
Definition legs_top : Z := h - px_margin m - int_mul h (legs (proportions a)).
Definition torso_top : Z := legs_top - int_mul h (torso (proportions a)).

Definition legs_layout : list Outline :=
  let bottom := h - px_margin m in
  let height := int_mul h (legs (proportions a)) in
  if String.eqb pose "kick" then
    [Rect (layout_x - px_leg m / 4, bottom - height, layout_x, bottom);
     Rect (layout_x, bottom - height / 2, layout_x + px_leg m / 2, bottom - height / 3)]
  else if String.eqb pose "jump" then
    [Rect (layout_x - px_leg m / 2, bottom - height * 2 / 3, layout_x - px_leg m / 4, bottom);
     Rect (layout_x + px_leg m / 4, bottom - height * 2 / 3, layout_x + px_leg m / 2, bottom)]
  else
    [Rect (layout_x - px_leg m / 2, bottom - height, layout_x - px_leg m / 8, bottom);
     Rect (layout_x + px_leg m / 8, bottom - height, layout_x + px_leg m / 2, bottom)].

Definition torso_layout : list Outline :=
  let height := int_mul h (torso (proportions a)) in
  let belt_y := legs_top - height / 4 in
  let chest_y := legs_top - height * 3 / 4 in
  [Rect (layout_x - px_torso m / 2, legs_top - height, layout_x + px_torso m / 2, legs_top);
   Rect (layout_x - px_torso m / 2, belt_y - px_belt m,
         layout_x + px_torso m / 2, belt_y + px_belt m)]
  ++ (if String.eqb (muscle_definition a) "high"
      then [Oval (layout_x - px_torso m / 3, chest_y - px_chest m,
                  layout_x + px_torso m / 3, chest_y + px_chest m)]
      else []).

Definition head_layout : list Outline :=
  let height := int_mul h (head (proportions a)) in
  let eye_y := torso_top - height * 2 / 3 in
  [Oval (layout_x - px_head m / 2, torso_top - height, layout_x + px_head m / 2, torso_top);
   Oval (layout_x - px_head m / 2, torso_top - height,
         layout_x + px_head m / 2, torso_top - height + height / 3);
   Oval (layout_x - px_head m / 4 - px_eye m / 2, eye_y - px_eye m / 2,
         layout_x - px_head m / 4 + px_eye m / 2, eye_y + px_eye m / 2);
   Oval (layout_x + px_head m / 4 - px_eye m / 2, eye_y - px_eye m / 2,
         layout_x + px_head m / 4 + px_eye m / 2, eye_y + px_eye m / 2)].

Definition arms_layout : list Outline :=
  let y := torso_top + int_mul h (head (proportions a)) / 2 in
  let arm_length := int_mul h (torso (proportions a)) / 2 in
  if String.eqb pose "punch" then
    [Rect (layout_x + px_torso m / 2, y - px_arm m / 2,
           layout_x + px_torso m / 2 + arm_length, y + px_arm m / 2);
     Oval (layout_x + px_torso m / 2 + arm_length - px_fist m, y - px_fist m,
           layout_x + px_torso m / 2 + arm_length + px_fist m, y + px_fist m);
     Rect (layout_x - px_torso m / 2 - arm_length / 2, y - px_arm m / 2,
           layout_x - px_torso m / 2, y + px_arm m / 2)]
  else if String.eqb pose "special" then
    [Rect (layout_x - px_torso m / 2 - px_arm m / 2, y - arm_length,
           layout_x - px_torso m / 2 + px_arm m / 2, y);
     Rect (layout_x + px_torso m / 2, y,
           layout_x + px_torso m / 2 + arm_length / 2, y + arm_length / 2)]
  else
    [Rect (layout_x - px_torso m / 2 - px_arm m, y - px_arm m / 2,
           layout_x - px_torso m / 2, y + arm_length);
     Rect (layout_x + px_torso m / 2, y - px_arm m / 2,
           layout_x + px_torso m / 2 + px_arm m, y + arm_length)].

Definition layout : list Outline :=
  legs_layout ++ torso_layout ++ head_layout ++ arms_layout.

End Layout.

(** The drawing calls of an image, without the colours. *)
Definition drawn_outlines (im : Image) : list Outline :=
  history im ≫= λ op, match op with
                      | Draw s => [outline_of s]
                      | _ => []
                      end.

(** ** The two passes *)

(** The canvas size and the geometry scale of a tier. *)
Definition tier_width (cfg : SpriteConfig) (enhanced : bool) : Z :=
  if enhanced then enhanced_width cfg else width cfg.

Definition tier_height (cfg : SpriteConfig) (enhanced : bool) : Z :=
  if enhanced then enhanced_height cfg else height cfg.

Definition tier_scale (enhanced : bool) : Z := if enhanced then 4 else 1.

(** ** The objects of the generator *)

(** The store with other images. *)
Definition with_images (st : objects.Store) (ims : list Image) : objects.Store :=
  objects.mkStore (objects.PALETTES_now st) (objects.ARCHETYPES_now st)
    (objects.self_config st) (objects.self_palette st) (objects.self_archetype st)
    (objects.random_state st) ims.

(** The two tables hold what the source file writes in them. *)
Definition tables_intact (st : objects.Store) : Prop :=
  objects.PALETTES_now st = PALETTES ∧ objects.ARCHETYPES_now st = ARCHETYPES.

(** The generator object of the store, with the dicts behind its references. *)
Definition generator_of (st : objects.Store) : SpriteGenerator :=
  mkSpriteGenerator (objects.self_config st)
    (objects.palette_at st (objects.self_palette st))
    (objects.archetype_at st (objects.self_archetype st)).

(** Nothing but the list of images differs between [st] and [st'], and the
    images of [st] are in [st'] as they were. *)
Definition same_objects (st st' : objects.Store) : Prop :=
  ∃ new_images, st' = with_images st (objects.images st ++ new_images).

(** A call of [generate_character_sprite], and the store after a sequence
    of calls, whatever they returned. *)
Definition Call : Type := string * string * bool.

Definition call (c : Call) : objects.G nat :=
  objects.generate_character_sprite c.1.1 c.1.2 c.2.

Definition after_calls (calls : list Call) (st : objects.Store) : objects.Store :=
  foldl (λ st c, (call c st).2) st calls.

(** The store when the module has been loaded: the tables as written, no
    image yet. *)
Definition loaded_store (seed : Z) : objects.Store :=
  objects.mkStore PALETTES ARCHETYPES SpriteConfig_default "default" "balanced" seed [].

(** The images a call allocates on its way to the sprite it returns. *)
Definition scratch_images (self : SpriteGenerator) (drawn : Image) : list Image :=
  if use_dithering (config self)
  then [drawn; quantize drawn 16 "FLOYDSTEINBERG"]
  else [].

(** ** Directories *)

Definition free_or_dir (o : option FsEntry) : bool :=
  match o with
  | None | Some Dir => true
  | Some _ => false
  end.

Definition is_dir (o : option FsEntry) : bool :=
  match o with
  | Some Dir => true
  | _ => false
  end.

(** No component on the way from [parent] down to [parent ++ rest] is a file. *)
Fixpoint creatable_from (m : gmap path FsEntry) (parent : path) (rest : list string) : bool :=
  match rest with
  | [] => true
  | c :: rest' =>
      free_or_dir (m !! (parent ++ [c])) && creatable_from m (parent ++ [c]) rest'
  end.

Definition creatable (m : gmap path FsEntry) (p : path) : bool := creatable_from m [] p.

(** Every component on the way is a directory already. *)
Fixpoint dirs_exist_from (m : gmap path FsEntry) (parent : path) (rest : list string) : bool :=
  match rest with
  | [] => true
  | c :: rest' =>
      is_dir (m !! (parent ++ [c])) && dirs_exist_from m (parent ++ [c]) rest'
  end.

Definition dirs_exist (m : gmap path FsEntry) (p : path) : bool := dirs_exist_from m [] p.

(** How the file system may change while sprites are written below
    directories of depth [n]: directories stay, paths of length at most [n]
    only gain directories, and longer paths never become directories. *)
Definition evolves (n : nat) (m m' : gmap path FsEntry) : Prop :=
  ∀ q : path,
    (m !! q = Some Dir → m' !! q = Some Dir)
    ∧ ((length q ≤ n)%nat → m' !! q = m !! q ∨ (m !! q = None ∧ m' !! q = Some Dir))
    ∧ ((n < length q)%nat → m' !! q = Some Dir → m !! q = Some Dir).

(** ** The items of one character *)

Section CharacterItems.
Context (generator : SpriteGenerator) (dir : path) (character_id : string).

Definition out_path (pose : string) (enhanced : bool) : path :=
  dir ++ [sprite_filename character_id (_map_pose_name pose) enhanced].

(** What one [try] block comes to once [dir] is there: the sprite that is
    saved, or the exception that is caught. *)
Definition item_outcome (m : gmap path FsEntry) (pose : string) (enhanced : bool)
    : result Image :=
  match generate_character_sprite generator character_id pose enhanced with
  | Raise e => Raise e
  | Ok sprite =>
      if is_dir (m !! out_path pose enhanced)
      then Raise (IsADirectoryError (out_path pose enhanced))
      else Ok sprite
  end.

Definition item_paths (m : gmap path FsEntry) (pose : string) (enhanced : bool)
    : list string :=
  match item_outcome m pose enhanced with
  | Ok _ => [path_str (out_path pose enhanced)]
  | Raise _ => []
  end.

Definition item_events (m : gmap path FsEntry) (pose : string) (enhanced : bool)
    : list Event :=
  match item_outcome m pose enhanced with
  | Ok _ => [Generated (sprite_filename character_id (_map_pose_name pose) enhanced)]
  | Raise e => [ErrorGenerating (if enhanced then "enhanced" else "original") pose e]
  end.

Definition item_write (m0 : gmap path FsEntry) (pose : string) (enhanced : bool)
    (m : gmap path FsEntry) : gmap path FsEntry :=
  match item_outcome m0 pose enhanced with
  | Ok sprite => <[out_path pose enhanced := ImageFile sprite]> m
  | Raise _ => m
  end.

(** The paths returned for a list of poses, the lines printed and the
    files written, item by item in the order of the loop. *)
Definition poses_paths (m : gmap path FsEntry) (poses : list string) : list string :=
  poses ≫= λ pose, item_paths m pose false ++ item_paths m pose true.

Definition poses_events (m : gmap path FsEntry) (poses : list string) : list Event :=
  poses ≫= λ pose, item_events m pose false ++ item_events m pose true.

Definition poses_writes (m0 : gmap path FsEntry) (poses : list string)
    (m : gmap path FsEntry) : gmap path FsEntry :=
  foldl (λ m pose, item_write m0 pose true (item_write m0 pose false m)) m poses.

End CharacterItems.

(** ** The batch *)

(** The file system after [makedirs p]. *)
Definition with_dirs (m : gmap path FsEntry) (p : path) : gmap path FsEntry :=
  (makedirs_from [] p m).2.

Definition char_dir (self : BatchSpriteGenerator) (character_id : string) : path :=
  asset_dir self ++ [character_id; "sprites"].

Section Batch.
Context (self : BatchSpriteGenerator) (poses : list string) (config : SpriteConfig).

(** The configuration and the generator of one character. *)
Definition char_config (character_id : string) : SpriteConfig :=
  mkSpriteConfig (width config) (height config)
    (enhanced_width config) (enhanced_height config)
    1 character_id (use_dithering config) (_get_character_archetype character_id).

Definition char_generator (character_id : string) : SpriteGenerator :=
  SpriteGenerator_init (char_config character_id).

(** What the batch does for one character on the file system [m0]: the
    paths it records, the lines it prints and the files it leaves. *)
Definition character_paths (m0 : gmap path FsEntry) (character_id : string)
    : list string :=
  poses_paths (char_generator character_id) (char_dir self character_id)
              character_id m0 poses.

Definition character_events (m0 : gmap path FsEntry) (character_id : string)
    : list Event :=
  ProcessingCharacter character_id ::
  poses_events (char_generator character_id) (char_dir self character_id)
               character_id m0 poses.

Definition character_writes (m0 : gmap path FsEntry) (character_id : string)
    (m : gmap path FsEntry) : gmap path FsEntry :=
  poses_writes (char_generator character_id) (char_dir self character_id)
               character_id m0 poses
               (with_dirs m (char_dir self character_id)).
End Batch.

Section BatchTotals.
Context (self : BatchSpriteGenerator) (poses : list string) (config : SpriteConfig).
Context (m0 : gmap path FsEntry).

Definition batch_results (characters : list string) (results : gmap string (list string))
    : gmap string (list string) :=
  foldl (λ r c, <[c := character_paths self poses config m0 c]> r) results characters.

Definition batch_writes (characters : list string) (m : gmap path FsEntry)
    : gmap path FsEntry :=
  foldl (λ m c, character_writes self poses config m0 c m) m characters.

End BatchTotals.

(** The optional arguments of [generate_character_batch] with their defaults. *)
Definition resolved_poses (poses : option (list string)) : list string :=
  default ["idle"; "walk"; "attack"; "jump"] poses.

Definition resolved_config (config : option SpriteConfig) : SpriteConfig :=
  default SpriteConfig_default config.

(** A generator rooted at [proj]. *)
Definition example_self : BatchSpriteGenerator := BatchSpriteGenerator_init ["proj"].

(** A project in which [ryu_idle.png] is a directory. *)
Definition example_world : World :=
  mkWorld (<[char_dir example_self "ryu" ++ ["ryu_idle.png"] := Dir]>
             (with_dirs ∅ (char_dir example_self "ryu"))) [].

(** What [save_sprite] does to the file system. *)
Definition save_fs (sprite : Image) (p : path) (m : gmap path FsEntry)
    : result unit * gmap path FsEntry :=
  match makedirs_from [] (removelast p) m with
  | (Ok _, m1) => write_image sprite p m1
  | (Raise e, m1) => (Raise e, m1)
  end.

(** ** The validator's report *)

Import validate.

Inductive Tier := TierEnhanced | TierBase | TierMissing.

#[global] Instance Tier_eq_dec : EqDecision Tier.
Proof. solve_decision. Defined.

(** The fallback rule in the words of the design document: the enhanced file
    if it is there, else the base file if it is there, else missing. *)
Definition fallback_tier (enhanced_exists base_exists : bool) : Tier :=
  if enhanced_exists then TierEnhanced
  else if base_exists then TierBase
  else TierMissing.

Section Fallback.
Context (asset_dir : path) (m : gmap path FsEntry).

Definition enhanced_path (character pose : string) : path :=
  asset_dir ++ [character; "sprites"; character +:+ "_" +:+ pose +:+ "_enhanced.png"].

Definition original_path (character pose : string) : path :=
  asset_dir ++ [character; "sprites"; character +:+ "_" +:+ pose +:+ ".png"].

Definition present (p : path) : bool := bool_decide (is_Some (entry m p)).

Definition tier_of (character pose : string) : Tier :=
  fallback_tier (present (enhanced_path character pose))
                (present (original_path character pose)).

(** The sizes the validator expects: constants of [validate.py]. *)
Definition expected_size (is_enhanced : bool) : Z * Z :=
  if is_enhanced then (256, 384) else (64, 96).

Definition quality_of (is_enhanced : bool) : string :=
  if is_enhanced then "ENHANCED" else "Original".

(** The line printed for a selected path. *)
Definition selected_line (pose : string) (p : path) (is_enhanced : bool) : Event :=
  match entry m p with
  | Some (ImageFile img) =>
      if bool_decide (size img = expected_size is_enhanced)
      then SpriteValid pose (quality_of is_enhanced) (size img).1 (size img).2
      else SizeMismatch pose (quality_of is_enhanced) (size img).1 (size img).2
                        (expected_size is_enhanced).1 (expected_size is_enhanced).2
  | Some Dir => FailedToValidate pose (IsADirectoryError p)
  | Some OtherFile => FailedToValidate pose (UnidentifiedImageError p)
  | None => FailedToValidate pose (FileNotFoundError p)
  end.

Definition pose_line (character pose : string) : Event :=
  match tier_of character pose with
  | TierEnhanced => selected_line pose (enhanced_path character pose) true
  | TierBase => selected_line pose (original_path character pose) false
  | TierMissing => FileNotFound pose
  end.

Definition count_tier (t : Tier) (character : string) (l : list string) : Z :=
  Z.of_nat (length (filter (λ pose, tier_of character pose = t) l)).

Definition counters_after (character : string) (l : list string) (c : Counters) : Counters :=
  mkCounters
    (total_sprites c + Z.of_nat (length l))
    (loaded_sprites c + count_tier TierEnhanced character l + count_tier TierBase character l)
    (enhanced_sprites c + count_tier TierEnhanced character l).

Definition results_after (character : string) (l : list string) (r : CharResults)
    : CharResults :=
  mkCharResults
    (original r + count_tier TierBase character l)
    (enhanced r + count_tier TierEnhanced character l)
    (missing r ++ filter (λ pose, tier_of character pose = TierMissing) l).

End Fallback.

Section Report.
Context (asset_dir : path) (m : gmap path FsEntry).

(** The entry of [results] for one character. *)
Definition char_results (character : string) : CharResults :=
  results_after asset_dir m character poses (mkCharResults 0 0 []).

Definition char_report (character : string) : list Event :=
  Validating character :: (pose_line asset_dir m character <$> poses).

Definition counters_total (chs : list string) (c : Counters) : Counters :=
  foldl (λ c ch, counters_after asset_dir m ch poses c) c chs.

Definition results_total (chs : list string) (results : gmap string CharResults)
    : gmap string CharResults :=
  foldl (λ rs ch, <[ch := char_results ch]> rs) results chs.

End Report.

(** The expected size of a tier under a configuration, as the design document
    words it. *)
Definition configured_size (cfg : SpriteConfig) (is_enhanced : bool) : Z * Z :=
  if is_enhanced
  then (enhanced_width cfg, enhanced_height cfg)
  else (width cfg, height cfg).

(** The path the fallback rule selects for a tier. *)
Definition tier_path (asset_dir : path) (character pose : string) (is_enhanced : bool) : path :=
  if is_enhanced
  then enhanced_path asset_dir character pose
  else original_path asset_dir character pose.

(** A configuration with a 32 x 48 base size, the base sprite it generates
    for ryu's idle pose, and a project whose only file is that sprite. *)
Definition small_config : SpriteConfig :=
  mkSpriteConfig 32 48 128 192 1 "default" false "balanced".

Definition small_sprite : Image :=
  match generate_character_sprite (SpriteGenerator_init small_config) "ryu" "idle" false with
  | Ok sprite => sprite
  | Raise _ => mkImage "RGBA" (0, 0) (0, 0, 0, 0) []
  end.

Definition small_world : World :=
  mkWorld {[ original_path ["proj"] "ryu" "idle" := ImageFile small_sprite ]} [].

(** ** More about the drawing *)

(** The seven body parts a palette colours. *)
Definition body_parts : list string :=
  ["skin"; "hair"; "gi_primary"; "gi_secondary"; "belt"; "eyes"; "outline"].

(** A shape, an operation and an image moved [dx] pixels to the right. *)
Definition shift_shape (dx : Z) (s : Shape) : Shape :=
  match s with
  | Rectangle (x0, y0, x1, y1) fill outline => Rectangle (x0 + dx, y0, x1 + dx, y1) fill outline
  | Ellipse (x0, y0, x1, y1) fill outline => Ellipse (x0 + dx, y0, x1 + dx, y1) fill outline
  end.

Definition shift_op (dx : Z) (op : ImageOp) : ImageOp :=
  match op with
  | Draw s => Draw (shift_shape dx s)
  | _ => op
  end.

Definition shift_image (dx : Z) (im : Image) : Image :=
  mkImage (mode im) (size im) (background im) (shift_op dx <$> history im).

(** [fmap] on results *)
Definition result_map {A B} (f : A → B) (r : result A) : result B :=
  match r with
  | Ok a => Ok (f a)
  | Raise e => Raise e
  end.

(** The bounding box of the head ellipse: eight pixels per unit of scale wide,
    standing on the torso. *)
Definition head_box (self : SpriteGenerator) (pose : string) (w h scale : Z) : Box :=
  let a := proportions (archetype_def self) in
  let bottom := h - 5 * scale - int_mul h (legs a) - int_mul h (torso a) in
  let x := w / 2 + _get_body_lean pose scale in
  (x - 8 * scale / 2, bottom - int_mul h (head a), x + 8 * scale / 2, bottom).

(** ** The validator's verdict *)

(** Some tier of the pose is on disk. *)
Definition found (asset_dir : path) (m : gmap path FsEntry) (character pose : string) : bool :=
  present m (enhanced_path asset_dir character pose)
  || present m (original_path asset_dir character pose).

(** Every pose of every character of the validator's tables is found. *)
Definition all_found (asset_dir : path) (m : gmap path FsEntry) : bool :=
  forallb (λ character, forallb (found asset_dir m character) poses) characters.

(** ** The characters of a project *)

(** What [_get_existing_characters] keeps of a listing: the directories
    whose name does not start with a dot. *)
Definition visible_dir (m : gmap path FsEntry) (p : path) : bool :=
  is_dir (entry m p) && negb (String.prefix "." (path_name p)).

(** The characters [generate_all_existing_characters] works on, given the
    listing of the project. *)
Definition chosen_characters (listed : list string) : list string :=
  if bool_decide (listed = []) then default_characters else listed.

(** ** The validation of a batch *)

Section ValidationOf.
Context (character_id : string) (sprite_paths : list string).

(** The two searches of [validate_generated_sprites] for one pose. *)
Definition original_found (pose : string) : bool :=
  existsb (str_in (character_id +:+ "_" +:+ pose +:+ ".png")) sprite_paths.

Definition enhanced_found (pose : string) : bool :=
  existsb (str_in (character_id +:+ "_" +:+ pose +:+ "_enhanced.png")) sprite_paths.

Definition not_found (pose : string) : bool :=
  negb (original_found pose) && negb (enhanced_found pose).

Definition valid_names (pose : string) : list string :=
  (if original_found pose then ["original_" +:+ pose] else [])
  ++ (if enhanced_found pose then ["enhanced_" +:+ pose] else []).

End ValidationOf.


(** ** The command line of the generator *)

Section CommandLine.
Context (args : Args).

(** The configuration [main] builds from its arguments. *)
Definition args_config : SpriteConfig :=
  mkSpriteConfig (args_width args) (args_height args)
    (args_enhanced_width args) (args_enhanced_height args)
    1 (args_palette args) (args_dithering args) (args_archetype args).

(** The file [main] writes for a tier of a pose, and the tiers it writes. *)
Definition main_target (pose : string) (enhanced : bool) : path :=
  args_output_dir args
  ++ [args_character args +:+ "_" +:+ pose +:+ (if enhanced then "_enhanced.png" else ".png")].

Definition main_tiers : list bool :=
  if args_enhanced_only args then [true] else [false; true].

Definition main_targets : list path :=
  args_poses args ≫= λ pose, main_target pose <$> main_tiers.

(** A tier of a pose can be rendered and saved: its canvas size is not
    negative, no file is in the way of the output directory, and no
    directory is in the place of the file. *)
Definition tier_can_run (m : gmap path FsEntry) (pose : string) (enhanced : bool) : bool :=
  bool_decide (0 ≤ tier_width args_config enhanced ∧ 0 ≤ tier_height args_config enhanced)
  && creatable m (args_output_dir args)
  && negb (is_dir (m !! main_target pose enhanced)).

Definition main_can_run (m : gmap path FsEntry) : bool :=
  forallb (λ pose, forallb (tier_can_run m pose) main_tiers) (args_poses args).

End CommandLine.

(** Files that are images stay images. *)
Definition keeps_images (m m' : gmap path FsEntry) : Prop :=
  ∀ q img, m !! q = Some (ImageFile img) → ∃ img', m' !! q = Some (ImageFile img').

(** ** The compatibility test *)

Section Compatibility.
Context (file : path) (m : gmap path FsEntry).

(** The two paths the test looks at for a character and a state. *)
Definition test_enhanced_path (test_case : string * string) : path :=
  removelast (removelast (removelast file))
  ++ ["assets"; "sprites"; "street_fighter_6"; test_case.1; "sprites";
      str_replace (test_case.1 +:+ "_" +:+ test_case.2 +:+ ".png") ".png" "_enhanced.png"].

Definition test_original_path (test_case : string * string) : path :=
  removelast (removelast (removelast file))
  ++ ["assets"; "sprites"; "street_fighter_6"; test_case.1; "sprites";
      test_case.1 +:+ "_" +:+ test_case.2 +:+ ".png"].

(** The path the test opens, if any. *)
Definition test_selected (test_case : string * string) : option path :=
  if present m (test_enhanced_path test_case) then Some (test_enhanced_path test_case)
  else if present m (test_original_path test_case) then Some (test_original_path test_case)
  else None.

Definition opens_as_image (p : path) : bool :=
  match entry m p with
  | Some (ImageFile _) => true
  | _ => false
  end.

(** The test can open what it selects for the test case. *)
Definition test_readable (test_case : string * string) : bool :=
  match test_selected test_case with
  | Some p => opens_as_image p
  | None => true
  end.

Definition test_found (test_case : string * string) : bool :=
  bool_decide (is_Some (test_selected test_case)).

End Compatibility.

(** * Properties *)

(** ** Dictionaries written as literals *)

Lemma dict_get_literal_absent {V} (l : list (string * V)) (k : string) (v : V) :
  k ∉ l.*1 → dict_get (list_to_map l) k v = v.
Proof.
  intros Hk. unfold dict_get.
  by rewrite (not_elem_of_list_to_map_1 (M := gmap string) l k Hk).
Qed.

(** ** The pose model *)

Lemma pose_offset_unknown (pose : string) (scale : Z) :
  pose ∉ pose_vocabulary → _get_pose_offset pose scale = (0, 0).
Proof. intros H. unfold _get_pose_offset. by apply dict_get_literal_absent. Qed.

Lemma body_lean_unknown (pose : string) (scale : Z) :
  pose ∉ pose_vocabulary → _get_body_lean pose scale = 0.
Proof. intros H. unfold _get_body_lean. by apply dict_get_literal_absent. Qed.

Lemma pose_offset_rows (scale : Z) :
  _get_pose_offset "idle" scale = (0, 0)
  ∧ _get_pose_offset "walk" scale = (2 * scale, 0)
  ∧ _get_pose_offset "punch" scale = (3 * scale, -2 * scale)
  ∧ _get_pose_offset "kick" scale = (1 * scale, -1 * scale)
  ∧ _get_pose_offset "jump" scale = (0, -8 * scale)
  ∧ _get_pose_offset "special" scale = (2 * scale, -4 * scale).
Proof. by repeat split. Qed.

Lemma body_lean_rows (scale : Z) :
  _get_body_lean "idle" scale = 0
  ∧ _get_body_lean "walk" scale = 1 * scale
  ∧ _get_body_lean "punch" scale = 3 * scale
  ∧ _get_body_lean "kick" scale = -2 * scale
  ∧ _get_body_lean "jump" scale = 0
  ∧ _get_body_lean "special" scale = 2 * scale.
Proof. by repeat split. Qed.

Ltac in_vocabulary H :=
  unfold pose_vocabulary in H;
  repeat (apply elem_of_cons in H; destruct H as [-> | H]);
  [ .. | by apply elem_of_nil in H ].

Lemma pose_offset_scales (pose : string) (scale : Z) :
  _get_pose_offset pose scale =
  (scale * (_get_pose_offset pose 1).1, scale * (_get_pose_offset pose 1).2).
Proof.
  destruct (decide (pose ∈ pose_vocabulary)) as [Hin | Hout].
  - destruct (pose_offset_rows scale) as (E1 & E2 & E3 & E4 & E5 & E6).
    destruct (pose_offset_rows 1) as (F1 & F2 & F3 & F4 & F5 & F6).
    in_vocabulary Hin;
      [ rewrite E1, F1 | rewrite E2, F2 | rewrite E3, F3
      | rewrite E4, F4 | rewrite E5, F5 | rewrite E6, F6 ];
      cbn [fst snd]; f_equal; lia.
  - rewrite !pose_offset_unknown by done. cbn [fst snd]. f_equal; lia.
Qed.

Lemma body_lean_scales (pose : string) (scale : Z) :
  _get_body_lean pose scale = scale * _get_body_lean pose 1.
Proof.
  destruct (decide (pose ∈ pose_vocabulary)) as [Hin | Hout].
  - destruct (body_lean_rows scale) as (E1 & E2 & E3 & E4 & E5 & E6).
    destruct (body_lean_rows 1) as (F1 & F2 & F3 & F4 & F5 & F6).
    in_vocabulary Hin;
      [ rewrite E1, F1 | rewrite E2, F2 | rewrite E3, F3
      | rewrite E4, F4 | rewrite E5, F5 | rewrite E6, F6 ]; lia.
  - rewrite !body_lean_unknown by done. lia.
Qed.

(** C4: the pose offset and the body lean are total functions of the pose name
    and the scale.  On the six names of the vocabulary they are the entries of
    one fixed table multiplied by the scale; on every other name they are
    (0, 0) and 0. *)
Theorem pose_model_total_and_scaled (pose : string) (scale : Z) :
  (λ p, _get_pose_offset p 1) <$> pose_vocabulary = base_offsets
  ∧ (λ p, _get_body_lean p 1) <$> pose_vocabulary = base_leans
  ∧ _get_pose_offset pose scale =
      (scale * (_get_pose_offset pose 1).1, scale * (_get_pose_offset pose 1).2)
  ∧ _get_body_lean pose scale = scale * _get_body_lean pose 1
  ∧ (pose ∉ pose_vocabulary →
       _get_pose_offset pose scale = (0, 0) ∧ _get_body_lean pose scale = 0).
Proof.
  split; [reflexivity |]. split; [reflexivity |].
  split; [apply pose_offset_scales |]. split; [apply body_lean_scales |].
  intros H. split; [by apply pose_offset_unknown | by apply body_lean_unknown].
Qed.

(** The stem "attack" itself is not a key of the pose tables. *)
Example attack_is_outside_the_pose_tables :
  _get_pose_offset "attack" 4 = (0, 0) ∧ _get_body_lean "attack" 4 = 0.
Proof. by vm_compute. Qed.

(** ** Registries *)

Lemma PALETTES_default : PALETTES !! "default" = Some palette_default.
Proof. reflexivity. Qed.

Lemma ARCHETYPES_balanced :
  ARCHETYPES !! "balanced" =
  Some (mkArchetype "medium" "neutral" (mkProportions 12 45 43) "medium").
Proof. reflexivity. Qed.

Lemma get_palette_registry (name : string) : get_palette name ∈ registry_palettes.
Proof.
  unfold get_palette, dict_get.
  destruct (PALETTES !! name) as [p |] eqn:E; cbn [default].
  - apply (elem_of_list_to_map_2 (M := gmap string)) in E.
    repeat (apply elem_of_cons in E; destruct E as [E | E];
            [ injection E as _ ->; unfold registry_palettes; set_solver | ]).
    by apply elem_of_nil in E.
  - unfold registry_palettes. set_solver.
Qed.

Lemma registry_palettes_ok (p : Palette) : p ∈ registry_palettes → palette_ok p.
Proof.
  unfold registry_palettes, palette_ok. intros H.
  repeat (apply elem_of_cons in H; destruct H as [-> | H];
          [ apply (bool_decide_unpack _); by vm_compute | ]).
  by apply elem_of_nil in H.
Qed.

Lemma registry_palettes_truthy (p : Palette) : p ∈ registry_palettes → truthy p = true.
Proof.
  unfold registry_palettes. intros H.
  repeat (apply elem_of_cons in H; destruct H as [-> | H]; [ by vm_compute | ]).
  by apply elem_of_nil in H.
Qed.

(** [generate_character_sprite] always draws with the registry entry of the
    character id; the palette of the configuration is never reached. *)
Lemma char_palette_of_registry (self : SpriteGenerator) (character_id : string) :
  char_palette_of self character_id = get_palette character_id.
Proof.
  unfold char_palette_of.
  by rewrite (registry_palettes_truthy _ (get_palette_registry character_id)).
Qed.

(** C7: a character id that is not a key of the orchestrator's
    character-to-archetype table resolves to "balanced", and looking up an
    archetype name that is not in the registry returns the registry's
    "balanced" definition. *)
Theorem unknown_archetype_is_balanced (character_id name : string) :
  archetype_mapping !! character_id = None →
  ARCHETYPES !! name = None →
  _get_character_archetype character_id = "balanced"
  ∧ ARCHETYPES !! "balanced" = Some (get_archetype name)
  ∧ get_archetype (_get_character_archetype character_id) = get_archetype name.
Proof.
  intros Hc Hn. unfold _get_character_archetype, get_archetype, dict_get.
  rewrite Hc, Hn. cbn [default]. by repeat split.
Qed.

Lemma unknown_archetype_is_balanced_witness :
  _get_character_archetype "dan" = "balanced"
  ∧ ARCHETYPES !! "balanced" = Some (get_archetype "boss")
  ∧ get_archetype (_get_character_archetype "dan") = get_archetype "boss".
Proof. apply unknown_archetype_is_balanced; reflexivity. Defined.

(** ** Drawing never fails on a registry palette *)

Lemma item_first_ok (p : Palette) (k : string) (d : Color) :
  palette_ok p → ∃ c, item (dict_get p k [d]) 0 = Ok c.
Proof.
  intros Hp. unfold dict_get.
  destruct (p !! k) as [ramp |] eqn:E; cbn [default].
  - apply Hp in E. destruct ramp as [| c ramp]; [done |]. by exists c.
  - by exists d.
Qed.

Lemma item_second_ok {A} (l : list A) :
  1 < Z.of_nat (length l) → ∃ c, item l 1 = Ok c.
Proof.
  intros Hlen. unfold item.
  destruct (l !! 1%nat) as [c |] eqn:E; [by exists c |].
  apply lookup_ge_None in E. lia.
Qed.

Ltac first_colour Hp k d E :=
  let c := fresh "c" in
  destruct (item_first_ok _ k d Hp) as [c E].

Ltac run_result :=
  unfold mbind, mret, result_bind, result_ret; cbn beta iota.

Lemma _draw_legs_ok (p : Palette) (cx by_ w h : Z) (pose : string) (scale : Z) :
  palette_ok p → ∃ shapes, _draw_legs p cx by_ w h pose scale = Ok shapes.
Proof.
  intros Hp. unfold _draw_legs. cbv zeta.
  first_colour Hp "gi_primary" (255, 255, 255) E1.
  first_colour Hp "outline" (0, 0, 0) E2.
  repeat case_match; rewrite E1; run_result; rewrite E2; run_result; eauto.
Qed.

Lemma _draw_torso_ok (self : SpriteGenerator) (p : Palette) (cx by_ w h : Z)
    (pose : string) (scale : Z) :
  palette_ok p → ∃ shapes, _draw_torso self p cx by_ w h pose scale = Ok shapes.
Proof.
  intros Hp. unfold _draw_torso. cbv zeta.
  first_colour Hp "gi_primary" (255, 255, 255) E1.
  first_colour Hp "outline" (0, 0, 0) E2.
  first_colour Hp "belt" (139, 69, 19) E3.
  rewrite E1. run_result. rewrite E2. run_result. rewrite E3. run_result.
  destruct (String.eqb (muscle_definition (archetype_def self)) "high"); [| eauto].
  case_bool_decide as Hlen; [| run_result; eauto].
  destruct (item_second_ok _ Hlen) as [c4 ->]. run_result. eauto.
Qed.

Lemma _draw_head_ok (p : Palette) (cx by_ w h : Z) (pose : string) (scale : Z) :
  palette_ok p → ∃ shapes, _draw_head p cx by_ w h pose scale = Ok shapes.
Proof.
  intros Hp. unfold _draw_head. cbv zeta.
  first_colour Hp "skin" (255, 220, 177) E1.
  first_colour Hp "outline" (0, 0, 0) E2.
  first_colour Hp "hair" (139, 69, 19) E3.
  first_colour Hp "eyes" (0, 100, 200) E4.
  rewrite E1. run_result. rewrite E2. run_result.
  rewrite E3. run_result. rewrite E4. run_result. eauto.
Qed.

Lemma _draw_arms_ok (p : Palette) (cx cy : Z) (pose : string) (scale tw th : Z) :
  palette_ok p → ∃ shapes, _draw_arms p cx cy pose scale tw th = Ok shapes.
Proof.
  intros Hp. unfold _draw_arms. cbv zeta.
  first_colour Hp "gi_primary" (255, 255, 255) E1.
  first_colour Hp "outline" (0, 0, 0) E2.
  first_colour Hp "skin" (255, 220, 177) E3.
  repeat case_match; rewrite E1; run_result; rewrite E2; run_result;
    rewrite ?E3; run_result; eauto.
Qed.

Lemma _draw_character_ok (self : SpriteGenerator) (p : Palette) (pose : string)
    (w h scale : Z) :
  palette_ok p → ∃ shapes, _draw_character self p pose w h scale = Ok shapes.
Proof.
  intros Hp. unfold _draw_character. cbv zeta.
  edestruct (_draw_legs_ok p) as [s1 ->]; [done |]. run_result.
  edestruct (_draw_torso_ok self p) as [s2 ->]; [done |]. run_result.
  edestruct (_draw_head_ok p) as [s3 ->]; [done |]. run_result.
  edestruct (_draw_arms_ok p) as [s4 ->]; [done |]. run_result.
  eauto.
Qed.

(** [generate_character_sprite] in closed form: it fails exactly on a negative
    canvas dimension, and otherwise returns the canvas with the shapes of
    [_draw_character] on it. *)
Lemma generate_character_sprite_eq (cfg : SpriteConfig) (character_id pose : string)
    (enhanced : bool) :
  let self := SpriteGenerator_init cfg in
  let w := if enhanced then enhanced_width cfg else width cfg in
  let h := if enhanced then enhanced_height cfg else height cfg in
  let scale := if enhanced then 4 else 1 in
  ∃ shapes,
    _draw_character self (get_palette character_id) pose w h scale = Ok shapes
    ∧ generate_character_sprite self character_id pose enhanced =
      if bool_decide (w < 0 ∨ h < 0)
      then Raise (ValueError "Width and height must be >= 0")
      else Ok (finish self (mkImage "RGBA" (w, h) (0, 0, 0, 0) (Draw <$> shapes))).
Proof.
  intros self w h scale.
  destruct (_draw_character_ok self (get_palette character_id) pose w h scale)
    as [shapes Hs].
  { apply registry_palettes_ok, get_palette_registry. }
  exists shapes. split; [done |].
  unfold generate_character_sprite. rewrite char_palette_of_registry.
  subst self w h scale.
  destruct enhanced; unfold Image_new;
    cbn [config SpriteGenerator_init fst snd] in *; cbv beta iota zeta;
    case_bool_decide; run_result; try done; rewrite Hs; run_result; done.
Qed.

(** ** Every box drawn has its corners in order *)

Ltac ordered_boxes :=
  repeat (constructor; [cbn; Z.div_mod_to_equations; lia |]); constructor.

Ltac run_drawing H :=
  cbv zeta in H; unfold mbind, mret, result_bind, result_ret in H;
  repeat case_match; try discriminate H; injection H as <-.

Lemma _draw_legs_ordered (p : Palette) (cx by_ w h : Z) (pose : string) (scale : Z)
    (shapes : list Shape) :
  0 ≤ w → 0 ≤ h →
  _draw_legs p cx by_ w h pose scale = Ok shapes → Forall box_ordered shapes.
Proof.
  intros Hw Hh H. unfold _draw_legs in H. run_drawing H; ordered_boxes.
Qed.

Lemma _draw_torso_ordered (self : SpriteGenerator) (p : Palette) (cx by_ w h : Z)
    (pose : string) (scale : Z) (shapes : list Shape) :
  0 ≤ w → 0 ≤ h → 0 ≤ scale →
  _draw_torso self p cx by_ w h pose scale = Ok shapes → Forall box_ordered shapes.
Proof.
  intros Hw Hh Hs H. unfold _draw_torso in H. run_drawing H; cbn [app]; ordered_boxes.
Qed.

Lemma _draw_head_ordered (p : Palette) (cx by_ w h : Z) (pose : string) (scale : Z)
    (shapes : list Shape) :
  0 ≤ w → 0 ≤ h → 0 ≤ scale →
  _draw_head p cx by_ w h pose scale = Ok shapes → Forall box_ordered shapes.
Proof.
  intros Hw Hh Hs H. unfold _draw_head in H. run_drawing H; ordered_boxes.
Qed.

Lemma _draw_arms_ordered (p : Palette) (cx cy : Z) (pose : string) (scale tw th : Z)
    (shapes : list Shape) :
  0 ≤ scale → 0 ≤ tw → 0 ≤ th →
  _draw_arms p cx cy pose scale tw th = Ok shapes → Forall box_ordered shapes.
Proof.
  intros Hs Htw Hth H. unfold _draw_arms in H. run_drawing H; ordered_boxes.
Qed.

Lemma int_mul_nonneg (h pct : Z) : 0 ≤ h → 0 ≤ pct → 0 ≤ int_mul h pct.
Proof. intros Hh Hp. unfold int_mul. apply Z.quot_pos; lia. Qed.

Lemma _draw_character_ordered (self : SpriteGenerator) (p : Palette) (pose : string)
    (w h scale : Z) (shapes : list Shape) :
  0 ≤ h → 0 ≤ scale →
  0 ≤ head (proportions (archetype_def self)) →
  0 ≤ torso (proportions (archetype_def self)) →
  0 ≤ legs (proportions (archetype_def self)) →
  _draw_character self p pose w h scale = Ok shapes → Forall box_ordered shapes.
Proof.
  intros Hh Hs Hhead Htorso Hlegs H. unfold _draw_character in H. cbv zeta in H.
  unfold mbind, mret, result_bind, result_ret in H.
  pose proof (int_mul_nonneg h _ Hh Hhead). pose proof (int_mul_nonneg h _ Hh Htorso).
  pose proof (int_mul_nonneg h _ Hh Hlegs).
  destruct (_draw_legs _ _ _ _ _ _ _) as [s1 |] eqn:E1; [| discriminate H].
  destruct (_draw_torso _ _ _ _ _ _ _ _) as [s2 |] eqn:E2; [| discriminate H].
  destruct (_draw_head _ _ _ _ _ _ _) as [s3 |] eqn:E3; [| discriminate H].
  destruct (_draw_arms _ _ _ _ _ _ _) as [s4 |] eqn:E4; [| discriminate H].
  injection H as <-.
  apply _draw_legs_ordered in E1; [| case_match; lia | done].
  apply _draw_torso_ordered in E2; [| case_match; lia | done | done].
  apply _draw_head_ordered in E3; [| lia | done | done].
  apply _draw_arms_ordered in E4; [| done | case_match; lia | done].
  by repeat (apply Forall_app; split).
Qed.

Lemma get_archetype_proportions (name : string) :
  0 ≤ head (proportions (get_archetype name))
  ∧ 0 ≤ torso (proportions (get_archetype name))
  ∧ 0 ≤ legs (proportions (get_archetype name)).
Proof.
  unfold get_archetype, dict_get.
  destruct (ARCHETYPES !! name) as [a |] eqn:E; cbn [default]; [| by vm_compute].
  apply (elem_of_list_to_map_2 (M := gmap string)) in E.
  repeat (apply elem_of_cons in E; destruct E as [E | E];
          [ injection E as _ ->; by vm_compute | ]).
  by apply elem_of_nil in E.
Qed.

(** No drawing call of a generated sprite is one PIL would reject for its box. *)
Lemma generated_boxes_ordered (cfg : SpriteConfig) (character_id pose : string)
    (enhanced : bool) (sprite : Image) :
  generate_character_sprite (SpriteGenerator_init cfg) character_id pose enhanced = Ok sprite →
  Forall op_ordered (history sprite).
Proof.
  destruct (generate_character_sprite_eq cfg character_id pose enhanced)
    as (shapes & Hs & ->).
  case_bool_decide as Hneg; [done |]. intros [= <-].
  destruct (get_archetype_proportions (archetype cfg)) as (Hhead & Htorso & Hlegs).
  apply _draw_character_ordered in Hs;
    [| destruct enhanced; lia | destruct enhanced; lia | done | done | done].
  assert (Hdrawn : Forall op_ordered (Draw <$> shapes)).
  { apply Forall_fmap. eapply Forall_impl; [exact Hs |]. done. }
  unfold finish, _apply_dithering, quantize, convert.
  destruct (use_dithering _); cbn [history]; [| done].
  by repeat (apply Forall_app; split; [| by repeat constructor]).
Qed.

(** ** Canvas size and scale *)

(** C6: a sprite that [generate_character_sprite] returns has exactly the
    configured size of its tier, enhanced_width x enhanced_height or
    width x height, and is an RGBA image, with or without dithering. *)
Theorem generated_sprite_dimensions (self : SpriteGenerator)
    (character_id pose : string) (enhanced : bool) (sprite : Image) :
  generate_character_sprite self character_id pose enhanced = Ok sprite →
  size sprite =
    (if enhanced
     then (enhanced_width (config self), enhanced_height (config self))
     else (width (config self), height (config self)))
  ∧ mode sprite = "RGBA".
Proof.
  unfold generate_character_sprite, Image_new.
  destruct enhanced; cbv beta iota zeta; cbn [fst snd];
    (case_bool_decide; run_result; [done |]);
    (destruct (_draw_character _ _ _ _ _ _) as [shapes |]; run_result; [| done]);
    intros [= <-]; destruct (use_dithering (config self)); done.
Qed.

Lemma generated_sprite_dimensions_witness :
  ∃ sprite,
    generate_character_sprite
      (SpriteGenerator_init (mkSpriteConfig 64 96 256 384 1 "ryu" true "balanced"))
      "ryu" "kick" true = Ok sprite
    ∧ size sprite = (256, 384) ∧ mode sprite = "RGBA".
Proof.
  eexists. split; [by vm_compute |].
  exact (generated_sprite_dimensions
           (SpriteGenerator_init (mkSpriteConfig 64 96 256 384 1 "ryu" true "balanced"))
           "ryu" "kick" true _ eq_refl).
Defined.

Lemma _draw_character_layout (self : SpriteGenerator) (p : Palette) (pose : string)
    (w h scale : Z) (shapes : list Shape) :
  _draw_character self p pose w h scale = Ok shapes →
  outline_of <$> shapes
  = layout (scaled scale (design (archetype_def self) pose)) (archetype_def self) pose w h.
Proof.
  intros H. unfold _draw_character in H. cbv zeta in H.
  unfold mbind, mret, result_bind, result_ret in H.
  destruct (_draw_legs _ _ _ _ _ _ _) as [s1 |] eqn:E1; [| discriminate H].
  destruct (_draw_torso _ _ _ _ _ _ _ _) as [s2 |] eqn:E2; [| discriminate H].
  destruct (_draw_head _ _ _ _ _ _ _) as [s3 |] eqn:E3; [| discriminate H].
  destruct (_draw_arms _ _ _ _ _ _ _) as [s4 |] eqn:E4; [| discriminate H].
  injection H as <-.
  assert (Hlean : _get_body_lean pose scale = scale * _get_body_lean pose 1).
  { rewrite (body_lean_scales pose scale). lia. }
  rewrite !fmap_app. unfold layout.
  f_equal; [| f_equal; [| f_equal]].
  - unfold _draw_legs in E1. unfold legs_layout, layout_x, scaled, design.
    cbn [px_margin px_leg px_lean]. rewrite <- Hlean.
    replace (scale * 5) with (5 * scale) by lia.
    destruct (String.eqb (body_type (archetype_def self)) "heavy");
      [replace (scale * 8) with (8 * scale) by lia
      | replace (scale * 6) with (6 * scale) by lia];
      run_drawing E1; reflexivity.
  - unfold _draw_torso in E2.
    unfold torso_layout, legs_top, layout_x, scaled, design.
    cbn [px_margin px_torso px_lean px_belt px_chest]. rewrite <- Hlean.
    replace (scale * 5) with (5 * scale) by lia.
    replace (scale * 2) with (2 * scale) by lia.
    replace (scale * 4) with (4 * scale) by lia.
    destruct (String.eqb (body_type (archetype_def self)) "heavy");
      [replace (scale * 12) with (12 * scale) by lia
      | replace (scale * 10) with (10 * scale) by lia];
      run_drawing E2; reflexivity.
  - unfold _draw_head in E3.
    unfold head_layout, torso_top, legs_top, layout_x, scaled, design.
    cbn [px_margin px_head px_lean px_eye]. rewrite <- Hlean.
    replace (scale * 5) with (5 * scale) by lia.
    replace (scale * 2) with (2 * scale) by lia.
    replace (scale * 8) with (8 * scale) by lia.
    run_drawing E3; reflexivity.
  - unfold _draw_arms in E4.
    unfold arms_layout, torso_top, legs_top, layout_x, scaled, design.
    cbn [px_margin px_torso px_lean px_arm px_fist]. rewrite <- Hlean.
    replace (scale * 5) with (5 * scale) by lia.
    replace (scale * 3) with (3 * scale) by lia.
    replace (scale * 4) with (4 * scale) by lia.
    destruct (String.eqb (body_type (archetype_def self)) "heavy");
      [replace (scale * 12) with (12 * scale) by lia
      | replace (scale * 10) with (10 * scale) by lia];
      run_drawing E4; reflexivity.
Qed.

Lemma drawn_outlines_finish (self : SpriteGenerator) (m : string) (sz : Z * Z)
    (bg : Z * Z * Z * Z) (shapes : list Shape) :
  drawn_outlines (finish self (mkImage m sz bg (Draw <$> shapes))) = outline_of <$> shapes.
Proof.
  assert (Hdraws : ∀ l : list Shape,
            (Draw <$> l) ≫= (λ op, match op with
                                    | Draw s => [outline_of s]
                                    | _ => []
                                    end) = outline_of <$> l).
  { induction l as [| s l IH]; [done |]. rewrite !fmap_cons, bind_cons, IH. done. }
  unfold drawn_outlines, finish, _apply_dithering, quantize, convert.
  destruct (use_dithering (config self)); cbn [history]; [| apply Hdraws].
  rewrite !bind_app, Hdraws. cbn. by rewrite !app_nil_r.
Qed.

Lemma size_finish (self : SpriteGenerator) (im : Image) : size (finish self im) = size im.
Proof. unfold finish, _apply_dithering. by destruct (use_dithering (config self)). Qed.

(** C10: a sprite of the enhanced pass has the canvas enhanced_width x
    enhanced_height, and its drawing calls are, shape by shape, the layout
    of the design on that canvas with every pixel measure (margin, widths,
    belt, chest line, eyes, arms, fist, lean) multiplied by 4, where the
    base pass has the same measures multiplied by 1 on the canvas
    width x height.  The base size does not enter the enhanced pass: with
    any other base size, multiple or not, it returns the same sprite. *)
Theorem enhanced_pass_scale_is_4 (cfg : SpriteConfig) (character_id pose : string)
    (sprite : Image) :
  let self := SpriteGenerator_init cfg in
  let a := archetype_def self in
  generate_character_sprite self character_id pose true = Ok sprite →
  size sprite = (enhanced_width cfg, enhanced_height cfg)
  ∧ drawn_outlines sprite
    = layout (scaled 4 (design a pose)) a pose (enhanced_width cfg) (enhanced_height cfg)
  ∧ (∀ base,
       generate_character_sprite self character_id pose false = Ok base →
       drawn_outlines base = layout (scaled 1 (design a pose)) a pose (width cfg) (height cfg))
  ∧ ∀ w h,
      generate_character_sprite (SpriteGenerator_init (with_base_size cfg w h))
                                character_id pose true = Ok sprite.
Proof.
  intros self a Hgen. pose proof Hgen as Hgen0.
  assert (Hsame : ∀ w h,
            generate_character_sprite (SpriteGenerator_init (with_base_size cfg w h))
                                      character_id pose true
            = generate_character_sprite self character_id pose true)
    by (intros w h; subst self; by destruct cfg).
  destruct (generate_character_sprite_eq cfg character_id pose true) as (shapes & Hs & Hg).
  fold self in Hs, Hg. rewrite Hg in Hgen.
  case_bool_decide; [done |]. injection Hgen as <-.
  split; [by rewrite size_finish |].
  split; [rewrite drawn_outlines_finish; by apply (_draw_character_layout _ _ _ _ _ _ _ Hs) |].
  split.
  - intros base Hbase.
    destruct (generate_character_sprite_eq cfg character_id pose false)
      as (shapes1 & Hs1 & Hg1).
    fold self in Hs1, Hg1. rewrite Hg1 in Hbase.
    case_bool_decide; [done |]. injection Hbase as <-.
    rewrite drawn_outlines_finish. by apply (_draw_character_layout _ _ _ _ _ _ _ Hs1).
  - intros w h. by rewrite Hsame.
Qed.

Lemma enhanced_pass_scale_is_4_witness :
  let cfg := mkSpriteConfig 64 96 100 150 1 "default" false "balanced" in
  ∃ sprite,
    generate_character_sprite (SpriteGenerator_init cfg) "ryu" "punch" true = Ok sprite
    ∧ size sprite = (100, 150)
    ∧ drawn_outlines sprite !! 0%nat = Some (Rect (50, 66, 59, 130))
    ∧ drawn_outlines sprite !! 2%nat = Some (Rect (42, -1, 82, 66)).
Proof.
  intros cfg.
  destruct (enhanced_pass_scale_is_4 cfg "ryu" "punch" _ eq_refl) as (Hsize & Hlayout & _).
  match type of Hsize with size ?s = _ => exists s end.
  split; [reflexivity |]. split; [exact Hsize |]. rewrite Hlayout. split; reflexivity.
Defined.

(** A configuration whose enhanced size is not four times its base size. *)
Example enhanced_pass_odd_size :
  let cfg := mkSpriteConfig 64 96 100 150 1 "default" false "balanced" in
  ∃ sprite,
    generate_character_sprite (SpriteGenerator_init cfg) "ryu" "punch" true = Ok sprite
    ∧ size sprite = (100, 150)
    ∧ history sprite !! 0%nat =
        Some (Draw (Rectangle (50 + 3 * 4 - 6 * 4 / 2, 150 - 5 * 4 - 64,
                               50 + 3 * 4 - 6 * 4 / 8, 150 - 5 * 4)
                              (Some (255, 255, 255)) (Some (0, 0, 0)))).
Proof. eexists. by vm_compute. Qed.

(** ** Palette precedence *)

Lemma palette_default_ne_ken : palette_default ≠ palette_ken.
Proof. intros H. apply (f_equal (.!! "hair")) in H. by vm_compute in H. Qed.

(** C1, at the input where it fails: the configuration names the palette "ken"
    and the character id "akuma" has no palette of its own.  The generator
    holds the "ken" palette, yet the sprite is drawn with the "default" one. *)
Theorem config_palette_not_used_for_unknown_character :
  let cfg := mkSpriteConfig 64 96 256 384 1 "ken" false "balanced" in
  let self := SpriteGenerator_init cfg in
  PALETTES !! "akuma" = None
  ∧ palette self = palette_ken
  ∧ char_palette_of self "akuma" = palette_default
  ∧ char_palette_of self "akuma" ≠ palette self
  ∧ ∃ sprite drawn_default drawn_ken,
      generate_character_sprite self "akuma" "idle" false = Ok sprite
      ∧ _draw_character self palette_default "idle" 64 96 1 = Ok drawn_default
      ∧ _draw_character self palette_ken "idle" 64 96 1 = Ok drawn_ken
      ∧ history sprite = Draw <$> drawn_default
      ∧ history sprite ≠ Draw <$> drawn_ken.
Proof.
  intros cfg self.
  split; [reflexivity |]. split; [reflexivity |].
  split; [by rewrite char_palette_of_registry |].
  split; [rewrite char_palette_of_registry; exact palette_default_ne_ken |].
  do 3 eexists.
  split; [by vm_compute |]. split; [by vm_compute |]. split; [by vm_compute |].
  split; [by vm_compute |]. by vm_compute.
Qed.

(** ** Directories and files *)

Lemma evolves_refl (n : nat) (m : gmap path FsEntry) : evolves n m m.
Proof. intros q. repeat split; auto. Qed.

Lemma evolves_trans (n : nat) (m1 m2 m3 : gmap path FsEntry) :
  evolves n m1 m2 → evolves n m2 m3 → evolves n m1 m3.
Proof.
  intros H12 H23 q.
  destruct (H12 q) as (K1 & S1 & L1), (H23 q) as (K2 & S2 & L2).
  repeat split.
  - auto.
  - intros Hq. destruct (S1 Hq) as [E1 | [E1 D1]], (S2 Hq) as [E2 | [E2 D2]].
    + left. congruence.
    + right. split; congruence.
    + right. split; congruence.
    + congruence.
  - auto.
Qed.

Lemma entry_snoc (m : gmap path FsEntry) (p : path) (c : string) :
  entry m (p ++ [c]) = m !! (p ++ [c]).
Proof. unfold entry. by destruct p. Qed.

Lemma free_or_dir_insert_dir (m : gmap path FsEntry) (p q : path) :
  free_or_dir (m !! q) = true → free_or_dir (<[p := Dir]> m !! q) = true.
Proof.
  intros H. destruct (decide (p = q)) as [-> | Hne].
  - by rewrite lookup_insert_eq.
  - by rewrite lookup_insert_ne.
Qed.

Lemma creatable_from_insert_dir (m : gmap path FsEntry) (p parent : path) (rest : list string) :
  creatable_from m parent rest = true → creatable_from (<[p := Dir]> m) parent rest = true.
Proof.
  revert parent. induction rest as [| c rest IH]; intros parent; cbn; [done |].
  intros [H1 H2]%andb_true_iff. apply andb_true_iff. split.
  - by apply free_or_dir_insert_dir.
  - by apply IH.
Qed.

Lemma creatable_from_evolves (n : nat) (m m' : gmap path FsEntry) (parent : path)
    (rest : list string) :
  evolves n m m' → (length parent + length rest ≤ n)%nat →
  creatable_from m parent rest = true → creatable_from m' parent rest = true.
Proof.
  intros Hev. revert parent. induction rest as [| c rest IH]; intros parent Hlen; cbn; [done |].
  intros [H1 H2]%andb_true_iff. apply andb_true_iff. split.
  - destruct (Hev (parent ++ [c])) as (_ & Hshort & _).
    destruct Hshort as [E | [_ E]].
    { rewrite length_app. cbn in *. lia. }
    all: by rewrite E.
  - apply IH; [| done]. rewrite length_app. cbn in *. lia.
Qed.

Lemma dirs_exist_from_kept (m m' : gmap path FsEntry) (parent : path) (rest : list string) :
  (∀ q, m !! q = Some Dir → m' !! q = Some Dir) →
  dirs_exist_from m parent rest = true → dirs_exist_from m' parent rest = true.
Proof.
  intros Hk. revert parent. induction rest as [| c rest IH]; intros parent; cbn; [done |].
  intros [H1 H2]%andb_true_iff. apply andb_true_iff. split; [| by apply IH].
  destruct (m !! (parent ++ [c])) as [[] |] eqn:E; try done.
  by rewrite (Hk _ E).
Qed.

Lemma dirs_exist_from_last (m : gmap path FsEntry) (parent : path) (rest : list string) :
  dirs_exist_from m parent rest = true → rest ≠ [] → m !! (parent ++ rest) = Some Dir.
Proof.
  revert parent. induction rest as [| c rest IH]; intros parent; cbn; [done |].
  intros [H1 H2]%andb_true_iff _.
  destruct rest as [| c' rest].
  - destruct (m !! (parent ++ [c])) as [[] |]; done.
  - replace (parent ++ c :: c' :: rest) with ((parent ++ [c]) ++ c' :: rest)
      by (by rewrite <- app_assoc).
    apply IH; done.
Qed.

Lemma evolves_insert_dir (n : nat) (m : gmap path FsEntry) (p : path) :
  m !! p = None → (length p ≤ n)%nat → evolves n m (<[p := Dir]> m).
Proof.
  intros Hnone Hlen q. destruct (decide (p = q)) as [<- | Hne].
  - rewrite lookup_insert_eq. split; [done |].
    split; [intros _; by right | intros Hq; lia].
  - rewrite lookup_insert_ne by done. repeat split; auto.
Qed.

Lemma evolves_insert_file (n : nat) (m : gmap path FsEntry) (p : path) (img : Image) :
  m !! p ≠ Some Dir → (n < length p)%nat → evolves n m (<[p := ImageFile img]> m).
Proof.
  intros Hnd Hlen q. destruct (decide (p = q)) as [<- | Hne].
  - rewrite lookup_insert_eq. split; [done |].
    split; [intros Hq; lia | done].
  - rewrite lookup_insert_ne by done. repeat split; auto.
Qed.

Lemma makedirs_from_noop (m : gmap path FsEntry) (parent : path) (rest : list string) :
  dirs_exist_from m parent rest = true → makedirs_from parent rest m = (Ok tt, m).
Proof.
  revert parent. induction rest as [| c rest IH]; intros parent; cbn; [done |].
  intros [H1 H2]%andb_true_iff. rewrite entry_snoc.
  destruct (m !! (parent ++ [c])) as [[] |]; try done. by apply IH.
Qed.

Lemma makedirs_from_creates (m : gmap path FsEntry) (parent : path) (rest : list string) :
  creatable_from m parent rest = true →
  ∃ m', makedirs_from parent rest m = (Ok tt, m')
        ∧ dirs_exist_from m' parent rest = true
        ∧ evolves (length parent + length rest) m m'.
Proof.
  revert parent m. induction rest as [| c rest IH]; intros parent m; cbn.
  { intros _. exists m. split; [done |]. split; [done |]. apply evolves_refl. }
  intros [H1 H2]%andb_true_iff. rewrite entry_snoc.
  assert (Hlen : (length (parent ++ [c]) + length rest = length parent + S (length rest))%nat).
  { rewrite length_app. cbn. lia. }
  destruct (m !! (parent ++ [c])) as [[] |] eqn:E; try done.
  - destruct (IH _ _ H2) as (m' & Hrun & Hdirs & Hev).
    exists m'. split; [done |]. rewrite Hlen in Hev. split; [| done].
    apply andb_true_iff. split; [| done].
    destruct (Hev (parent ++ [c])) as (Hkept & _). by rewrite (Hkept E).
  - destruct (IH (parent ++ [c]) (<[parent ++ [c] := Dir]> m)) as (m' & Hrun & Hdirs & Hev).
    { by apply creatable_from_insert_dir. }
    exists m'. split; [done |]. rewrite Hlen in Hev. split.
    + apply andb_true_iff. split; [| done].
      destruct (Hev (parent ++ [c])) as (Hkept & _).
      by rewrite (Hkept (lookup_insert_eq _ _ _)).
    + eapply evolves_trans; [| exact Hev].
      apply evolves_insert_dir; [done |]. rewrite length_app. cbn. lia.
Qed.

Lemma makedirs_from_idem (m m' : gmap path FsEntry) (parent : path) (rest : list string)
    (r : result unit) :
  makedirs_from parent rest m = (r, m') →
  (∀ q, m !! q = Some Dir → m' !! q = Some Dir)
  ∧ makedirs_from parent rest m' = (r, m').
Proof.
  revert parent m. induction rest as [| c rest IH]; intros parent m; cbn.
  { intros [= <- <-]. done. }
  rewrite !entry_snoc.
  destruct (m !! (parent ++ [c])) as [[] |] eqn:E.
  - intros Hrun. destruct (IH _ _ Hrun) as [Hkept Hagain].
    split; [done |]. by rewrite (Hkept _ E).
  - intros [= <- <-]. split; [done |]. by rewrite E.
  - intros [= <- <-]. split; [done |]. by rewrite E.
  - intros Hrun. destruct (IH _ _ Hrun) as [Hkept Hagain]. split.
    + intros q Hq. apply Hkept. destruct (decide (parent ++ [c] = q)) as [<- | Hne].
      * by rewrite lookup_insert_eq.
      * by rewrite lookup_insert_ne.
    + by rewrite (Hkept _ (lookup_insert_eq _ _ _)).
Qed.

Lemma entry_dirs_exist (m : gmap path FsEntry) (p : path) :
  dirs_exist m p = true → entry m p = Some Dir.
Proof.
  intros H. destruct p as [| c p]; [done |].
  change (entry m (c :: p)) with (m !! ([] ++ c :: p)).
  by apply dirs_exist_from_last.
Qed.

Lemma is_dir_evolves (n : nat) (m m' : gmap path FsEntry) (q : path) :
  evolves n m m' → (n < length q)%nat → is_dir (m' !! q) = is_dir (m !! q).
Proof.
  intros Hev Hq. destruct (Hev q) as (Hkept & _ & Hlong).
  destruct (m !! q) as [[] |] eqn:E.
  - by rewrite (Hkept eq_refl).
  - destruct (m' !! q) as [[] |] eqn:E'; try done. by specialize (Hlong Hq eq_refl).
  - destruct (m' !! q) as [[] |] eqn:E'; try done. by specialize (Hlong Hq eq_refl).
  - destruct (m' !! q) as [[] |] eqn:E'; try done. by specialize (Hlong Hq eq_refl).
Qed.

(** ** One character of the batch, in closed form *)

Section Character.
Context (generator : SpriteGenerator) (dir : path) (character_id : string).

Lemma out_path_length (pose : string) (enhanced : bool) :
  (length dir < length (out_path dir character_id pose enhanced))%nat.
Proof. unfold out_path. rewrite length_app. cbn. lia. Qed.

Lemma path_name_out_path (pose : string) (enhanced : bool) :
  path_name (out_path dir character_id pose enhanced) =
  sprite_filename character_id (_map_pose_name pose) enhanced.
Proof. unfold path_name, out_path. apply last_last. Qed.

Lemma item_outcome_evolves (m m' : gmap path FsEntry) (pose : string) (enhanced : bool) :
  evolves (length dir) m m' →
  item_outcome generator dir character_id m' pose enhanced
  = item_outcome generator dir character_id m pose enhanced.
Proof.
  intros Hev. unfold item_outcome.
  by rewrite (is_dir_evolves _ _ _ _ Hev (out_path_length pose enhanced)).
Qed.

Lemma generate_one_run (pose : string) (enhanced : bool) (paths : list string) (w : World) :
  dirs_exist (fs w) dir = true →
  generate_one generator dir character_id pose (_map_pose_name pose) enhanced paths w =
  (Ok (paths ++ item_paths generator dir character_id (fs w) pose enhanced),
   mkWorld (item_write generator dir character_id (fs w) pose enhanced (fs w))
           (console w ++ item_events generator dir character_id (fs w) pose enhanced)).
Proof.
  intros Hdirs.
  unfold generate_one, item_paths, item_events, item_write, item_outcome.
  fold (out_path dir character_id pose enhanced).
  unfold try_except, save_sprite, makedirs, Image_save, lift, print, fs_op,
    mbind, M_bind, mret, M_ret.
  destruct (generate_character_sprite generator character_id pose enhanced)
    as [sprite | e]; cbn [fs console]; [| by rewrite app_nil_r].
  unfold out_path at 1 2. rewrite removelast_last.
  rewrite (makedirs_from_noop _ _ _ Hdirs). cbn [fs console].
  unfold write_image. fold (out_path dir character_id pose enhanced).
  unfold out_path at 1. rewrite removelast_last.
  rewrite (entry_dirs_exist _ _ Hdirs).
  unfold out_path at 1. rewrite entry_snoc. fold (out_path dir character_id pose enhanced).
  rewrite path_name_out_path.
  destruct (fs w !! out_path dir character_id pose enhanced) as [[] |]; cbn; by rewrite ?app_nil_r.
Qed.
End Character.

Section CharacterLoop.
Context (generator : SpriteGenerator) (dir : path) (character_id : string).
Context (m0 : gmap path FsEntry).

Local Abbreviation n := (length dir).

Lemma item_write_evolves (pose : string) (enhanced : bool) (m : gmap path FsEntry) :
  evolves n m0 m →
  evolves n m0 (item_write generator dir character_id m0 pose enhanced m).
Proof.
  intros Hev. eapply evolves_trans; [exact Hev |].
  unfold item_write, item_outcome.
  destruct (generate_character_sprite _ _ _ _) as [sprite | e]; [| apply evolves_refl].
  destruct (is_dir (m0 !! _)) eqn:Hd; [apply evolves_refl |].
  apply evolves_insert_file; [| apply out_path_length].
  rewrite <- (is_dir_evolves _ _ _ _ Hev (out_path_length dir character_id pose enhanced)) in Hd.
  intros E. by rewrite E in Hd.
Qed.

Lemma dirs_exist_evolves (m m' : gmap path FsEntry) :
  evolves n m m' → dirs_exist m dir = true → dirs_exist m' dir = true.
Proof.
  intros Hev. apply dirs_exist_from_kept. intros q. by destruct (Hev q).
Qed.

Lemma item_writes_same (m : gmap path FsEntry) (pose : string) (enhanced : bool)
    (m' : gmap path FsEntry) :
  evolves n m0 m →
  item_write generator dir character_id m pose enhanced m' =
  item_write generator dir character_id m0 pose enhanced m'.
Proof. intros Hev. unfold item_write. by rewrite (item_outcome_evolves _ _ _ _ _ _ _ Hev). Qed.

Lemma pose_body_run (pose : string) (paths : list string) (w : World) :
  evolves n m0 (fs w) → dirs_exist m0 dir = true →
  batch_generator.pose_body generator dir character_id pose paths w =
  (Ok (paths ++ item_paths generator dir character_id m0 pose false
             ++ item_paths generator dir character_id m0 pose true),
   mkWorld (item_write generator dir character_id m0 pose true
              (item_write generator dir character_id m0 pose false (fs w)))
           (console w ++ item_events generator dir character_id m0 pose false
                      ++ item_events generator dir character_id m0 pose true)).
Proof.
  intros Hev Hdirs. unfold batch_generator.pose_body.
  unfold mbind at 1, M_bind at 1.
  rewrite generate_one_run by (by eapply dirs_exist_evolves).
  rewrite (item_writes_same _ _ _ _ Hev).
  pose proof (item_write_evolves pose false _ Hev) as Hev1.
  rewrite generate_one_run by (cbn [fs]; by eapply dirs_exist_evolves).
  cbn [fs console].
  rewrite (item_writes_same _ _ _ _ Hev1).
  unfold item_paths, item_events.
  rewrite !(item_outcome_evolves _ _ _ _ _ _ _ Hev).
  rewrite !(item_outcome_evolves _ _ _ _ _ _ _ Hev1).
  by rewrite <- !app_assoc.
Qed.

Lemma poses_writes_evolves (poses : list string) (m : gmap path FsEntry) :
  evolves n m0 m → evolves n m0 (poses_writes generator dir character_id m0 poses m).
Proof.
  revert m. induction poses as [| pose poses IH]; intros m Hev; cbn; [done |].
  apply IH. by do 2 apply item_write_evolves.
Qed.

Lemma pose_loop_run (poses : list string) (paths : list string) (w : World) :
  evolves n m0 (fs w) → dirs_exist m0 dir = true →
  for_each poses (batch_generator.pose_body generator dir character_id) paths w =
  (Ok (paths ++ poses_paths generator dir character_id m0 poses),
   mkWorld (poses_writes generator dir character_id m0 poses (fs w))
           (console w ++ poses_events generator dir character_id m0 poses)).
Proof.
  revert paths w. induction poses as [| pose poses IH]; intros paths w Hev Hdirs.
  { cbn. rewrite !app_nil_r. by destruct w. }
  cbn [for_each]. unfold mbind at 1, M_bind at 1.
  rewrite pose_body_run by done.
  rewrite IH; [| cbn [fs]; by do 2 apply item_write_evolves | done].
  cbn [fs console]. unfold poses_paths, poses_events.
  rewrite !bind_cons. cbn [poses_writes foldl]. by rewrite <- !app_assoc.
Qed.
End CharacterLoop.

Section CharacterClosedForm.
Context (generator : SpriteGenerator) (dir : path) (character_id : string).

Lemma poses_paths_evolves (m m' : gmap path FsEntry) (poses : list string) :
  evolves (length dir) m m' →
  poses_paths generator dir character_id m' poses
  = poses_paths generator dir character_id m poses.
Proof.
  intros Hev. unfold poses_paths, item_paths.
  induction poses as [| pose poses IH]; [done |].
  rewrite !bind_cons, IH. by rewrite !(item_outcome_evolves _ _ _ _ _ _ _ Hev).
Qed.

Lemma poses_events_evolves (m m' : gmap path FsEntry) (poses : list string) :
  evolves (length dir) m m' →
  poses_events generator dir character_id m' poses
  = poses_events generator dir character_id m poses.
Proof.
  intros Hev. unfold poses_events, item_events.
  induction poses as [| pose poses IH]; [done |].
  rewrite !bind_cons, IH. by rewrite !(item_outcome_evolves _ _ _ _ _ _ _ Hev).
Qed.

Lemma poses_writes_same (m m' : gmap path FsEntry) (poses : list string)
    (m1 : gmap path FsEntry) :
  evolves (length dir) m m' →
  poses_writes generator dir character_id m' poses m1
  = poses_writes generator dir character_id m poses m1.
Proof.
  intros Hev. unfold poses_writes, item_write. revert m1.
  induction poses as [| pose poses IH]; intros m1; [done |].
  cbn [foldl]. rewrite IH. by rewrite !(item_outcome_evolves _ _ _ _ _ _ _ Hev).
Qed.
End CharacterClosedForm.

Lemma with_dirs_creatable (m : gmap path FsEntry) (p : path) :
  creatable m p = true →
  makedirs_from [] p m = (Ok tt, with_dirs m p)
  ∧ dirs_exist (with_dirs m p) p = true
  ∧ evolves (length p) m (with_dirs m p).
Proof.
  intros Hc. unfold with_dirs.
  destruct (makedirs_from_creates m [] p Hc) as (m' & -> & Hd & Hev). done.
Qed.

(** ** [_generate_character_sprites], in closed form *)

Section CharacterSprites.
Context (self : BatchSpriteGenerator) (poses : list string) (config : SpriteConfig).
Context (character_id : string).

Local Abbreviation n := (length (asset_dir self) + 2)%nat.
Local Abbreviation dir := (char_dir self character_id).
Local Abbreviation generator := (SpriteGenerator_init config).

Lemma char_dir_length : length dir = n.
Proof. unfold char_dir. by rewrite length_app. Qed.

Lemma generate_character_sprites_run (m0 : gmap path FsEntry) (w : World) :
  evolves n m0 (fs w) → creatable m0 dir = true →
  _generate_character_sprites self character_id poses config w =
  (Ok (poses_paths generator dir character_id m0 poses),
   mkWorld (poses_writes generator dir character_id m0 poses (with_dirs (fs w) dir))
           (console w ++ poses_events generator dir character_id m0 poses))
  ∧ evolves n m0 (poses_writes generator dir character_id m0 poses (with_dirs (fs w) dir)).
Proof.
  intros Hev Hc.
  assert (Hc' : creatable (fs w) dir = true).
  { apply (creatable_from_evolves n m0); [done | | done].
    cbn [length]. by rewrite char_dir_length. }
  destruct (with_dirs_creatable _ _ Hc') as (Hrun & Hdirs & Hev1).
  rewrite char_dir_length in Hev1.
  assert (Hev01 : evolves n m0 (with_dirs (fs w) dir)) by (by eapply evolves_trans).
  unfold _generate_character_sprites. fold dir.
  unfold mbind at 1, M_bind at 1, makedirs, fs_op. rewrite Hrun.
  rewrite <- char_dir_length in Hev01.
  rewrite (pose_loop_run _ _ _ (with_dirs (fs w) dir)) by (done || apply evolves_refl).
  cbn [fs console].
  rewrite !(poses_paths_evolves _ _ _ _ _ _ Hev01).
  rewrite !(poses_events_evolves _ _ _ _ _ _ Hev01).
  rewrite !(poses_writes_same _ _ _ _ _ _ _ Hev01).
  split; [done |].
  rewrite <- char_dir_length.
  apply poses_writes_evolves. by rewrite char_dir_length in Hev01 |- *.
Qed.
End CharacterSprites.

(** ** The batch, in closed form *)

Lemma foldl_insert_lookup {V} (f : string → V) (l : list string) (m : gmap string V)
    (k : string) :
  foldl (λ r c, <[c := f c]> r) m l !! k =
  if decide (k ∈ l) then Some (f k) else m !! k.
Proof.
  revert m. induction l as [| c l IH]; intros m; cbn [foldl].
  { by rewrite decide_False by apply not_elem_of_nil. }
  rewrite IH. destruct (decide (k ∈ l)) as [Hin | Hout].
  - by rewrite decide_True by (by right).
  - destruct (decide (c = k)) as [-> | Hne].
    + rewrite lookup_insert_eq. by rewrite decide_True by (by left).
    + rewrite lookup_insert_ne by done.
      rewrite decide_False; [done |]. intros [-> | H]%elem_of_cons; done.
Qed.

Section BatchLoop.
Context (self : BatchSpriteGenerator) (poses : list string) (config : SpriteConfig).
Context (m0 : gmap path FsEntry).

Local Abbreviation n := (length (asset_dir self) + 2)%nat.

Lemma character_body_run (character_id : string) (results : gmap string (list string))
    (w : World) :
  evolves n m0 (fs w) → creatable m0 (char_dir self character_id) = true →
  batch_generator.character_body self poses config character_id results w =
  (Ok (<[character_id := character_paths self poses config m0 character_id]> results),
   mkWorld (character_writes self poses config m0 character_id (fs w))
           (console w ++ character_events self poses config m0 character_id))
  ∧ evolves n m0 (character_writes self poses config m0 character_id (fs w)).
Proof.
  intros Hev Hc.
  destruct (generate_character_sprites_run self poses (char_config config character_id)
              character_id m0
              (mkWorld (fs w) (console w ++ [ProcessingCharacter character_id])) Hev Hc)
    as [Hrun Hev'].
  split; [| done].
  unfold batch_generator.character_body, print. unfold mbind at 1, M_bind at 1.
  unfold mbind, M_bind.
  fold (char_config config character_id).
  rewrite Hrun. cbn [fs console mret M_ret]. unfold mret, M_ret, character_events.
  by rewrite <- app_assoc.
Qed.

Lemma character_loop_run (characters : list string) (results : gmap string (list string))
    (w : World) :
  evolves n m0 (fs w) →
  (∀ c, c ∈ characters → creatable m0 (char_dir self c) = true) →
  for_each characters (batch_generator.character_body self poses config) results w =
  (Ok (batch_results self poses config m0 characters results),
   mkWorld (batch_writes self poses config m0 characters (fs w))
           (console w ++ (characters ≫= character_events self poses config m0))).
Proof.
  revert results w. induction characters as [| c characters IH]; intros results w Hev Hc.
  { cbn. rewrite app_nil_r. by destruct w. }
  cbn [for_each]. unfold mbind at 1, M_bind at 1.
  destruct (character_body_run c results w Hev) as [-> Hev'].
  { apply Hc. by left. }
  rewrite IH; [| done | intros c' Hc'; apply Hc; by right].
  cbn [fs console]. rewrite bind_cons. by rewrite <- app_assoc.
Qed.

Lemma batch_results_lookup (characters : list string) (results : gmap string (list string))
    (c : string) :
  batch_results self poses config m0 characters results !! c =
  if decide (c ∈ characters)
  then Some (character_paths self poses config m0 c)
  else results !! c.
Proof. apply foldl_insert_lookup. Qed.
End BatchLoop.

(** ** Failures inside the batch *)

(** C8: when the sprite directories of the characters can be created, the
    batch returns a map with an entry for every character.  The entry lists,
    in loop order, the path of every (pose, tier) whose rendering and saving
    went through; an item that raised contributes no path, is printed as an
    error line, and does not stop the items after it. *)
Theorem batch_continues_past_item_failures (self : BatchSpriteGenerator)
    (characters : list string) (poses : option (list string))
    (config : option SpriteConfig) (w : World) :
  (∀ c, c ∈ characters → creatable (fs w) (char_dir self c) = true) →
  ∃ results w',
    generate_character_batch self characters poses config w = (Ok results, w')
    ∧ (∀ c, results !! c =
            if decide (c ∈ characters)
            then Some (character_paths self (resolved_poses poses)
                                       (resolved_config config) (fs w) c)
            else None)
    ∧ console w' =
        console w ++ BatchHeader (length characters) (resolved_poses poses)
          :: (characters ≫= character_events self (resolved_poses poses)
                                             (resolved_config config) (fs w))
    ∧ ∀ c pose enhanced, c ∈ characters → pose ∈ resolved_poses poses →
        match item_outcome (char_generator (resolved_config config) c)
                           (char_dir self c) c (fs w) pose enhanced with
        | Ok _ =>
            ∃ paths, results !! c = Some paths
                     ∧ path_str (out_path (char_dir self c) c pose enhanced) ∈ paths
        | Raise e =>
            ErrorGenerating (if enhanced then "enhanced" else "original") pose e
              ∈ console w'
        end.
Proof.
  intros Hc.
  unfold generate_character_batch. fold (resolved_poses poses) (resolved_config config).
  unfold print. unfold mbind at 1, M_bind at 1.
  rewrite (character_loop_run self _ _ (fs w)); [| apply evolves_refl | done].
  cbn [fs console]. do 2 eexists. split; [done |].
  split; [intros c; by rewrite batch_results_lookup |].
  split; [by rewrite <- app_assoc |].
  intros c pose enhanced Hin Hpose.
  destruct (item_outcome _ _ _ _ _ _) as [sprite | e] eqn:Hout.
  - eexists. split.
    { rewrite batch_results_lookup. by rewrite decide_True. }
    unfold character_paths, poses_paths. apply list_elem_of_bind.
    exists pose. split; [| done]. unfold item_paths.
    destruct enhanced; rewrite Hout; set_solver.
  - apply elem_of_app. right.
    apply list_elem_of_bind. exists c. split; [| done].
    unfold character_events. right. unfold poses_events. apply list_elem_of_bind.
    exists pose. split; [| done]. unfold item_events.
    destruct enhanced; rewrite Hout; set_solver.
Qed.

Lemma batch_continues_past_item_failures_witness :
  ∃ results w',
    generate_character_batch example_self ["ryu"; "ken"] (Some ["idle"; "walk"]) None
                             example_world = (Ok results, w')
    ∧ results !! "ryu" =
        Some ["proj/assets/sprites/street_fighter_6/ryu/sprites/ryu_idle_enhanced.png";
              "proj/assets/sprites/street_fighter_6/ryu/sprites/ryu_walk.png";
              "proj/assets/sprites/street_fighter_6/ryu/sprites/ryu_walk_enhanced.png"]
    ∧ results !! "ken" =
        Some ["proj/assets/sprites/street_fighter_6/ken/sprites/ken_idle.png";
              "proj/assets/sprites/street_fighter_6/ken/sprites/ken_idle_enhanced.png";
              "proj/assets/sprites/street_fighter_6/ken/sprites/ken_walk.png";
              "proj/assets/sprites/street_fighter_6/ken/sprites/ken_walk_enhanced.png"]
    ∧ ErrorGenerating "original" "idle"
        (IsADirectoryError (char_dir example_self "ryu" ++ ["ryu_idle.png"]))
        ∈ console w'.
Proof.
  destruct (batch_continues_past_item_failures example_self ["ryu"; "ken"]
              (Some ["idle"; "walk"]) None example_world)
    as (results & w' & Hrun & Hres & Hcons & Hitems).
  { intros c Hc.
    apply elem_of_cons in Hc as [-> | Hc]; [by vm_compute |].
    apply elem_of_cons in Hc as [-> | Hc]; [by vm_compute |].
    by apply elem_of_nil in Hc. }
  exists results, w'. split; [done |].
  split; [rewrite Hres; by vm_compute |].
  split; [rewrite Hres; by vm_compute |].
  specialize (Hitems "ryu" "idle" false).
  assert (Hout : item_outcome (char_generator (resolved_config None) "ryu")
                   (char_dir example_self "ryu") "ryu" (fs example_world) "idle" false
                 = Raise (IsADirectoryError (char_dir example_self "ryu" ++ ["ryu_idle.png"])))
    by (by vm_compute).
  rewrite Hout in Hitems. apply Hitems.
  - by left.
  - cbn. by left.
Defined.

(** A negative base width: every base render raises, every enhanced one is saved. *)
Example batch_skips_failed_renders :
  let config := mkSpriteConfig (-1) 96 256 384 1 "default" false "balanced" in
  let run := generate_character_batch example_self ["ryu"] (Some ["idle"]) (Some config)
                                      (mkWorld ∅ []) in
  (results ← run.1; mret (results !! "ryu"))
  = Ok (Some ["proj/assets/sprites/street_fighter_6/ryu/sprites/ryu_idle_enhanced.png"])
  ∧ console run.2
    = [BatchHeader 1 ["idle"]; ProcessingCharacter "ryu";
       ErrorGenerating "original" "idle" (ValueError "Width and height must be >= 0");
       Generated "ryu_idle_enhanced.png"].
Proof. by vm_compute. Qed.

(** ** Pose-name canonicalisation *)

Lemma sprite_filename_tiers (character_id pose_name : string) :
  sprite_filename character_id pose_name true ≠ sprite_filename character_id pose_name false.
Proof.
  unfold sprite_filename. intros H.
  do 3 apply (inj (String.app _)) in H. done.
Qed.

Lemma out_path_tiers (dir : path) (character_id pose : string) :
  out_path dir character_id pose true ≠ out_path dir character_id pose false.
Proof.
  unfold out_path. intros H. apply app_inv_head in H.
  injection H as H. by apply sprite_filename_tiers in H.
Qed.

Lemma last_pose_is_stored (generator : SpriteGenerator) (dir : path) (character_id : string)
    (m0 m : gmap path FsEntry) (poses : list string) (pose : string) (enhanced : bool)
    (sprite : Image) :
  item_outcome generator dir character_id m0 pose enhanced = Ok sprite →
  poses_writes generator dir character_id m0 (poses ++ [pose]) m
    !! out_path dir character_id pose enhanced = Some (ImageFile sprite).
Proof.
  intros Hout. unfold poses_writes. rewrite foldl_app. cbn [foldl].
  destruct enhanced.
  - unfold item_write at 1. rewrite Hout. apply lookup_insert_eq.
  - unfold item_write at 1.
    destruct (item_outcome generator dir character_id m0 pose true);
      [rewrite lookup_insert_ne by apply out_path_tiers |];
      unfold item_write at 1; rewrite Hout; apply lookup_insert_eq.
Qed.

(** C5: [_map_pose_name] sends punch, kick and special to the stem attack and
    leaves every other name as it is, so pose "punch" of "ryu" goes to
    ryu_attack.png and ryu_attack_enhanced.png.  Requests that share a stem
    share the path, and after the loop the file holds the sprite of the last
    pose requested. *)
Theorem pose_names_share_the_attack_stem (self : BatchSpriteGenerator)
    (character_id : string) (poses : list string) (pose : string)
    (config : SpriteConfig) (w : World) :
  creatable (fs w) (char_dir self character_id) = true →
  (_map_pose_name "punch" = "attack" ∧ _map_pose_name "kick" = "attack"
   ∧ _map_pose_name "special" = "attack")
  ∧ (pose ∉ ["punch"; "kick"; "special"] → _map_pose_name pose = pose)
  ∧ out_path (char_dir self "ryu") "ryu" "punch" false
      = asset_dir self ++ ["ryu"; "sprites"; "ryu_attack.png"]
  ∧ out_path (char_dir self "ryu") "ryu" "punch" true
      = asset_dir self ++ ["ryu"; "sprites"; "ryu_attack_enhanced.png"]
  ∧ (∀ other enhanced, _map_pose_name other = _map_pose_name pose →
       out_path (char_dir self character_id) character_id other enhanced
       = out_path (char_dir self character_id) character_id pose enhanced)
  ∧ ∃ paths w',
      _generate_character_sprites self character_id (poses ++ [pose]) config w
        = (Ok paths, w')
      ∧ ∀ enhanced sprite,
          item_outcome (SpriteGenerator_init config) (char_dir self character_id)
                       character_id (fs w) pose enhanced = Ok sprite →
          fs w' !! out_path (char_dir self character_id) character_id pose enhanced
            = Some (ImageFile sprite).
Proof.
  intros Hc.
  split; [done |].
  split; [intros H; unfold _map_pose_name; by apply dict_get_literal_absent |].
  split; [unfold out_path, char_dir; by rewrite <- app_assoc |].
  split; [unfold out_path, char_dir; by rewrite <- app_assoc |].
  split; [intros other enhanced H; unfold out_path; by rewrite H |].
  destruct (generate_character_sprites_run self (poses ++ [pose]) config character_id
              (fs w) w (evolves_refl _ _) Hc) as [Hrun _].
  do 2 eexists. split; [exact Hrun |].
  intros enhanced sprite Hout. cbn [fs]. by apply last_pose_is_stored.
Qed.

Lemma pose_names_share_the_attack_stem_witness :
  ∃ paths w' sprite,
    _generate_character_sprites example_self "ryu" (["punch"] ++ ["kick"])
                                SpriteConfig_default (mkWorld ∅ []) = (Ok paths, w')
    ∧ generate_character_sprite (SpriteGenerator_init SpriteConfig_default)
                                "ryu" "kick" false = Ok sprite
    ∧ fs w' !! out_path (char_dir example_self "ryu") "ryu" "kick" false
        = Some (ImageFile sprite)
    ∧ out_path (char_dir example_self "ryu") "ryu" "kick" false
        = ["proj"; "assets"; "sprites"; "street_fighter_6"; "ryu"; "sprites"; "ryu_attack.png"].
Proof.
  destruct (pose_names_share_the_attack_stem example_self "ryu" ["punch"] "kick"
              SpriteConfig_default (mkWorld ∅ []))
    as (_ & _ & _ & _ & _ & paths & w' & Hrun & Hlast); [by vm_compute |].
  eexists paths, w', _. split; [exact Hrun |].
  split; [by vm_compute |].
  split; [apply (Hlast false); by vm_compute | by vm_compute].
Defined.

(** The two poses of the witness do not draw the same sprite. *)
Example punch_and_kick_differ :
  generate_character_sprite (SpriteGenerator_init SpriteConfig_default) "ryu" "punch" false
  ≠ generate_character_sprite (SpriteGenerator_init SpriteConfig_default) "ryu" "kick" false.
Proof. by vm_compute. Qed.

(** ** Running generation again *)

Lemma makedirs_from_ok_dirs (m m' : gmap path FsEntry) (parent : path) (rest : list string) :
  makedirs_from parent rest m = (Ok tt, m') → dirs_exist_from m' parent rest = true.
Proof.
  revert parent m. induction rest as [| c rest IH]; intros parent m; cbn; [done |].
  rewrite entry_snoc.
  destruct (m !! (parent ++ [c])) as [[] |] eqn:E; try done.
  - intros Hrun. rewrite (IH _ _ Hrun), andb_true_r.
    destruct (makedirs_from_idem _ _ _ _ _ Hrun) as [Hkept _]. by rewrite (Hkept _ E).
  - intros Hrun. rewrite (IH _ _ Hrun), andb_true_r.
    destruct (makedirs_from_idem _ _ _ _ _ Hrun) as [Hkept _].
    by rewrite (Hkept _ (lookup_insert_eq _ _ _)).
Qed.

Lemma dirs_exist_insert_file (m : gmap path FsEntry) (p q : path) (img : Image) :
  entry m p ≠ Some Dir → dirs_exist m q = true →
  dirs_exist (<[p := ImageFile img]> m) q = true.
Proof.
  intros Hp. apply dirs_exist_from_kept. intros q' Hq'.
  destruct (decide (p = q')) as [<- | Hne]; [| by rewrite lookup_insert_ne].
  destruct p; [done |]. cbn in Hp. congruence.
Qed.

Lemma write_image_again (m : gmap path FsEntry) (sprite : Image) (p : path) :
  entry m (removelast p) = Some Dir → entry m p ≠ Some Dir →
  write_image sprite p (<[p := ImageFile sprite]> m)
  = (Ok tt, <[p := ImageFile sprite]> m).
Proof.
  intros Hparent Hp. destruct p as [| c p]; [done |].
  unfold write_image.
  assert (entry (<[c :: p := ImageFile sprite]> m) (removelast (c :: p)) = Some Dir) as ->.
  { destruct (removelast (c :: p)) as [| c' p'] eqn:E; [done |].
    cbn [entry] in *. destruct (decide (c :: p = c' :: p')) as [Heq | Hne].
    - rewrite <- Heq in Hparent. done.
    - by rewrite lookup_insert_ne. }
  cbn [entry]. rewrite lookup_insert_eq. by rewrite insert_insert_eq.
Qed.

Lemma save_sprite_fs (sprite : Image) (p : path) (w : World) :
  save_sprite sprite p w =
  ((save_fs sprite p (fs w)).1, mkWorld (save_fs sprite p (fs w)).2 (console w)).
Proof.
  unfold save_sprite, save_fs, makedirs, Image_save, fs_op, mbind, M_bind.
  destruct (makedirs_from [] (removelast p) (fs w)) as [[[] | e] m1]; cbn [fs console];
    [| done].
  by destruct (write_image sprite p m1).
Qed.

Lemma save_fs_idem (sprite : Image) (p : path) (m m' : gmap path FsEntry) (r : result unit) :
  save_fs sprite p m = (r, m') → save_fs sprite p m' = (r, m').
Proof.
  unfold save_fs.
  destruct (makedirs_from [] (removelast p) m) as [[[] | e] m1] eqn:Hmk.
  - pose proof (makedirs_from_ok_dirs _ _ _ _ Hmk) as Hdirs.
    pose proof (entry_dirs_exist _ _ Hdirs) as Hparent.
    unfold write_image at 1. rewrite Hparent.
    assert (entry m1 p = Some Dir ∨ entry m1 p ≠ Some Dir) as [Ep | Ep]
      by (destruct (entry m1 p) as [[] |]; auto).
    + rewrite Ep. intros [= <- <-].
      rewrite (makedirs_from_noop _ _ _ Hdirs).
      unfold write_image. by rewrite Hparent, Ep.
    + assert (Hw : (match entry m1 p with
                    | Some Dir => (Raise (IsADirectoryError p), m1)
                    | _ => (Ok tt, <[p := ImageFile sprite]> m1)
                    end) = (Ok tt, <[p := ImageFile sprite]> m1)).
      { by destruct (entry m1 p) as [[] |]. }
      rewrite Hw. intros [= <- <-].
      rewrite (makedirs_from_noop _ _ _ (dirs_exist_insert_file _ _ _ _ Ep Hdirs)).
      by rewrite write_image_again.
  - intros [= <- <-].
    destruct (makedirs_from_idem _ _ _ _ _ Hmk) as [_ ->]. done.
Qed.

(** One [try] block in terms of [save_fs]. *)
Lemma generate_one_fs (generator : SpriteGenerator) (dir : path)
    (character_id pose pose_name : string) (enhanced : bool) (paths : list string)
    (w : World) :
  let p := dir ++ [sprite_filename character_id pose_name enhanced] in
  generate_one generator dir character_id pose pose_name enhanced paths w =
  match generate_character_sprite generator character_id pose enhanced with
  | Raise e =>
      (Ok paths,
       mkWorld (fs w)
         (console w ++ [ErrorGenerating (if enhanced then "enhanced" else "original") pose e]))
  | Ok sprite =>
      match save_fs sprite p (fs w) with
      | (Ok _, m) =>
          (Ok (paths ++ [path_str p]), mkWorld m (console w ++ [Generated (path_name p)]))
      | (Raise e, m) =>
          (Ok paths,
           mkWorld m
             (console w ++ [ErrorGenerating (if enhanced then "enhanced" else "original") pose e]))
      end
  end.
Proof.
  intros p. unfold generate_one, try_except, lift, print.
  unfold mbind at 1, M_bind at 1.
  destruct (generate_character_sprite _ _ _ _) as [sprite | e]; [| done].
  fold p. unfold mbind at 1, M_bind at 1. rewrite save_sprite_fs.
  by destruct (save_fs sprite p (fs w)) as [[[] | e] m].
Qed.

(** ** The generator on its objects *)

Lemma G_bind_run {A B} (m : objects.G A) (f : A → objects.G B) (st : objects.Store) :
  (m ≫= f) st = match m st with
                | (Ok a, st') => f a st'
                | (Raise e, st') => (Raise e, st')
                end.
Proof. done. Qed.

Lemma G_bind_run' {A B} (m : objects.G A) (f : A → objects.G B) (st : objects.Store) :
  objects.G_bind A B f m st = match m st with
                              | (Ok a, st') => f a st'
                              | (Raise e, st') => (Raise e, st')
                              end.
Proof. done. Qed.

Lemma with_images_same (st : objects.Store) : with_images st (objects.images st) = st.
Proof. by destruct st. Qed.

Lemma alter_last {A} (f : A → A) (l : list A) (x : A) :
  alter f (length l) (l ++ [x]) = l ++ [f x].
Proof. induction l as [| y l IH]; [done |]. cbn. by rewrite IH. Qed.

Lemma draw_shapes_app (im : Image) (s1 s2 : list Shape) :
  draw_shapes (draw_shapes im s1) s2 = draw_shapes im (s1 ++ s2).
Proof. unfold draw_shapes. cbn. by rewrite fmap_app, app_assoc. Qed.

Section Drawing.
Context (st : objects.Store) (palette : string).
Hypothesis Hpalette : palette_ok (objects.palette_at st palette).

Local Abbreviation draw := (length (objects.images st)).
Local Abbreviation canvas im := (with_images st (objects.images st ++ [im])).

Lemma draw_rectangle_run (im : Image) (box : Box) (fill outline : option Color) :
  objects.draw_rectangle draw box fill outline (canvas im)
  = (Ok tt, canvas (draw_shapes im [Rectangle box fill outline])).
Proof.
  unfold objects.draw_rectangle, objects.update_image, objects.modify, with_images.
  cbn [objects.images objects.PALETTES_now objects.ARCHETYPES_now objects.self_config
       objects.self_palette objects.self_archetype objects.random_state].
  by rewrite alter_last.
Qed.

Lemma draw_ellipse_run (im : Image) (box : Box) (fill outline : option Color) :
  objects.draw_ellipse draw box fill outline (canvas im)
  = (Ok tt, canvas (draw_shapes im [Ellipse box fill outline])).
Proof.
  unfold objects.draw_ellipse, objects.update_image, objects.modify, with_images.
  cbn [objects.images objects.PALETTES_now objects.ARCHETYPES_now objects.self_config
       objects.self_palette objects.self_archetype objects.random_state].
  by rewrite alter_last.
Qed.

Lemma palette_get_run (im : Image) (part : string) (fallback : list Color) :
  objects.palette_get palette part fallback (canvas im)
  = (Ok (dict_get (objects.palette_at st palette) part fallback), canvas im).
Proof. done. Qed.

Lemma lift_result_run {A} (r : result A) (s : objects.Store) :
  objects.lift_result r s = (r, s).
Proof. done. Qed.

Lemma self_archetype_dict_run (im : Image) :
  objects.self_archetype_dict (canvas im)
  = (Ok (objects.archetype_at st (objects.self_archetype st)), canvas im).
Proof. done. Qed.

Ltac known_items :=
  repeat match goal with
         | H : item _ _ = Ok _ |- _ => rewrite H
         end.

Ltac step :=
  repeat first
    [ rewrite G_bind_run
    | rewrite G_bind_run'
    | rewrite palette_get_run
    | rewrite lift_result_run
    | rewrite draw_rectangle_run
    | rewrite draw_ellipse_run
    | rewrite self_archetype_dict_run
    | rewrite draw_shapes_app ];
  cbn [app].

Ltac run_objects := repeat (progress (run_result; step; known_items)).

Lemma objects_draw_legs_run (im : Image) (cx by_ w h : Z) (pose : string) (scale : Z) :
  ∃ shapes,
    _draw_legs (objects.palette_at st palette) cx by_ w h pose scale = Ok shapes
    ∧ objects._draw_legs draw palette cx by_ w h pose scale (canvas im)
      = (Ok tt, canvas (draw_shapes im shapes)).
Proof.
  unfold _draw_legs, objects._draw_legs. cbv zeta.
  first_colour Hpalette "gi_primary" (255, 255, 255) E1.
  first_colour Hpalette "outline" (0, 0, 0) E2.
  run_objects.
  repeat case_match; run_objects; eexists; split; reflexivity.
Qed.

Lemma objects_draw_torso_run (im : Image) (cx by_ w h : Z) (pose : string) (scale : Z) :
  ∃ shapes,
    _draw_torso (generator_of st) (objects.palette_at st palette) cx by_ w h pose scale
      = Ok shapes
    ∧ objects._draw_torso draw palette cx by_ w h pose scale (canvas im)
      = (Ok tt, canvas (draw_shapes im shapes)).
Proof.
  unfold _draw_torso, objects._draw_torso. cbv zeta.
  cbn [archetype_def generator_of].
  first_colour Hpalette "gi_primary" (255, 255, 255) E1.
  first_colour Hpalette "outline" (0, 0, 0) E2.
  first_colour Hpalette "belt" (139, 69, 19) E3.
  run_objects.
  destruct (String.eqb (muscle_definition _) "high").
  - case_bool_decide as Hlen.
    + destruct (item_second_ok _ Hlen) as [c4 E4]. run_objects.
      eexists. split; reflexivity.
    + run_objects. eexists. split; reflexivity.
  - eexists. split; reflexivity.
Qed.

Lemma objects_draw_head_run (im : Image) (cx by_ w h : Z) (pose : string) (scale : Z) :
  ∃ shapes,
    _draw_head (objects.palette_at st palette) cx by_ w h pose scale = Ok shapes
    ∧ objects._draw_head draw palette cx by_ w h pose scale (canvas im)
      = (Ok tt, canvas (draw_shapes im shapes)).
Proof.
  unfold _draw_head, objects._draw_head. cbv zeta.
  first_colour Hpalette "skin" (255, 220, 177) E1.
  first_colour Hpalette "outline" (0, 0, 0) E2.
  first_colour Hpalette "hair" (139, 69, 19) E3.
  first_colour Hpalette "eyes" (0, 100, 200) E4.
  run_objects. eexists. split; reflexivity.
Qed.

Lemma objects_draw_arms_run (im : Image) (cx cy : Z) (pose : string) (scale tw th : Z) :
  ∃ shapes,
    _draw_arms (objects.palette_at st palette) cx cy pose scale tw th = Ok shapes
    ∧ objects._draw_arms draw palette cx cy pose scale tw th (canvas im)
      = (Ok tt, canvas (draw_shapes im shapes)).
Proof.
  unfold _draw_arms, objects._draw_arms. cbv zeta.
  first_colour Hpalette "gi_primary" (255, 255, 255) E1.
  first_colour Hpalette "outline" (0, 0, 0) E2.
  first_colour Hpalette "skin" (255, 220, 177) E3.
  run_objects.
  repeat case_match; run_objects; eexists; split; reflexivity.
Qed.

Lemma objects_draw_character_run (im : Image) (pose : string) (w h scale : Z) :
  ∃ shapes,
    _draw_character (generator_of st) (objects.palette_at st palette) pose w h scale
      = Ok shapes
    ∧ objects._draw_character draw palette pose w h scale (canvas im)
      = (Ok tt, canvas (draw_shapes im shapes)).
Proof.
  unfold _draw_character, objects._draw_character. cbv zeta.
  cbn [archetype_def generator_of].
  rewrite G_bind_run, self_archetype_dict_run, G_bind_run, self_archetype_dict_run,
    G_bind_run.
  edestruct (objects_draw_legs_run im) as (s1 & -> & ->). run_result.
  rewrite G_bind_run, self_archetype_dict_run, G_bind_run.
  edestruct (objects_draw_torso_run (draw_shapes im s1)) as (s2 & H2 & ->).
  cbn [archetype_def generator_of] in H2. rewrite H2. run_result.
  rewrite G_bind_run.
  edestruct (objects_draw_head_run (draw_shapes (draw_shapes im s1) s2)) as (s3 & -> & ->).
  run_result.
  edestruct (objects_draw_arms_run (draw_shapes (draw_shapes (draw_shapes im s1) s2) s3))
    as (s4 & -> & ->).
  run_result. eexists. split; [reflexivity |].
  rewrite !draw_shapes_app. by rewrite <- ?app_assoc.
Qed.
End Drawing.

Lemma objects_get_palette_run (st : objects.Store) (name : string) :
  tables_intact st →
  ∃ key, objects.get_palette name st = (Ok key, st)
         ∧ objects.palette_at st key = get_palette name.
Proof.
  intros [HP _].
  unfold objects.get_palette, objects.table_get, objects.palette_at, get_palette, dict_get.
  rewrite G_bind_run. unfold objects.gets. rewrite HP, PALETTES_default.
  destruct (PALETTES !! name) as [p |] eqn:E.
  - exists name. by rewrite E.
  - exists "default". by rewrite PALETTES_default.
Qed.

Lemma objects_get_archetype_run (st : objects.Store) (name : string) :
  tables_intact st →
  ∃ key, objects.get_archetype name st = (Ok key, st)
         ∧ objects.archetype_at st key = get_archetype name.
Proof.
  intros [_ HA].
  unfold objects.get_archetype, objects.table_get, objects.archetype_at, get_archetype,
    dict_get.
  rewrite G_bind_run. unfold objects.gets. rewrite HA, ARCHETYPES_balanced.
  destruct (ARCHETYPES !! name) as [a |] eqn:E.
  - exists name. by rewrite E.
  - exists "balanced". by rewrite ARCHETYPES_balanced.
Qed.

(** The constructor sets the three attributes and touches nothing else. *)
Lemma objects_init_run (cfg : SpriteConfig) (st : objects.Store) :
  tables_intact st →
  ∃ st', objects.SpriteGenerator_init cfg st = (Ok tt, st')
         ∧ tables_intact st'
         ∧ generator_of st' = SpriteGenerator_init cfg
         ∧ objects.images st' = objects.images st
         ∧ objects.random_state st' = objects.random_state st.
Proof.
  intros Ht. unfold objects.SpriteGenerator_init.
  rewrite G_bind_run. unfold objects.modify at 1. rewrite G_bind_run.
  set (st1 := objects.mkStore _ _ cfg _ _ _ _).
  destruct (objects_get_palette_run st1 (palette_name cfg) Ht) as (kp & -> & Hp).
  rewrite G_bind_run. unfold objects.modify at 1. rewrite G_bind_run.
  set (st2 := objects.mkStore _ _ _ kp _ _ _).
  destruct (objects_get_archetype_run st2 (archetype cfg) Ht) as (ka & -> & Ha).
  unfold objects.modify. eexists. split; [reflexivity |].
  split; [exact Ht |]. split; [| done].
  unfold generator_of, SpriteGenerator_init. cbn. f_equal; [exact Hp | exact Ha].
Qed.

Lemma lookup_snoc {A} (l : list A) (x : A) : (l ++ [x]) !! length l = Some x.
Proof. induction l as [| y l IH]; [done | exact IH]. Qed.

(** [generate_character_sprite] for any generator object. *)
Lemma generate_character_sprite_any (self : SpriteGenerator) (character_id pose : string)
    (enhanced : bool) :
  let w := tier_width (config self) enhanced in
  let h := tier_height (config self) enhanced in
  ∃ shapes,
    _draw_character self (get_palette character_id) pose w h (tier_scale enhanced) = Ok shapes
    ∧ generate_character_sprite self character_id pose enhanced =
      if bool_decide (w < 0 ∨ h < 0)
      then Raise (ValueError "Width and height must be >= 0")
      else Ok (finish self (mkImage "RGBA" (w, h) (0, 0, 0, 0) (Draw <$> shapes))).
Proof.
  intros w h.
  destruct (_draw_character_ok self (get_palette character_id) pose w h (tier_scale enhanced))
    as [shapes Hs].
  { apply registry_palettes_ok, get_palette_registry. }
  exists shapes. split; [done |].
  unfold generate_character_sprite. rewrite char_palette_of_registry.
  subst w h. unfold tier_width, tier_height, tier_scale in *.
  destruct enhanced; unfold Image_new; cbn [fst snd] in *; cbv beta iota zeta;
    case_bool_decide; run_result; try done; rewrite Hs; run_result; done.
Qed.

Lemma objects_generate_closed (st : objects.Store) (character_id pose : string)
    (enhanced : bool) :
  tables_intact st →
  let w := tier_width (objects.self_config st) enhanced in
  let h := tier_height (objects.self_config st) enhanced in
  ∃ shapes,
    _draw_character (generator_of st) (get_palette character_id) pose w h
                    (tier_scale enhanced) = Ok shapes
    ∧ objects.generate_character_sprite character_id pose enhanced st =
      if bool_decide (w < 0 ∨ h < 0)
      then (Raise (ValueError "Width and height must be >= 0"), st)
      else
        let drawn := mkImage "RGBA" (w, h) (0, 0, 0, 0) (Draw <$> shapes) in
        (Ok (length (objects.images st ++ scratch_images (generator_of st) drawn)),
         with_images st (objects.images st ++ scratch_images (generator_of st) drawn
                         ++ [finish (generator_of st) drawn])).
Proof.
  intros Ht w h.
  set (blank := mkImage "RGBA" (w, h) (0, 0, 0, 0) []).
  destruct (objects_get_palette_run
              (with_images st (objects.images st ++ [blank])) character_id Ht)
    as (key & Hget & Hkey).
  change (objects.palette_at (with_images st (objects.images st ++ [blank])) key)
    with (objects.palette_at st key) in Hkey.
  destruct (objects_draw_character_run st key
              ltac:(rewrite Hkey; apply registry_palettes_ok, get_palette_registry)
              blank pose w h (tier_scale enhanced)) as (shapes & Hpure & Hrun).
  rewrite Hkey in Hpure. exists shapes. split; [exact Hpure |].
  unfold objects.generate_character_sprite.
  rewrite G_bind_run. unfold objects.gets at 1.
  assert (Hsizes :
    (if enhanced
     then (enhanced_width (objects.self_config st), enhanced_height (objects.self_config st), 4)
     else (width (objects.self_config st), height (objects.self_config st), 1))
    = (w, h, tier_scale enhanced)) by (by destruct enhanced).
  rewrite Hsizes. clear Hsizes.
  rewrite G_bind_run. unfold objects.Image_new. rewrite G_bind_run.
  unfold objects.lift_result at 1. unfold Image_new. cbn [fst snd].
  case_bool_decide as Hneg; [done |].
  unfold objects.allocate.
  change (objects.mkStore _ _ _ _ _ _ _)
    with (with_images st (objects.images st ++ [blank])).
  rewrite G_bind_run. unfold objects.ImageDraw_Draw at 1. unfold mret at 1, objects.G_ret at 1.
  rewrite G_bind_run, Hget.
  rewrite G_bind_run. unfold objects.palette_is_empty, objects.gets at 1.
  change (objects.palette_at (with_images st (objects.images st ++ [blank])) key)
    with (objects.palette_at st key).
  rewrite Hkey, (registry_palettes_truthy _ (get_palette_registry character_id)).
  cbn [negb]. rewrite G_bind_run. unfold mret at 1, objects.G_ret at 1.
  rewrite G_bind_run, Hrun.
  rewrite G_bind_run. unfold objects.gets at 1.
  change (objects.self_config (with_images st _)) with (objects.self_config st).
  assert (Hdrawn : draw_shapes blank shapes = mkImage "RGBA" (w, h) (0, 0, 0, 0) (Draw <$> shapes))
    by done.
  unfold scratch_images, finish. cbn [config generator_of].
  destruct (use_dithering (objects.self_config st)).
  - unfold objects._apply_dithering, _apply_dithering.
    rewrite G_bind_run. unfold objects.Image_quantize. rewrite G_bind_run.
    unfold objects.gets at 1, objects.image_at at 1, with_images at 1.
    cbn [objects.images]. rewrite lookup_snoc. cbn [default].
    unfold objects.allocate at 1. cbn [objects.images].
    unfold objects.Image_convert. rewrite G_bind_run.
    unfold objects.gets at 1, objects.image_at at 1. cbn [objects.images].
    rewrite lookup_snoc. cbn [default].
    unfold objects.allocate, with_images. cbn [objects.images objects.PALETTES_now
      objects.ARCHETYPES_now objects.self_config objects.self_palette
      objects.self_archetype objects.random_state].
    rewrite Hdrawn, <- !app_assoc, !length_app. cbn [length app].
    by do 2 f_equal.
  - rewrite Hdrawn, app_nil_r. done.
Qed.

Lemma same_objects_refl (st : objects.Store) : same_objects st st.
Proof. exists []. by rewrite app_nil_r, with_images_same. Qed.

Lemma same_objects_trans (st1 st2 st3 : objects.Store) :
  same_objects st1 st2 → same_objects st2 st3 → same_objects st1 st3.
Proof.
  intros [n1 ->] [n2 ->]. exists (n1 ++ n2). unfold with_images. cbn.
  by rewrite app_assoc.
Qed.

Lemma same_objects_kept (st st' : objects.Store) :
  same_objects st st' →
  (tables_intact st → tables_intact st') ∧ generator_of st' = generator_of st.
Proof. intros [new ->]. done. Qed.

(** A call changes no object: it only allocates images. *)
Lemma objects_generate_frame (st : objects.Store) (character_id pose : string)
    (enhanced : bool) :
  tables_intact st →
  same_objects st (objects.generate_character_sprite character_id pose enhanced st).2.
Proof.
  intros Ht.
  destruct (objects_generate_closed st character_id pose enhanced Ht) as (shapes & _ & ->).
  case_bool_decide; cbn [snd]; [apply same_objects_refl |].
  by eexists.
Qed.

Lemma after_calls_frame (calls : list Call) (st : objects.Store) :
  tables_intact st → same_objects st (after_calls calls st).
Proof.
  revert st. induction calls as [| c calls IH]; intros st Ht; [apply same_objects_refl |].
  cbn [after_calls foldl].
  pose proof (objects_generate_frame st c.1.1 c.1.2 c.2 Ht) as Hstep.
  eapply same_objects_trans; [exact Hstep |].
  apply IH. by apply (same_objects_kept _ _ Hstep).
Qed.

(** One call on a store whose tables are intact, in terms of the function
    of the first part applied to the generator of the store. *)
Lemma objects_generate_run (st : objects.Store) (character_id pose : string)
    (enhanced : bool) :
  tables_intact st →
  match generate_character_sprite (generator_of st) character_id pose enhanced with
  | Raise e =>
      objects.generate_character_sprite character_id pose enhanced st = (Raise e, st)
  | Ok sprite =>
      ∃ scratch,
        objects.generate_character_sprite character_id pose enhanced st
        = (Ok (length (objects.images st ++ scratch)),
           with_images st (objects.images st ++ scratch ++ [sprite]))
  end.
Proof.
  intros Ht.
  destruct (objects_generate_closed st character_id pose enhanced Ht) as (shapes & Hs & ->).
  destruct (generate_character_sprite_any (generator_of st) character_id pose enhanced)
    as (shapes' & Hs' & ->).
  cbn [config generator_of] in *. rewrite Hs in Hs'. injection Hs' as <-.
  case_bool_decide; [done |]. by eexists.
Qed.

(** C9: the generator has no hidden state.  On the objects of the program
    (the two class tables, the attributes of the generator, the state of the
    [random] module and the images allocated so far), after the constructor
    and any sequence of earlier calls, two calls of
    [generate_character_sprite] with the same arguments change none of these
    objects and only allocate new images; both raise the same exception, or
    they return two different image objects that hold the same image, with
    the same size and the same drawing history, which is the image the
    function of the configuration and the arguments gives.  Hence running a
    generate-and-save step again returns the same result and leaves the file
    system exactly as the first run left it. *)
Theorem regeneration_is_idempotent (cfg : SpriteConfig) (st0 : objects.Store)
    (earlier : list Call) (character_id pose : string) (enhanced : bool)
    (dir : path) (pose_name : string) (paths : list string) (w : World) :
  tables_intact st0 →
  let st := after_calls earlier (objects.SpriteGenerator_init cfg st0).2 in
  let first := objects.generate_character_sprite character_id pose enhanced st in
  let second := objects.generate_character_sprite character_id pose enhanced first.2 in
  let saved :=
    generate_one (SpriteGenerator_init cfg) dir character_id pose pose_name enhanced
                 paths w in
  let saved_again :=
    generate_one (SpriteGenerator_init cfg) dir character_id pose pose_name enhanced
                 paths saved.2 in
  same_objects st first.2
  ∧ same_objects first.2 second.2
  ∧ match generate_character_sprite (SpriteGenerator_init cfg) character_id pose enhanced with
    | Ok sprite =>
        ∃ i1 i2,
          first.1 = Ok i1 ∧ second.1 = Ok i2 ∧ i1 ≠ i2
          ∧ objects.images second.2 !! i1 = Some sprite
          ∧ objects.images second.2 !! i2 = Some sprite
    | Raise e => first.1 = Raise e ∧ second.1 = Raise e
    end
  ∧ saved_again.1 = saved.1
  ∧ fs saved_again.2 = fs saved.2.
Proof.
  intros Ht0 st first second saved saved_again.
  destruct (objects_init_run cfg st0 Ht0) as (st1 & Hinit & Ht1 & Hgen1 & _).
  assert (Hst : same_objects st1 st).
  { subst st. rewrite Hinit. by apply after_calls_frame. }
  destruct (same_objects_kept _ _ Hst) as [Ht Hgen]. specialize (Ht Ht1).
  rewrite Hgen1 in Hgen.
  pose proof (objects_generate_frame st character_id pose enhanced Ht) as Hframe1.
  fold first in Hframe1.
  destruct (same_objects_kept _ _ Hframe1) as [Ht' Hgen']. specialize (Ht' Ht).
  rewrite Hgen in Hgen'.
  pose proof (objects_generate_frame first.2 character_id pose enhanced Ht') as Hframe2.
  fold second in Hframe2.
  split; [done |]. split; [done |]. split.
  - pose proof (objects_generate_run st character_id pose enhanced Ht) as Hrun1.
    pose proof (objects_generate_run first.2 character_id pose enhanced Ht') as Hrun2.
    rewrite Hgen in Hrun1. rewrite Hgen' in Hrun2. fold first in Hrun1. fold second in Hrun2.
    destruct (generate_character_sprite (SpriteGenerator_init cfg) character_id pose enhanced)
      as [sprite | e].
    + destruct Hrun1 as [scratch1 Hrun1]. rewrite Hrun1 in Hrun2 |- *.
      destruct Hrun2 as [scratch2 Hrun2]. rewrite Hrun2.
      cbn [fst snd with_images objects.images].
      do 2 eexists. split; [reflexivity |]. split; [reflexivity |].
      split; [rewrite !length_app; cbn; lia |]. split.
      * rewrite (app_assoc _ scratch1 [sprite]).
        rewrite lookup_app_l by (rewrite !length_app; cbn; lia).
        apply lookup_snoc.
      * rewrite (app_assoc _ scratch2 [sprite]). apply lookup_snoc.
    + by rewrite Hrun2, Hrun1.
  - subst saved_again saved. rewrite !generate_one_fs.
    destruct (generate_character_sprite _ _ _ _) as [sprite | e]; [| done].
    destruct (save_fs sprite _ (fs w)) as [r m] eqn:Hsave.
    apply save_fs_idem in Hsave.
    destruct r as [[] | e]; cbn [fs snd fst]; rewrite Hsave; done.
Qed.

Lemma regeneration_is_idempotent_witness :
  let st := after_calls [("ken", "walk", true)]
              (objects.SpriteGenerator_init SpriteConfig_default (loaded_store 7)).2 in
  let first := objects.generate_character_sprite "ryu" "idle" false st in
  let second := objects.generate_character_sprite "ryu" "idle" false first.2 in
  tables_intact (loaded_store 7)
  ∧ ∃ sprite,
      first.1 = Ok 1%nat ∧ second.1 = Ok 2%nat
      ∧ objects.images second.2 !! 1%nat = Some sprite
      ∧ objects.images second.2 !! 2%nat = Some sprite
      ∧ size sprite = (64, 96).
Proof.
  intros st first second.
  assert (Ht : tables_intact (loaded_store 7)) by (split; reflexivity).
  split; [exact Ht |].
  destruct (regeneration_is_idempotent SpriteConfig_default (loaded_store 7)
              [("ken", "walk", true)] "ryu" "idle" false [] "idle" [] (mkWorld ∅ []) Ht)
    as (_ & _ & Hsame & _).
  fold st first second in Hsame.
  destruct (generate_character_sprite (SpriteGenerator_init SpriteConfig_default)
              "ryu" "idle" false) as [sprite | e] eqn:E; [| by vm_compute in E].
  destruct Hsame as (i1 & i2 & H1 & H2 & _ & Hi1 & Hi2).
  assert (E1 : first.1 = Ok 1%nat) by (by vm_compute).
  assert (E2 : second.1 = Ok 2%nat) by (by vm_compute).
  rewrite E1 in H1. rewrite E2 in H2. injection H1 as <-. injection H2 as <-.
  exists sprite.
  split; [exact E1 |]. split; [exact E2 |]. split; [exact Hi1 |]. split; [exact Hi2 |].
  vm_compute in E. injection E as <-. reflexivity.
Defined.

(** ** The validator *)

Section Validator.
Context (asset_dir : path) (m : gmap path FsEntry).

Lemma check_selected_run (pose : string) (p : path) (is_enhanced : bool) (w : World) :
  fs w = m →
  check_selected pose (Some (p, is_enhanced)) w =
  (Ok tt, mkWorld m (console w ++ [selected_line m pose p is_enhanced])).
Proof.
  intros Hm. unfold check_selected, selected_line, try_except, Image_open_size, fs_op,
    print, mbind, M_bind. rewrite Hm.
  destruct (entry m p) as [[| img |] |]; cbn [fs console]; try done.
  destruct (size img) as [width height] eqn:Hs. cbn [fst snd].
  unfold expected_size, quality_of.
  destruct is_enhanced; repeat case_bool_decide; simplify_eq/=; try done.
Qed.

Local Ltac tally :=
  repeat case_decide; try done;
  unfold mret, M_ret; cbn [length app Z.of_nat Pos.of_succ_nat];
  rewrite ?Z.add_0_r, ?app_nil_r; reflexivity.

Lemma validate_pose_run (character pose : string) (c : Counters) (r : CharResults) (w : World) :
  fs w = m →
  validate.pose_body asset_dir character pose (c, r) w =
  (Ok (counters_after asset_dir m character [pose] c, results_after asset_dir m character [pose] r),
   mkWorld m (console w ++ [pose_line asset_dir m character pose])).
Proof.
  intros Hm. unfold validate.pose_body.
  fold (enhanced_path asset_dir character pose) (original_path asset_dir character pose).
  unfold select_sprite, exists_, fs_op. unfold mbind at 1 2 3, M_bind at 1 2 3.
  cbn [fs console total_sprites loaded_sprites enhanced_sprites mret M_ret].
  unfold counters_after, results_after, count_tier, pose_line, tier_of, present.
  rewrite Hm.
  destruct (bool_decide (is_Some (entry m (enhanced_path asset_dir character pose)))) eqn:He.
  - unfold mret at 1, M_ret at 1, mbind, M_bind. cbn [fst snd fallback_tier].
    rewrite check_selected_run by done.
    rewrite !filter_cons, !filter_nil. unfold tier_of, present. rewrite He.
    cbn. destruct c, r; cbn. rewrite app_nil_r.
    tally.
  - unfold mbind at 1, M_bind at 1. cbn [fs console].
    destruct (bool_decide (is_Some (entry m (original_path asset_dir character pose)))) eqn:Ho.
    + unfold mret at 1, M_ret at 1, mbind, M_bind. cbn [fst snd fallback_tier].
      rewrite check_selected_run by done.
      rewrite !filter_cons, !filter_nil. unfold tier_of, present. rewrite He, Ho.
      cbn. destruct c, r; cbn. rewrite app_nil_r.
      tally.
    + unfold mret at 1, M_ret at 1, mbind, M_bind. cbn [fst snd fallback_tier].
      unfold check_selected, print. cbn [fs console].
      rewrite !filter_cons, !filter_nil. unfold tier_of, present. rewrite He, Ho.
      cbn. destruct c, r; cbn. rewrite ?Hm.
      tally.
Qed.
End Validator.

Section ValidatorLoops.
Context (asset_dir : path) (m : gmap path FsEntry).

Lemma counters_after_cons (character pose : string) (l : list string) (c : Counters) :
  counters_after asset_dir m character l (counters_after asset_dir m character [pose] c)
  = counters_after asset_dir m character (pose :: l) c.
Proof.
  unfold counters_after, count_tier. cbn [total_sprites loaded_sprites enhanced_sprites].
  rewrite !filter_cons, !filter_nil.
  repeat case_decide; try congruence; cbn [length]; f_equal; lia.
Qed.

Lemma results_after_cons (character pose : string) (l : list string) (r : CharResults) :
  results_after asset_dir m character l (results_after asset_dir m character [pose] r)
  = results_after asset_dir m character (pose :: l) r.
Proof.
  unfold results_after, count_tier. cbn [original enhanced missing].
  rewrite !filter_cons, !filter_nil.
  repeat case_decide; try congruence; cbn [length]; rewrite <- ?app_assoc; f_equal; lia.
Qed.

Lemma validate_pose_loop_run (character : string) (l : list string) (c : Counters)
    (r : CharResults) (w : World) :
  fs w = m →
  for_each l (validate.pose_body asset_dir character) (c, r) w =
  (Ok (counters_after asset_dir m character l c, results_after asset_dir m character l r),
   mkWorld m (console w ++ (pose_line asset_dir m character <$> l))).
Proof.
  revert c r w. induction l as [| pose l IH]; intros c r w Hm.
  { cbn. unfold counters_after, results_after, count_tier. cbn.
    rewrite !Z.add_0_r, !app_nil_r. destruct c, r, w. cbn in *. by subst. }
  cbn [for_each]. unfold mbind at 1, M_bind at 1.
  rewrite (validate_pose_run asset_dir m) by done.
  rewrite IH by done. cbn [fs console].
  rewrite counters_after_cons, results_after_cons, fmap_cons.
  by rewrite <- app_assoc.
Qed.

Lemma validate_character_run (character : string) (c : Counters)
    (results : gmap string CharResults) (w : World) :
  fs w = m →
  validate.character_body asset_dir character (c, results) w =
  (Ok (counters_after asset_dir m character poses c,
       <[character := char_results asset_dir m character]> results),
   mkWorld m (console w ++ char_report asset_dir m character)).
Proof.
  intros Hm. unfold validate.character_body, print.
  unfold mbind at 1, M_bind at 1. unfold mbind at 1, M_bind at 1.
  rewrite validate_pose_loop_run by done.
  cbn [fs console fst snd]. unfold mret, M_ret, char_report.
  by rewrite <- app_assoc.
Qed.

Lemma validate_character_loop_run (chs : list string) (c : Counters)
    (results : gmap string CharResults) (w : World) :
  fs w = m →
  for_each chs (validate.character_body asset_dir) (c, results) w =
  (Ok (counters_total asset_dir m chs c, results_total asset_dir m chs results),
   mkWorld m (console w ++ (chs ≫= char_report asset_dir m))).
Proof.
  revert c results w. induction chs as [| ch chs IH]; intros c results w Hm.
  { cbn. rewrite app_nil_r. destruct w. cbn in *. by subst. }
  cbn [for_each]. unfold mbind at 1, M_bind at 1.
  rewrite validate_character_run by done.
  rewrite IH by done. cbn [fs console]. rewrite bind_cons.
  by rewrite <- app_assoc.
Qed.
End ValidatorLoops.


(** Both tiers on disk: the enhanced one is taken. *)
Example both_tiers_select_enhanced :
  let m : gmap path FsEntry :=
    {[ enhanced_path ["proj"] "ryu" "idle" := ImageFile (mkImage "RGBA" (256, 384) (0, 0, 0, 0) []);
       original_path ["proj"] "ryu" "idle" := ImageFile (mkImage "RGBA" (64, 96) (0, 0, 0, 0) []) ]} in
  validate.pose_body ["proj"] "ryu" "idle" (mkCounters 0 0 0, mkCharResults 0 0 [])
                     (mkWorld m [])
  = (Ok (mkCounters 1 1 1, mkCharResults 0 1 []),
     mkWorld m [SpriteValid "idle" "ENHANCED" 256 384]).
Proof. by vm_compute. Qed.

(** The default batch for the validator's six characters passes validation. *)
Example generated_batch_validates :
  let generated :=
    generate_character_batch example_self validate.characters None None (mkWorld ∅ []) in
  (validate_sprite_system ["proj"] (mkWorld (fs generated.2) [])).1 = Ok true.
Proof. by vm_compute. Qed.

(** C3, as amended: when the selected file opens as an image, the validator
    compares its size with the fixed size of the tier, 256 x 384 for enhanced
    and 64 x 96 for base (the sizes of the default configuration), prints a
    size-mismatch line when they differ, and in both cases counts the file as
    found and not as missing. *)
Theorem validator_compares_with_fixed_sizes (asset_dir : path) (character pose : string)
    (is_enhanced : bool) (img : Image) (c : Counters) (r : CharResults) (w : World) :
  entry (fs w) (tier_path asset_dir character pose is_enhanced) = Some (ImageFile img) →
  (is_enhanced = false → entry (fs w) (enhanced_path asset_dir character pose) = None) →
  validate.pose_body asset_dir character pose (c, r) w =
    (Ok (mkCounters (total_sprites c + 1) (loaded_sprites c + 1)
                    (enhanced_sprites c + (if is_enhanced then 1 else 0)),
         mkCharResults (original r + (if is_enhanced then 0 else 1))
                       (enhanced r + (if is_enhanced then 1 else 0))
                       (missing r)),
     mkWorld (fs w)
       (console w ++
        [if bool_decide (size img = expected_size is_enhanced)
         then SpriteValid pose (quality_of is_enhanced) (size img).1 (size img).2
         else SizeMismatch pose (quality_of is_enhanced) (size img).1 (size img).2
                           (expected_size is_enhanced).1 (expected_size is_enhanced).2]))
  ∧ expected_size is_enhanced = configured_size SpriteConfig_default is_enhanced.
Proof.
  intros Hsel Hnone. split; [| by destruct is_enhanced].
  rewrite (validate_pose_run asset_dir (fs w)) by done.
  unfold counters_after, results_after, count_tier, pose_line, tier_of, present.
  rewrite !filter_cons, !filter_nil. unfold tier_of, present.
  destruct is_enhanced; cbn [tier_path] in Hsel.
  - rewrite Hsel. rewrite bool_decide_eq_true_2 by eauto.
    cbn [fallback_tier]. unfold selected_line. rewrite Hsel.
    repeat case_decide; try done; cbn [length app];
      rewrite ?Z.add_0_r, ?app_nil_r; reflexivity.
  - rewrite (Hnone eq_refl), Hsel.
    rewrite bool_decide_eq_false_2 by (by intros [? ?]).
    rewrite bool_decide_eq_true_2 by eauto.
    cbn [fallback_tier]. unfold selected_line. rewrite Hsel.
    repeat case_decide; try done; cbn [length app];
      rewrite ?Z.add_0_r, ?app_nil_r; reflexivity.
Qed.

Lemma validator_compares_with_fixed_sizes_witness :
  validate.pose_body ["proj"] "ryu" "idle" (mkCounters 0 0 0, mkCharResults 0 0 []) small_world
  = (Ok (mkCounters 1 1 0, mkCharResults 1 0 []),
     mkWorld (fs small_world) [SizeMismatch "idle" "Original" 32 48 64 96])
  ∧ expected_size false = configured_size SpriteConfig_default false.
Proof.
  apply (validator_compares_with_fixed_sizes ["proj"] "ryu" "idle" false small_sprite
           (mkCounters 0 0 0) (mkCharResults 0 0 []) small_world).
  - by vm_compute.
  - intros _. by vm_compute.
Defined.

(** C3 as the design document states it, with the sizes taken from the
    configuration the sprite was generated with, fails: the 32 x 48 base
    sprite generated under a 32 x 48 configuration is reported as a size
    mismatch against 64 x 96. *)
Lemma validator_ignores_the_configuration :
  ¬ (∀ (cfg : SpriteConfig) (asset_dir : path) (character pose : string)
       (is_enhanced : bool) (img : Image) (c : Counters) (r : CharResults) (w : World),
       generate_character_sprite (SpriteGenerator_init cfg) character pose is_enhanced
         = Ok img →
       entry (fs w) (tier_path asset_dir character pose is_enhanced) = Some (ImageFile img) →
       (is_enhanced = false → entry (fs w) (enhanced_path asset_dir character pose) = None) →
       validate.pose_body asset_dir character pose (c, r) w =
         (Ok (mkCounters (total_sprites c + 1) (loaded_sprites c + 1)
                         (enhanced_sprites c + (if is_enhanced then 1 else 0)),
              mkCharResults (original r + (if is_enhanced then 0 else 1))
                            (enhanced r + (if is_enhanced then 1 else 0))
                            (missing r)),
          mkWorld (fs w)
            (console w ++
             [if bool_decide (size img = configured_size cfg is_enhanced)
              then SpriteValid pose (quality_of is_enhanced) (size img).1 (size img).2
              else SizeMismatch pose (quality_of is_enhanced) (size img).1 (size img).2
                                (configured_size cfg is_enhanced).1
                                (configured_size cfg is_enhanced).2]))).
Proof.
  intros H.
  specialize (H small_config ["proj"] "ryu" "idle" false small_sprite
                (mkCounters 0 0 0) (mkCharResults 0 0 []) small_world).
  assert (Hrun : validate.pose_body ["proj"] "ryu" "idle"
                   (mkCounters 0 0 0, mkCharResults 0 0 []) small_world
                 = (Ok (mkCounters 1 1 0, mkCharResults 1 0 []),
                    mkWorld (fs small_world) [SizeMismatch "idle" "Original" 32 48 64 96]))
    by (by vm_compute).
  rewrite Hrun in H.
  specialize (H ltac:(by vm_compute) ltac:(by vm_compute) ltac:(intros _; by vm_compute)).
  vm_compute in H. discriminate H.
Qed.

(** * Further properties of the code *)

(** ** What a sprite depends on *)


Lemma outside_vocabulary_tests (pose : string) :
  pose ∉ pose_vocabulary →
  String.eqb pose "kick" = false ∧ String.eqb pose "jump" = false
  ∧ String.eqb pose "punch" = false ∧ String.eqb pose "special" = false.
Proof.
  intros H. repeat split; apply String.eqb_neq; intros ->; apply H;
    unfold pose_vocabulary; set_solver.
Qed.

(** A pose name outside the six names of the pose tables, such as the "attack"
    of the batch's default poses or a misspelt name, is drawn exactly like
    "idle": no lean, standing legs, arms at the sides. *)
Theorem unknown_pose_is_drawn_as_idle (self : SpriteGenerator)
    (character_id pose : string) (enhanced : bool) :
  pose ∉ pose_vocabulary →
  generate_character_sprite self character_id pose enhanced
  = generate_character_sprite self character_id "idle" enhanced.
Proof.
  intros Hout. destruct (outside_vocabulary_tests pose Hout) as (Hk & Hj & Hp & Hs).
  unfold generate_character_sprite.
  assert (Hdraw : ∀ palette w h scale,
            _draw_character self palette pose w h scale
            = _draw_character self palette "idle" w h scale).
  { intros palette w h scale. unfold _draw_character, _draw_legs, _draw_arms.
    rewrite (body_lean_unknown pose scale Hout), Hk, Hj, Hp, Hs. reflexivity. }
  destruct enhanced; cbv beta iota zeta; by rewrite Hdraw.
Qed.

Lemma unknown_pose_is_drawn_as_idle_witness :
  generate_character_sprite (SpriteGenerator_init SpriteConfig_default) "ryu" "attack" true
  = generate_character_sprite (SpriteGenerator_init SpriteConfig_default) "ryu" "idle" true.
Proof.
  apply unknown_pose_is_drawn_as_idle.
  unfold pose_vocabulary. intros H.
  repeat (apply elem_of_cons in H as [H | H]; [discriminate H |]).
  by apply elem_of_nil in H.
Defined.

Lemma rectangle_eq (a b c d a' b' c' d' : Z) (fill outline : option Color) :
  a = a' → b = b' → c = c' → d = d' →
  Rectangle (a, b, c, d) fill outline = Rectangle (a', b', c', d') fill outline.
Proof. congruence. Qed.

Lemma ellipse_eq (a b c d a' b' c' d' : Z) (fill outline : option Color) :
  a = a' → b = b' → c = c' → d = d' →
  Ellipse (a, b, c, d) fill outline = Ellipse (a', b', c', d') fill outline.
Proof. congruence. Qed.

Ltac shifted_shapes :=
  cbv zeta; unfold mbind, mret, result_bind, result_ret;
  repeat match goal with
  | |- context [item ?l ?i] => destruct (item l i); [| reflexivity]
  end;
  repeat case_match; try reflexivity;
  cbn [result_map fmap list_fmap shift_shape app];
  apply (f_equal Ok);
  repeat (apply (f_equal2 cons);
          [first [apply rectangle_eq | apply ellipse_eq]; lia |]);
  reflexivity.

Lemma _draw_legs_shift (p : Palette) (cx dx by_ w h : Z) (pose : string) (scale : Z) :
  _draw_legs p (cx + dx) by_ w h pose scale
  = result_map (fmap (shift_shape dx)) (_draw_legs p cx by_ w h pose scale).
Proof. unfold _draw_legs. shifted_shapes. Qed.

Lemma _draw_torso_shift (self : SpriteGenerator) (p : Palette) (cx dx by_ w h : Z)
    (pose : string) (scale : Z) :
  _draw_torso self p (cx + dx) by_ w h pose scale
  = result_map (fmap (shift_shape dx)) (_draw_torso self p cx by_ w h pose scale).
Proof. unfold _draw_torso. shifted_shapes. Qed.

Lemma _draw_head_shift (p : Palette) (cx dx by_ w h : Z) (pose : string) (scale : Z) :
  _draw_head p (cx + dx) by_ w h pose scale
  = result_map (fmap (shift_shape dx)) (_draw_head p cx by_ w h pose scale).
Proof. unfold _draw_head. shifted_shapes. Qed.

Lemma _draw_arms_shift (p : Palette) (cx dx cy : Z) (pose : string) (scale tw th : Z) :
  _draw_arms p (cx + dx) cy pose scale tw th
  = result_map (fmap (shift_shape dx)) (_draw_arms p cx cy pose scale tw th).
Proof. unfold _draw_arms. shifted_shapes. Qed.

Lemma _draw_character_walk (self : SpriteGenerator) (p : Palette) (w h scale : Z) :
  _draw_character self p "walk" w h scale
  = result_map (fmap (shift_shape scale)) (_draw_character self p "idle" w h scale).
Proof.
  unfold _draw_character. cbv zeta.
  destruct (body_lean_rows scale) as (Eidle & Ewalk & _). rewrite Eidle, Ewalk.
  replace (w / 2 + 1 * scale) with (w / 2 + 0 + scale) by lia.
  rewrite _draw_legs_shift, _draw_torso_shift, _draw_head_shift, _draw_arms_shift.
  change (_draw_legs p (w / 2 + 0) ?a ?b ?c "walk" scale)
    with (_draw_legs p (w / 2 + 0) a b c "idle" scale).
  change (_draw_arms p (w / 2 + 0) ?a "walk" scale ?b ?c)
    with (_draw_arms p (w / 2 + 0) a "idle" scale b c).
  unfold mbind, mret, result_bind, result_ret.
  destruct (_draw_legs _ _ _ _ _ _ _) as [s1 |]; [| done].
  destruct (_draw_torso _ _ _ _ _ _ _ _) as [s2 |]; [| done].
  destruct (_draw_head _ _ _ _ _ _ _) as [s3 |]; [| done].
  destruct (_draw_arms _ _ _ _ _ _ _) as [s4 |]; [| done].
  cbn [result_map]. by rewrite !fmap_app.
Qed.

Lemma finish_shift (self : SpriteGenerator) (dx : Z) (im : Image) :
  finish self (shift_image dx im) = shift_image dx (finish self im).
Proof.
  unfold finish, _apply_dithering, quantize, convert, shift_image.
  destruct (use_dithering _); cbn [mode size background history]; [| done].
  by rewrite !fmap_app.
Qed.

(** The walk sprite is the idle sprite moved to the right by the body lean of
    "walk", one pixel per unit of scale: every part is placed on the same
    leaning centre line. *)
Theorem walk_is_idle_moved_right (self : SpriteGenerator) (character_id : string)
    (enhanced : bool) :
  generate_character_sprite self character_id "walk" enhanced
  = result_map (shift_image (tier_scale enhanced))
               (generate_character_sprite self character_id "idle" enhanced).
Proof.
  destruct (generate_character_sprite_any self character_id "idle" enhanced)
    as (idle & Hidle & ->).
  destruct (generate_character_sprite_any self character_id "walk" enhanced)
    as (walk & Hwalk & ->).
  rewrite _draw_character_walk, Hidle in Hwalk. injection Hwalk as <-.
  case_bool_decide; [done |]. cbn [result_map]. f_equal.
  rewrite <- finish_shift. f_equal. unfold shift_image. cbn [mode size background history].
  f_equal. rewrite <- !list_fmap_compose. done.
Qed.

(** The sprite depends on the generator only through the canvas sizes, the
    dithering flag, the three proportions, whether the body type is "heavy"
    and whether the muscle definition is "high".  The palette held by the
    generator, the configured palette and archetype names, the stance and the
    other body types change nothing. *)
Theorem sprite_ignores_stance_and_configured_palette (self1 self2 : SpriteGenerator)
    (character_id pose : string) (enhanced : bool) :
  width (config self1) = width (config self2) →
  height (config self1) = height (config self2) →
  enhanced_width (config self1) = enhanced_width (config self2) →
  enhanced_height (config self1) = enhanced_height (config self2) →
  use_dithering (config self1) = use_dithering (config self2) →
  proportions (archetype_def self1) = proportions (archetype_def self2) →
  String.eqb (body_type (archetype_def self1)) "heavy"
    = String.eqb (body_type (archetype_def self2)) "heavy" →
  String.eqb (muscle_definition (archetype_def self1)) "high"
    = String.eqb (muscle_definition (archetype_def self2)) "high" →
  generate_character_sprite self1 character_id pose enhanced
  = generate_character_sprite self2 character_id pose enhanced.
Proof.
  intros Hw Hh Hew Heh Hd Hp Hb Hm.
  unfold generate_character_sprite. rewrite !char_palette_of_registry.
  rewrite Hw, Hh, Hew, Heh, Hd.
  assert (Hdraw : ∀ w h scale,
            _draw_character self1 (get_palette character_id) pose w h scale
            = _draw_character self2 (get_palette character_id) pose w h scale).
  { intros w h scale. unfold _draw_character, _draw_torso. by rewrite Hp, Hb, Hm. }
  destruct enhanced; cbv beta iota zeta; by rewrite Hdraw.
Qed.

Lemma sprite_ignores_stance_and_configured_palette_witness :
  generate_character_sprite
    (mkSpriteGenerator (mkSpriteConfig 64 96 256 384 1 "sagat" false "zoner") palette_sagat
       (mkArchetype "tall" "defensive" (mkProportions 13 42 45) "medium"))
    "akuma" "kick" false
  = generate_character_sprite
      (mkSpriteGenerator (mkSpriteConfig 64 96 256 384 7 "ken" false "other") palette_ken
         (mkArchetype "lean" "forward" (mkProportions 13 42 45) "low"))
      "akuma" "kick" false.
Proof. by apply sprite_ignores_stance_and_configured_palette. Defined.

(** ** Where the head is drawn *)

Lemma get_archetype_values (name : string) :
  proportions (get_archetype name)
  ∈ [mkProportions 12 45 43; mkProportions 11 44 45; mkProportions 10 50 40;
     mkProportions 13 42 45; mkProportions 12 43 45].
Proof.
  unfold get_archetype, dict_get.
  destruct (ARCHETYPES !! name) as [a |] eqn:E; cbn [default]; [| vm_compute; set_solver].
  apply (elem_of_list_to_map_2 (M := gmap string)) in E.
  repeat (apply elem_of_cons in E; destruct E as [E | E];
          [ injection E as _ ->; cbn [proportions]; set_solver | ]).
  by apply elem_of_nil in E.
Qed.

(** The three body parts fill the whole canvas height, up to two pixels of
    rounding. *)
Lemma body_fills_the_height (name : string) (h : Z) :
  0 ≤ h →
  h - 2 ≤ int_mul h (legs (proportions (get_archetype name)))
          + int_mul h (torso (proportions (get_archetype name)))
          + int_mul h (head (proportions (get_archetype name))) ≤ h.
Proof.
  intros Hh. pose proof (get_archetype_values name) as H.
  unfold int_mul. rewrite !Z.quot_div_nonneg.
  - repeat (apply elem_of_cons in H; destruct H as [-> | H];
            [cbn [legs torso head]; Z.div_mod_to_equations; lia |]).
    by apply elem_of_nil in H.
  - repeat (apply elem_of_cons in H; destruct H as [-> | H]; [cbn [head]; lia |]).
    by apply elem_of_nil in H.
  - lia.
  - repeat (apply elem_of_cons in H; destruct H as [-> | H]; [cbn [torso]; lia |]).
    by apply elem_of_nil in H.
  - lia.
  - repeat (apply elem_of_cons in H; destruct H as [-> | H]; [cbn [legs]; lia |]).
    by apply elem_of_nil in H.
  - lia.
Qed.

Lemma head_ellipse_is_drawn (self : SpriteGenerator) (p : Palette) (pose : string)
    (w h scale : Z) (shapes : list Shape) :
  _draw_character self p pose w h scale = Ok shapes →
  ∃ fill outline,
    Ellipse (head_box self pose w h scale) (Some fill) (Some outline) ∈ shapes.
Proof.
  intros H. unfold _draw_character in H. cbv zeta in H.
  unfold mbind, mret, result_bind, result_ret in H.
  destruct (_draw_legs _ _ _ _ _ _ _) as [s1 |]; [| discriminate H].
  destruct (_draw_torso _ _ _ _ _ _ _ _) as [s2 |]; [| discriminate H].
  destruct (_draw_head _ _ _ _ _ _ _) as [s3 |] eqn:E3; [| discriminate H].
  destruct (_draw_arms _ _ _ _ _ _ _) as [s4 |]; [| discriminate H].
  injection H as <-.
  unfold _draw_head in E3. run_drawing E3.
  do 2 eexists. rewrite !elem_of_app. right. right. left.
  unfold head_box. cbv zeta. by left.
Qed.

Lemma history_finish (self : SpriteGenerator) (img : Image) (op : ImageOp) :
  op ∈ history img → op ∈ history (finish self img).
Proof.
  intros H. unfold finish, _apply_dithering, quantize, convert.
  destruct (use_dithering (config self)); cbn [history]; rewrite ?elem_of_app; auto.
Qed.

(** The head is drawn partly above the canvas: the head ellipse of every
    generated sprite starts between 5 x scale and 5 x scale - 2 pixels above
    the top edge (row 0), because the three body parts already take the whole
    height below the bottom margin. *)
Theorem head_starts_above_the_canvas (cfg : SpriteConfig) (character_id pose : string)
    (enhanced : bool) (sprite : Image) :
  generate_character_sprite (SpriteGenerator_init cfg) character_id pose enhanced
    = Ok sprite →
  ∃ x0 y0 x1 y1 fill outline,
    head_box (SpriteGenerator_init cfg) pose (tier_width cfg enhanced)
             (tier_height cfg enhanced) (tier_scale enhanced) = (x0, y0, x1, y1)
    ∧ Draw (Ellipse (x0, y0, x1, y1) (Some fill) (Some outline)) ∈ history sprite
    ∧ -5 * tier_scale enhanced ≤ y0 ≤ 2 - 5 * tier_scale enhanced
    ∧ y0 < 0.
Proof.
  destruct (generate_character_sprite_any (SpriteGenerator_init cfg) character_id pose enhanced)
    as (shapes & Hs & ->).
  cbn [config SpriteGenerator_init] in *.
  case_bool_decide as Hneg; [done |]. intros [= <-].
  destruct (head_ellipse_is_drawn _ _ _ _ _ _ _ Hs) as (fill & outline & Hin).
  pose proof (body_fills_the_height (archetype cfg) (tier_height cfg enhanced)) as Hfill.
  destruct (head_box _ _ _ _ _) as [[[x0 y0] x1] y1] eqn:Hbox.
  exists x0, y0, x1, y1, fill, outline. split; [reflexivity |]. split.
  - apply history_finish. cbn [history]. by apply list_elem_of_fmap_2.
  - unfold head_box in Hbox. cbv zeta in Hbox.
    cbn [archetype_def SpriteGenerator_init] in Hbox.
    injection Hbox as _ <- _ _.
    assert (0 ≤ tier_height cfg enhanced) by lia.
    destruct enhanced; cbn [tier_scale] in *; lia.
Qed.

Lemma head_starts_above_the_canvas_witness :
  ∃ sprite fill outline,
    generate_character_sprite (SpriteGenerator_init SpriteConfig_default) "ryu" "idle" false
      = Ok sprite
    ∧ Draw (Ellipse (28, -4, 36, 7) (Some fill) (Some outline)) ∈ history sprite.
Proof.
  destruct (generate_character_sprite_any (SpriteGenerator_init SpriteConfig_default)
              "ryu" "idle" false) as (shapes & _ & Hgen).
  eexists (finish _ _).
  destruct (head_starts_above_the_canvas SpriteConfig_default "ryu" "idle" false _ Hgen)
    as (x0 & y0 & x1 & y1 & fill & outline & Hbox & Hin & _).
  vm_compute in Hbox. injection Hbox as <- <- <- <-.
  exists fill, outline. split; [exact Hgen | exact Hin].
Defined.

(** ** Palettes *)

(** Whatever name is asked for, the palette returned colours all seven body
    parts with three shades each, so the per-part default colours written in
    the drawing methods are never used. *)
Theorem every_palette_is_complete (name : string) :
  Forall (λ part, ∃ a b c, get_palette name !! part = Some [a; b; c]) body_parts.
Proof.
  pose proof (get_palette_registry name) as H. unfold registry_palettes in H.
  repeat (apply elem_of_cons in H; destruct H as [-> | H];
          [repeat constructor; do 3 eexists; by vm_compute |]).
  by apply elem_of_nil in H.
Qed.

Lemma generated_boxes_ordered_witness :
  ∃ sprite,
    generate_character_sprite (SpriteGenerator_init SpriteConfig_default) "zangief" "kick" true
      = Ok sprite
    ∧ Forall op_ordered (history sprite).
Proof.
  eexists. split; [by vm_compute |].
  exact (generated_boxes_ordered SpriteConfig_default "zangief" "kick" true _ eq_refl).
Defined.

(** ** Saving a sprite *)

(** Whatever its outcome, [makedirs] only adds directories, and only at
    paths no longer than the one asked for. *)
Lemma makedirs_from_adds_dirs (m m' : gmap path FsEntry) (parent : path) (rest : list string)
    (r : result unit) :
  makedirs_from parent rest m = (r, m') →
  ∀ q, m' !! q = m !! q
       ∨ (m !! q = None ∧ m' !! q = Some Dir
          ∧ (length q ≤ length parent + length rest)%nat).
Proof.
  revert parent m. induction rest as [| c rest IH]; intros parent m; cbn.
  { intros [= <- <-] q. by left. }
  rewrite entry_snoc.
  assert (Hlen : (length (parent ++ [c]) + length rest = length parent + S (length rest))%nat).
  { rewrite length_app. cbn. lia. }
  destruct (m !! (parent ++ [c])) as [[] |] eqn:E.
  - intros Hrun q. destruct (IH _ _ Hrun q) as [H | (H1 & H2 & H3)]; [by left |].
    right. rewrite <- Hlen. done.
  - intros [= <- <-] q. by left.
  - intros [= <- <-] q. by left.
  - intros Hrun q. specialize (IH _ _ Hrun q). rewrite Hlen in IH.
    destruct (decide (parent ++ [c] = q)) as [<- | Hne].
    + rewrite lookup_insert_eq in IH. right. rewrite E.
      assert (Hq : (length (parent ++ [c]) ≤ length parent + S (length rest))%nat)
        by (rewrite length_app; cbn; lia).
      destruct IH as [H | (H & _)]; [done | done].
    + rewrite lookup_insert_ne in IH by done. done.
Qed.

Lemma creatable_from_insert_free (m : gmap path FsEntry) (p parent : path) (rest : list string) :
  m !! p = None →
  creatable_from (<[p := Dir]> m) parent rest = creatable_from m parent rest.
Proof.
  intros Hp. revert parent. induction rest as [| c rest IH]; intros parent; cbn; [done |].
  rewrite IH. f_equal.
  destruct (decide (p = parent ++ [c])) as [<- | Hne].
  - by rewrite lookup_insert_eq, Hp.
  - by rewrite lookup_insert_ne.
Qed.

Lemma makedirs_from_raises (m : gmap path FsEntry) (parent : path) (rest : list string) :
  creatable_from m parent rest = false →
  ∃ e m', makedirs_from parent rest m = (Raise e, m')
          ∧ ∃ p, e = FileExistsError p ∨ e = NotADirectoryError p.
Proof.
  revert parent m. induction rest as [| c rest IH]; intros parent m; cbn; [done |].
  rewrite entry_snoc.
  destruct (m !! (parent ++ [c])) as [[] |] eqn:E; cbn.
  - apply IH.
  - intros _. do 2 eexists. split; [done |]. destruct rest; eauto.
  - intros _. do 2 eexists. split; [done |]. destruct rest; eauto.
  - intros H. apply IH. by rewrite creatable_from_insert_free.
Qed.

Lemma length_removelast_lt (p : path) : p ≠ [] → (length (removelast p) < length p)%nat.
Proof.
  intros Hp. rewrite (app_removelast_last "" Hp) at 2. rewrite length_app. cbn. lia.
Qed.

Lemma save_fs_cases (sprite : Image) (p : path) (m : gmap path FsEntry) :
  ∃ r m',
    save_fs sprite p m = (r, m')
    ∧ (∀ q, q ≠ p →
         m' !! q = m !! q
         ∨ (m !! q = None ∧ m' !! q = Some Dir ∧ (length q < length p)%nat))
    ∧ if creatable m (removelast p) && negb (is_dir (entry m p))
      then r = Ok tt
           ∧ dirs_exist m' (removelast p) = true
           ∧ m' !! p = Some (ImageFile sprite)
      else (∃ e, r = Raise e) ∧ m' !! p = m !! p.
Proof.
  unfold save_fs.
  destruct (makedirs_from [] (removelast p) m) as [r1 m1] eqn:Hmk.
  pose proof (makedirs_from_adds_dirs _ _ _ _ _ Hmk) as Hadds.
  assert (Hsame : p ≠ [] → m1 !! p = m !! p).
  { intros Hp. destruct (Hadds p) as [H | (_ & _ & H)]; [done |].
    apply length_removelast_lt in Hp. cbn in H. lia. }
  assert (Hothers : ∀ q, m1 !! q = m !! q
                         ∨ (m !! q = None ∧ m1 !! q = Some Dir ∧ (length q < length p)%nat)).
  { intros q. destruct (Hadds q) as [H | (H1 & H2 & H3)]; [by left |].
    right. split; [done |]. split; [done |].
    destruct (decide (p = [])) as [-> | Hp].
    - cbn in Hmk. injection Hmk as _ <-. congruence.
    - apply length_removelast_lt in Hp. cbn in H3. lia. }
  destruct (creatable m (removelast p)) eqn:Hc; cbn [andb].
  - destruct (makedirs_from_creates _ _ _ Hc) as (m1' & Hrun & Hdirs & _).
    rewrite Hmk in Hrun. injection Hrun as -> <-.
    pose proof (entry_dirs_exist _ _ Hdirs) as Hparent.
    unfold write_image. rewrite Hparent.
    destruct p as [| c p'].
    { cbn [entry is_dir negb fst snd]. do 2 eexists. split; [done |].
      split; [intros q _; apply Hothers |]. split; [by eauto |].
      cbn in Hmk. by injection Hmk as <-. }
    specialize (Hsame ltac:(done)). cbn [entry]. rewrite Hsame.
    assert (Hfile : ∀ e, m !! (c :: p') ≠ Some Dir →
              (∀ q, q ≠ c :: p' →
                 <[c :: p' := e]> m1 !! q = m !! q
                 ∨ (m !! q = None ∧ <[c :: p' := e]> m1 !! q = Some Dir
                    ∧ (length q < length (c :: p'))%nat))
              ∧ dirs_exist (<[c :: p' := ImageFile sprite]> m1) (removelast (c :: p')) = true
              ∧ <[c :: p' := ImageFile sprite]> m1 !! (c :: p') = Some (ImageFile sprite)).
    { intros e E. split; [| split].
      - intros q Hq. rewrite lookup_insert_ne by done. apply Hothers.
      - apply dirs_exist_insert_file; [| done]. cbn [entry]. by rewrite Hsame.
      - by rewrite lookup_insert_eq. }
    destruct (m !! (c :: p')) as [[| img |] |] eqn:E; cbn [is_dir negb fst snd].
    + do 2 eexists. split; [done |]. split; [intros q _; apply Hothers |].
      split; [by eauto | done].
    + destruct (Hfile (ImageFile sprite)) as (H1 & H2 & H3); [done |].
      do 2 eexists. split; [done |]. done.
    + destruct (Hfile (ImageFile sprite)) as (H1 & H2 & H3); [done |].
      do 2 eexists. split; [done |]. done.
    + destruct (Hfile (ImageFile sprite)) as (H1 & H2 & H3); [done |].
      do 2 eexists. split; [done |]. done.
  - assert (creatable_from m [] (removelast p) = false) as Hc' by done.
    destruct (makedirs_from_raises _ _ _ Hc') as (e & m1' & Hrun & _).
    rewrite Hmk in Hrun. injection Hrun as Hr Hm. subst r1 m1'. cbn [fst snd].
    do 2 eexists. split; [done |]. split; [intros q _; apply Hothers |].
    split; [by eauto |].
    destruct p as [| c p']; [| by apply Hsame].
    by cbn in Hc'.
Qed.



(** ** The batch and its configuration *)

Lemma for_each_ext {A S} (l : list A) (f g : A → S → M S) (s : S) (w : World) :
  (∀ x s w, f x s w = g x s w) → for_each l f s w = for_each l g s w.
Proof.
  intros Hfg. revert s w. induction l as [| x l IH]; intros s w; cbn [for_each]; [done |].
  unfold mbind, M_bind. rewrite Hfg. destruct (g x s w) as [[s' | e] w']; [apply IH | done].
Qed.

(** Of the configuration passed to [generate_character_batch] only the four
    sizes and the dithering flag are used: the palette name, the archetype
    and the frame count are replaced for every character, so two
    configurations that agree on the sizes and the flag give the same run. *)
Theorem batch_ignores_palette_and_archetype (self : BatchSpriteGenerator)
    (characters : list string) (poses : option (list string)) (cfg1 cfg2 : SpriteConfig)
    (w : World) :
  width cfg1 = width cfg2 →
  height cfg1 = height cfg2 →
  enhanced_width cfg1 = enhanced_width cfg2 →
  enhanced_height cfg1 = enhanced_height cfg2 →
  use_dithering cfg1 = use_dithering cfg2 →
  generate_character_batch self characters poses (Some cfg1) w
  = generate_character_batch self characters poses (Some cfg2) w.
Proof.
  intros Hw Hh Hew Heh Hd.
  unfold generate_character_batch. cbn [default].
  unfold mbind, M_bind, print.
  apply for_each_ext. intros c results w'.
  unfold batch_generator.character_body, id. by rewrite Hw, Hh, Hew, Heh, Hd.
Qed.

Lemma batch_ignores_palette_and_archetype_witness :
  generate_character_batch example_self ["ryu"; "akuma"] None
    (Some (mkSpriteConfig 64 96 256 384 1 "ken" true "grappler")) (mkWorld ∅ [])
  = generate_character_batch example_self ["ryu"; "akuma"] None
      (Some (mkSpriteConfig 64 96 256 384 8 "sagat" true "zoner")) (mkWorld ∅ []).
Proof. by apply batch_ignores_palette_and_archetype. Defined.

(** ** The verdict of the validator *)

Lemma bind_run {A B} (m : M A) (f : A → M B) (w : World) :
  (m ≫= f) w = match m w with
               | (Ok a, w') => f a w'
               | (Raise e, w') => (Raise e, w')
               end.
Proof. done. Qed.

Lemma ret_run {A} (a : A) (w : World) : (mret a : M A) w = (Ok a, w).
Proof. done. Qed.

Lemma exists_run (p : path) (w : World) : exists_ p w = (Ok (present (fs w) p), w).
Proof. by destruct w. Qed.

Lemma print_run (ev : Event) (w : World) :
  print ev w = (Ok tt, mkWorld (fs w) (console w ++ [ev])).
Proof. done. Qed.

Section Verdict.
Context (asset_dir : path) (m : gmap path FsEntry).

Lemma counters_after_one (character pose : string) (c : Counters) :
  counters_after asset_dir m character [pose] c =
  mkCounters (total_sprites c + 1)
    (loaded_sprites c + if found asset_dir m character pose then 1 else 0)
    (enhanced_sprites c + if present m (enhanced_path asset_dir character pose) then 1 else 0).
Proof.
  unfold counters_after, count_tier, found, tier_of, fallback_tier.
  rewrite !filter_cons, !filter_nil.
  destruct (present m (enhanced_path asset_dir character pose));
    destruct (present m (original_path asset_dir character pose));
    repeat case_decide; try done; cbn; f_equal; lia.
Qed.

Lemma counters_after_nil (character : string) (c : Counters) :
  counters_after asset_dir m character [] c = c.
Proof.
  unfold counters_after, count_tier. cbn. rewrite !Z.add_0_r. by destruct c.
Qed.

Lemma counters_after_loaded (character : string) (l : list string) (c : Counters) :
  loaded_sprites c ≤ total_sprites c →
  loaded_sprites (counters_after asset_dir m character l c)
    ≤ total_sprites (counters_after asset_dir m character l c)
  ∧ (loaded_sprites (counters_after asset_dir m character l c)
       = total_sprites (counters_after asset_dir m character l c)
     ↔ loaded_sprites c = total_sprites c
       ∧ forallb (found asset_dir m character) l = true).
Proof.
  revert c. induction l as [| pose l IH]; intros c Hc.
  { rewrite counters_after_nil. cbn. intuition. }
  rewrite <- counters_after_cons, counters_after_one.
  set (c1 := mkCounters _ _ _).
  assert (Hc1 : loaded_sprites c1 ≤ total_sprites c1).
  { subst c1. cbn. destruct (found asset_dir m character pose); lia. }
  destruct (IH c1 Hc1) as [Hle Hiff]. split; [done |].
  rewrite Hiff. subst c1. cbn [loaded_sprites total_sprites forallb].
  destruct (found asset_dir m character pose); cbn [andb]; split; intros [H1 H2];
    try (split; [lia | done]); try done; lia.
Qed.

Lemma counters_total_loaded (chs : list string) (c : Counters) :
  loaded_sprites c ≤ total_sprites c →
  (loaded_sprites (counters_total asset_dir m chs c)
     = total_sprites (counters_total asset_dir m chs c)
   ↔ loaded_sprites c = total_sprites c
     ∧ forallb (λ character, forallb (found asset_dir m character) poses) chs = true).
Proof.
  revert c. induction chs as [| ch chs IH]; intros c Hc.
  { cbn. intuition. }
  cbn [counters_total foldl forallb].
  change (foldl _ ?c0 chs) with (counters_total asset_dir m chs c0).
  destruct (counters_after_loaded ch poses c Hc) as [Hle Hiff].
  rewrite (IH _ Hle), Hiff, andb_true_iff. intuition.
Qed.

Lemma print_summary_loop_run (results : gmap string CharResults) (chs : list string)
    (w : World) :
  ∃ out, for_each chs (print_summary results) tt w
         = (Ok tt, mkWorld (fs w) (console w ++ out)).
Proof.
  revert w. induction chs as [| ch chs IH]; intros w.
  { exists []. cbn. rewrite app_nil_r. by destruct w. }
  cbn [for_each]. unfold mbind at 1, M_bind at 1. unfold print_summary at 1.
  unfold print, mret, M_ret.
  destruct (results !! ch) as [r |].
  - destruct (IH (mkWorld (fs w) (console w ++
        [CharacterSummary ch (enhanced r) (original r) (Z.of_nat (length (missing r)))])))
      as [out Hout].
    rewrite Hout. cbn [fs console]. eexists. by rewrite <- app_assoc.
  - destruct (IH w) as [out Hout]. rewrite Hout. by eexists.
Qed.
End Verdict.

Lemma validate_sprite_system_run (project_root : path) (w : World) :
  let asset_dir := project_root ++ ["assets"; "sprites"; "street_fighter_6"] in
  ∃ out,
    validate_sprite_system project_root w
    = (Ok (present (fs w) asset_dir && all_found asset_dir (fs w)),
       mkWorld (fs w) (console w ++ out)).
Proof.
  intros asset_dir. unfold validate_sprite_system. fold asset_dir.
  unfold mbind at 1, M_bind at 1. unfold exists_ at 1, fs_op at 1. cbn [fs console].
  fold (present (fs w) asset_dir).
  destruct (present (fs w) asset_dir); cbn [negb andb].
  { unfold validate_loops, mbind at 1, M_bind at 1.
    rewrite (validate_character_loop_run asset_dir (fs w)) by (by destruct w).
    set (c := counters_total asset_dir (fs w) characters (mkCounters 0 0 0)).
    set (results := results_total asset_dir (fs w) characters ∅).
    assert (Hiff : loaded_sprites c = total_sprites c ↔ all_found asset_dir (fs w) = true).
    { subst c. rewrite counters_total_loaded by (cbn; lia). unfold all_found.
      cbn [loaded_sprites total_sprites]. intuition. }
    unfold mbind at 1, M_bind at 1. rewrite print_run. cbn [fs console].
    unfold mbind at 1, M_bind at 1.
    destruct (print_summary_loop_run results characters
                (mkWorld (fs w) ((console w ++ (characters ≫= char_report asset_dir (fs w)))
                   ++ [Totals (total_sprites c) (loaded_sprites c) (enhanced_sprites c)])))
      as [out Hout].
    cbn [fs console] in Hout. rewrite Hout.
    destruct (all_found asset_dir (fs w)).
    - assert (Hl : loaded_sprites c = total_sprites c) by (by apply Hiff).
      rewrite (bool_decide_eq_true_2 _ Hl). cbn [andb].
      destruct (bool_decide (enhanced_sprites c = total_sprites c));
        unfold mbind, M_bind; rewrite print_run;
        unfold mret, M_ret; cbn [fs console]; rewrite <- !app_assoc; by eexists.
    - assert (Hl : loaded_sprites c ≠ total_sprites c).
      { intros Hl. by apply Hiff in Hl. }
      rewrite (bool_decide_eq_false_2 _ Hl). cbn [andb].
      unfold mbind, M_bind; rewrite print_run;
        unfold mret, M_ret; cbn [fs console]; rewrite <- !app_assoc; by eexists. }
  unfold mbind, M_bind. rewrite print_run. unfold mret, M_ret. by eexists.
Qed.

(** [validate_sprite_system] never raises and never changes the file
    system, and what it returns depends on which paths exist only: it is
    True exactly when the sprites directory exists and each of the 24
    character-and-pose pairs of its tables has its enhanced or its base path
    on disk.  A sprite of the wrong size, a file that is no image and even a
    directory in the place of a sprite only change the printed lines. *)
Theorem validator_verdict_counts_paths_only (project_root : path) (w : World) :
  let asset_dir := project_root ++ ["assets"; "sprites"; "street_fighter_6"] in
  ∃ out,
    validate_sprite_system project_root w
    = (Ok (present (fs w) asset_dir && all_found asset_dir (fs w)),
       mkWorld (fs w) (console w ++ out)).
Proof. apply validate_sprite_system_run. Qed.

Example str_replace_examples :
  str_replace "ryu_idle.png" ".png" "_enhanced.png" = "ryu_idle_enhanced.png"
  ∧ str_replace "a.png.png" ".png" "_x" = "a_x_x"
  ∧ str_replace "aaa" "aa" "b" = "ba"
  ∧ str_in "ryu_jump.png" "proj/ryu/sprites/ryu_ryu_jump.png" = true
  ∧ str_in "ryu_idle.png" "proj/ryu/sprites/ryu_idle_enhanced.png" = false.
Proof. by vm_compute. Qed.

(** ** Detection of the project root *)

Lemma prefix_snoc_cases {A} (q l : list A) (x : A) :
  q `prefix_of` l ++ [x] → q = l ++ [x] ∨ q `prefix_of` l.
Proof.
  intros [k Hk]. destruct k as [| y k _] using rev_ind.
  - left. by rewrite app_nil_r in Hk.
  - right. rewrite app_assoc in Hk. apply app_inj_tail in Hk as [-> _]. by exists k.
Qed.

Lemma removelast_ne (p : path) : p ≠ [] → p ≠ removelast p.
Proof.
  intros Hp Heq. apply length_removelast_lt in Hp. rewrite <- Heq in Hp. lia.
Qed.

Lemma find_project_root_run (rounds : nat) (current : path) (w : World) :
  (length current ≤ rounds)%nat →
  ∃ r, find_project_root rounds current w = (Ok r, w)
       ∧ match r with
         | Some root =>
             root ≠ [] ∧ root `prefix_of` current
             ∧ present (fs w) (root ++ ["project.godot"]) = true
             ∧ ∀ q, root `prefix_of` q → q `prefix_of` current → q ≠ root →
                    present (fs w) (q ++ ["project.godot"]) = false
         | None =>
             ∀ q, q ≠ [] → q `prefix_of` current →
                  present (fs w) (q ++ ["project.godot"]) = false
         end.
Proof.
  revert current. induction rounds as [| rounds IH]; intros current Hlen.
  { destruct current; [| cbn in Hlen; lia]. exists None. split; [done |].
    intros q Hq Hpre. apply prefix_nil_inv in Hpre. done. }
  cbn [find_project_root].
  destruct (decide (current = [])) as [-> | Hne].
  { exists None. split; [done |]. intros q Hq Hpre. apply prefix_nil_inv in Hpre. done. }
  rewrite (bool_decide_eq_true_2 _ (removelast_ne _ Hne)).
  unfold mbind at 1, M_bind at 1, exists_, fs_op. cbn [fs console].
  fold (present (fs w) (current ++ ["project.godot"])).
  assert (Hw : mkWorld (fs w) (console w) = w) by (by destruct w). rewrite Hw.
  pose proof (app_removelast_last "" Hne) as Hsplit.
  destruct (present (fs w) (current ++ ["project.godot"])) eqn:Hmark.
  - exists (Some current). split; [done |]. split; [done |]. split; [done |].
    split; [done |]. intros q H1 H2 Hq. destruct Hq. by apply (anti_symm prefix).
  - destruct (IH (removelast current)) as (r & Hrun & Hr).
    { apply length_removelast_lt in Hne. lia. }
    exists r. split; [done |]. destruct r as [root |].
    + destruct Hr as (H1 & H2 & H3 & H4). split; [done |]. split.
      { rewrite Hsplit. by apply prefix_app_r. }
      split; [done |]. intros q Hq1 Hq2 Hq3.
      rewrite Hsplit in Hq2. apply prefix_snoc_cases in Hq2 as [-> | Hq2].
      * by rewrite <- Hsplit.
      * by apply H4.
    + intros q Hq1 Hq2.
      rewrite Hsplit in Hq2. apply prefix_snoc_cases in Hq2 as [-> | Hq2].
      * by rewrite <- Hsplit.
      * by apply Hr.
Qed.

(** With no root given, [BatchSpriteGenerator] takes the nearest directory
    at or above the one of its module that holds a [project.godot]; the root
    of the file system is never tried.  When there is none it takes the
    third parent of the module file.  Nothing is changed or printed. *)
Theorem project_root_is_nearest_marked_ancestor (file : path) (w : World) :
  ∃ root,
    BatchSpriteGenerator_new file None w = (Ok (BatchSpriteGenerator_init root), w)
    ∧ ((root ≠ [] ∧ root `prefix_of` removelast file
        ∧ present (fs w) (root ++ ["project.godot"]) = true
        ∧ ∀ q, root `prefix_of` q → q `prefix_of` removelast file → q ≠ root →
               present (fs w) (q ++ ["project.godot"]) = false)
       ∨ (root = removelast (removelast (removelast file))
          ∧ ∀ q, q ≠ [] → q `prefix_of` removelast file →
                 present (fs w) (q ++ ["project.godot"]) = false)).
Proof.
  unfold BatchSpriteGenerator_new.
  destruct (find_project_root_run (length (removelast file)) (removelast file) w)
    as (r & Hrun & Hr); [done |].
  unfold mbind, M_bind. rewrite Hrun.
  destruct r as [root |]; unfold mret, M_ret; eexists; (split; [done |]); auto.
Qed.

(** A marker at the root of the file system is not seen. *)
Example marker_at_the_root_is_not_seen :
  (BatchSpriteGenerator_new ["tools"; "sprite_generator"; "batch_generator.py"] None
     (mkWorld {[ ["project.godot"] := OtherFile ]} [])).1
  = Ok (BatchSpriteGenerator_init []).
Proof. by vm_compute. Qed.

(** ** The characters of a project *)

Lemma elem_of_children (m : gmap path FsEntry) (d p : path) :
  p ∈ children m d ↔ ∃ name, p = d ++ [name] ∧ is_Some (m !! p).
Proof.
  unfold children. rewrite list_elem_of_filter, list_elem_of_fmap. split.
  - intros (Hp & [q e] & -> & Hin). apply elem_of_map_to_list in Hin.
    exists (path_name q). cbn in *. split; [done |]. by exists e.
  - intros (name & -> & [e He]). split.
    + unfold path_name. by rewrite last_last.
    + exists (d ++ [name], e). split; [done |]. by apply elem_of_map_to_list.
Qed.

Lemma NoDup_children (m : gmap path FsEntry) (d : path) : NoDup (children m d).
Proof. apply NoDup_filter, NoDup_fst_map_to_list. Qed.

Lemma existing_body_run (p : path) (characters : list string) (w : World) :
  existing_body p characters w
  = (Ok (if visible_dir (fs w) p then characters ++ [path_name p] else characters), w).
Proof.
  unfold existing_body, Path_is_dir, fs_op, mbind, M_bind, visible_dir, is_dir.
  destruct w as [m out]. cbn [fs console].
  destruct (entry m p) as [[] |]; cbn [andb]; try done.
  by destruct (String.prefix "." (path_name p)).
Qed.

Lemma existing_loop_run (items : list path) (characters : list string) (w : World) :
  for_each items existing_body characters w
  = (Ok (characters
         ++ (path_name <$> filter (λ p, visible_dir (fs w) p = true) items)), w).
Proof.
  revert characters. induction items as [| p items IH]; intros characters.
  { cbn. by rewrite app_nil_r. }
  cbn [for_each]. unfold mbind, M_bind. rewrite existing_body_run, IH, filter_cons.
  destruct (visible_dir (fs w) p).
  - rewrite decide_True by done. by rewrite fmap_cons, <- app_assoc.
  - by rewrite decide_False by done.
Qed.

Lemma str_le_total : Total str_le.
Proof. intros a b. apply String.leb_total. Qed.

Lemma existing_characters_listing (self : BatchSpriteGenerator) (w : World) :
  entry (fs w) (asset_dir self) = Some Dir →
  ∃ names,
    _get_existing_characters self w = (Ok names, w)
    ∧ Sorted str_le names
    ∧ NoDup names
    ∧ ∀ name, name ∈ names ↔
              fs w !! (asset_dir self ++ [name]) = Some Dir
              ∧ String.prefix "." name = false.
Proof.
  intros E.
  assert (Hw : mkWorld (fs w) (console w) = w) by (by destruct w).
  unfold _get_existing_characters. rewrite bind_run, exists_run. unfold present.
  rewrite bool_decide_eq_true_2 by (by eexists). cbn [negb].
  rewrite bind_run. unfold Path_iterdir, fs_op. rewrite E.
  rewrite Hw, bind_run, existing_loop_run. cbn [app]. rewrite ret_run.
  eexists. split; [done |].
  set (kept := filter (λ p, visible_dir (fs w) p = true) (children (fs w) (asset_dir self))).
  assert (Hkept : ∀ p, p ∈ kept ↔
            ∃ name, p = asset_dir self ++ [name]
                    ∧ fs w !! p = Some Dir ∧ String.prefix "." name = false).
  { intros p. subst kept. rewrite list_elem_of_filter, elem_of_children. split.
    - intros (Hv & name & -> & _). exists name. split; [done |].
      unfold visible_dir, path_name in Hv. rewrite entry_snoc, last_last in Hv.
      apply andb_true_iff in Hv as [H1 H2].
      destruct (fs w !! (asset_dir self ++ [name])) as [[] |]; try done.
      by destruct (String.prefix "." name).
    - intros (name & -> & Hd & Hp). split; [| by eauto].
      unfold visible_dir, path_name. by rewrite entry_snoc, last_last, Hd, Hp. }
  split; [apply Sorted_merge_sort, str_le_total |].
  split.
  - unfold sorted. rewrite merge_sort_Permutation.
    apply NoDup_fmap_2_strong; [| apply NoDup_filter, NoDup_children].
    intros p q Hp Hq Heq.
    apply Hkept in Hp as (n1 & -> & _). apply Hkept in Hq as (n2 & -> & _).
    unfold path_name in Heq. rewrite !last_last in Heq. by subst.
  - intros name. unfold sorted. rewrite merge_sort_Permutation, list_elem_of_fmap. split.
    + intros (p & -> & Hp). apply Hkept in Hp as (n & -> & Hd & Hn).
      unfold path_name. by rewrite last_last.
    + intros (Hd & Hn). exists (asset_dir self ++ [name]). split.
      * unfold path_name. by rewrite last_last.
      * apply Hkept. by exists name.
Qed.

(** [_get_existing_characters] returns the names of the directories directly
    below the sprites directory whose name does not start with a dot, each
    once and in ascending order.  It returns the empty list when the sprites
    directory does not exist and raises NotADirectoryError when it is a
    file.  Nothing is changed or printed. *)
Theorem existing_characters_are_the_visible_directories (self : BatchSpriteGenerator)
    (w : World) :
  match entry (fs w) (asset_dir self) with
  | None => _get_existing_characters self w = (Ok [], w)
  | Some Dir =>
      ∃ names,
        _get_existing_characters self w = (Ok names, w)
        ∧ Sorted str_le names
        ∧ NoDup names
        ∧ ∀ name, name ∈ names ↔
                  fs w !! (asset_dir self ++ [name]) = Some Dir
                  ∧ String.prefix "." name = false
  | Some _ =>
      _get_existing_characters self w = (Raise (NotADirectoryError (asset_dir self)), w)
  end.
Proof.
  assert (Hw : mkWorld (fs w) (console w) = w) by (by destruct w).
  destruct (entry (fs w) (asset_dir self)) as [e |] eqn:E.
  2:{ unfold _get_existing_characters. rewrite bind_run, exists_run. unfold present.
      by rewrite bool_decide_eq_false_2 by (rewrite E; by intros [? ?]). }
  destruct e; [by apply existing_characters_listing | |].
  all: unfold _get_existing_characters; rewrite bind_run, exists_run; unfold present;
    rewrite bool_decide_eq_true_2 by (by eexists); cbn [negb];
    rewrite bind_run; unfold Path_iterdir, fs_op; rewrite E; by rewrite Hw.
Qed.

(** ** A sprite directory that cannot be created *)

Lemma creatable_from_blocked (n : nat) (m m' : gmap path FsEntry) (parent : path)
    (rest : list string) :
  evolves n m m' → (length parent + length rest ≤ n)%nat →
  creatable_from m parent rest = false → creatable_from m' parent rest = false.
Proof.
  intros Hev. revert parent. induction rest as [| c rest IH]; intros parent Hlen; cbn; [done |].
  intros H. apply andb_false_iff in H. apply andb_false_iff.
  assert (Hlen' : (length (parent ++ [c]) ≤ n)%nat) by (rewrite length_app; cbn in *; lia).
  destruct H as [H | H].
  - left. destruct (Hev (parent ++ [c])) as (_ & Hshort & _).
    destruct (Hshort Hlen') as [E | [E _]]; [by rewrite E |].
    by rewrite E in H.
  - right. apply IH; [| done]. rewrite length_app. cbn in *. lia.
Qed.

Lemma for_each_app {A S} (l1 l2 : list A) (body : A → S → M S) (s : S) (w : World) :
  for_each (l1 ++ l2) body s w
  = match for_each l1 body s w with
    | (Ok s', w') => for_each l2 body s' w'
    | (Raise e, w') => (Raise e, w')
    end.
Proof.
  revert s w. induction l1 as [| x l1 IH]; intros s w; [done |].
  cbn [app for_each]. rewrite !bind_run.
  destruct (body x s w) as [[s' | e] w']; [apply IH | done].
Qed.

Lemma character_body_blocked (self : BatchSpriteGenerator) (poses : list string)
    (config : SpriteConfig) (character_id : string) (results : gmap string (list string))
    (w : World) :
  creatable (fs w) (char_dir self character_id) = false →
  ∃ e m',
    batch_generator.character_body self poses config character_id results w
    = (Raise e, mkWorld m' (console w ++ [ProcessingCharacter character_id]))
    ∧ ∃ p, e = FileExistsError p ∨ e = NotADirectoryError p.
Proof.
  intros Hc. destruct (makedirs_from_raises _ _ _ Hc) as (e & m' & Hrun & He).
  exists e, m'. split; [| done].
  unfold batch_generator.character_body. rewrite bind_run, print_run, bind_run.
  unfold _generate_character_sprites. rewrite bind_run.
  unfold makedirs, fs_op. cbn [fs console]. fold (char_dir self character_id).
  by rewrite Hrun.
Qed.

Lemma batch_writes_evolves (self : BatchSpriteGenerator) (poses : list string)
    (config : SpriteConfig) (m0 : gmap path FsEntry) (characters : list string)
    (m : gmap path FsEntry) :
  evolves (length (asset_dir self) + 2) m0 m →
  (∀ c, c ∈ characters → creatable m0 (char_dir self c) = true) →
  evolves (length (asset_dir self) + 2) m0 (batch_writes self poses config m0 characters m).
Proof.
  revert m. induction characters as [| c characters IH]; intros m Hm Hc; [done |].
  cbn [batch_writes foldl].
  apply IH; [| intros c' Hc'; apply Hc; by right].
  apply (character_body_run self poses config m0 c ∅ (mkWorld m []) Hm), Hc. by left.
Qed.

(** The sprite directory of a character is made outside the [try] blocks:
    when a file is in its way (a file named [sprites] in the directory of
    the character, or a file where a directory of the path should be), the
    batch raises FileExistsError or NotADirectoryError at that character.
    The characters before it have been processed as usual, the ones after it
    are not reached, and the dict of results is not returned. *)
Theorem batch_stops_at_blocked_directory (self : BatchSpriteGenerator)
    (before : list string) (blocked : string) (after : list string)
    (poses : option (list string)) (config : option SpriteConfig) (w : World) :
  (∀ c, c ∈ before → creatable (fs w) (char_dir self c) = true) →
  creatable (fs w) (char_dir self blocked) = false →
  ∃ e w',
    generate_character_batch self (before ++ blocked :: after) poses config w = (Raise e, w')
    ∧ (∃ p, e = FileExistsError p ∨ e = NotADirectoryError p)
    ∧ console w' =
        console w ++ BatchHeader (length (before ++ blocked :: after)) (resolved_poses poses)
          :: (before ≫= character_events self (resolved_poses poses)
                                         (resolved_config config) (fs w))
          ++ [ProcessingCharacter blocked].
Proof.
  intros Hbefore Hblocked.
  unfold generate_character_batch. fold (resolved_poses poses) (resolved_config config).
  rewrite bind_run, print_run, for_each_app.
  rewrite (character_loop_run self _ _ (fs w)); [| apply evolves_refl | done].
  cbn [for_each fs console]. rewrite bind_run.
  set (m1 := batch_writes self (resolved_poses poses) (resolved_config config)
               (fs w) before (fs w)).
  assert (Hev : evolves (length (asset_dir self) + 2) (fs w) m1)
    by (apply batch_writes_evolves; [apply evolves_refl | done]).
  destruct (character_body_blocked self (resolved_poses poses) (resolved_config config)
              blocked (batch_results self (resolved_poses poses) (resolved_config config)
                         (fs w) before ∅)
              (mkWorld m1 ((console w ++ [BatchHeader (length (before ++ blocked :: after))
                                            (resolved_poses poses)])
                           ++ (before ≫= character_events self (resolved_poses poses)
                                 (resolved_config config) (fs w)))))
    as (e & m' & Hrun & He).
  { cbn [fs]. apply (creatable_from_blocked _ _ _ _ _ Hev); [| done].
    cbn [length]. unfold char_dir. rewrite length_app. cbn. lia. }
  cbn [fs console] in Hrun |- *. fold m1. rewrite Hrun.
  exists e. eexists. split; [done |]. split; [done |].
  cbn [console]. by rewrite <- !app_assoc.
Qed.

Lemma batch_stops_at_blocked_directory_witness :
  ∃ e w',
    generate_character_batch example_self ["ryu"; "ken"; "sagat"] None None
      (mkWorld {[ char_dir example_self "ken" := OtherFile ]} []) = (Raise e, w')
    ∧ e = FileExistsError (char_dir example_self "ken")
    ∧ is_Some (fs w' !! (char_dir example_self "ryu" ++ ["ryu_jump_enhanced.png"]))
    ∧ fs w' !! (char_dir example_self "sagat") = None.
Proof.
  destruct (batch_stops_at_blocked_directory example_self ["ryu"] "ken" ["sagat"] None None
              (mkWorld {[ char_dir example_self "ken" := OtherFile ]} []))
    as (e & w' & Hrun & _).
  - intros c Hc. apply list_elem_of_singleton in Hc as ->. by vm_compute.
  - by vm_compute.
  - exists e, w'. split; [exact Hrun |].
    assert (Hcomputed :
      let run := generate_character_batch example_self ["ryu"; "ken"; "sagat"] None None
                   (mkWorld {[ char_dir example_self "ken" := OtherFile ]} []) in
      run.1 = Raise (FileExistsError (char_dir example_self "ken"))
      ∧ is_Some (fs run.2 !! (char_dir example_self "ryu" ++ ["ryu_jump_enhanced.png"]))
      ∧ fs run.2 !! (char_dir example_self "sagat") = None).
    { split; [by vm_compute |]. split; [| by vm_compute].
      apply (bool_decide_unpack _). by vm_compute. }
    cbn zeta in Hcomputed. change (_ ++ _ :: _) with ["ryu"; "ken"; "sagat"] in Hrun.
    rewrite Hrun in Hcomputed. cbn [fst snd] in Hcomputed.
    destruct Hcomputed as ([= <-] & H1 & H2).
    split; [reflexivity |]. split; [exact H1 | exact H2].
Defined.

(** ** The batch and the listing of characters *)

Lemma dirs_exist_from_app (m : gmap path FsEntry) (parent a b : list string) :
  dirs_exist_from m parent (a ++ b)
  = dirs_exist_from m parent a && dirs_exist_from m (parent ++ a) b.
Proof.
  revert parent. induction a as [| c a IH]; intros parent; cbn.
  { by rewrite app_nil_r. }
  rewrite IH, <- app_assoc. cbn. by rewrite andb_assoc.
Qed.

Lemma dirs_exist_character (m : gmap path FsEntry) (self : BatchSpriteGenerator)
    (c : string) :
  dirs_exist m (char_dir self c) = true →
  entry m (asset_dir self) = Some Dir ∧ m !! (asset_dir self ++ [c]) = Some Dir.
Proof.
  unfold dirs_exist, char_dir. intros H.
  change [c; "sprites"] with ([c] ++ ["sprites"]) in H.
  rewrite app_assoc, dirs_exist_from_app in H. apply andb_true_iff in H as [H _].
  split.
  - rewrite dirs_exist_from_app in H. apply andb_true_iff in H as [H _].
    by apply entry_dirs_exist.
  - apply entry_dirs_exist in H. by rewrite entry_snoc in H.
Qed.

Section BatchDirectories.
Context (self : BatchSpriteGenerator) (poses : list string) (config : SpriteConfig).
Context (m0 : gmap path FsEntry).

Local Abbreviation n := (length (asset_dir self) + 2)%nat.

Lemma character_writes_step (c : string) (m : gmap path FsEntry) :
  evolves n m0 m → creatable m0 (char_dir self c) = true →
  evolves n m (character_writes self poses config m0 c m)
  ∧ dirs_exist (character_writes self poses config m0 c m) (char_dir self c) = true.
Proof.
  intros Hev Hc.
  assert (Hlen : length (char_dir self c) = n) by apply char_dir_length.
  assert (Hc' : creatable m (char_dir self c) = true).
  { apply (creatable_from_evolves n m0); [done | | done]. cbn [length]. by rewrite Hlen. }
  destruct (with_dirs_creatable _ _ Hc') as (_ & Hdirs & Hev1).
  unfold character_writes.
  rewrite <- (poses_writes_same _ _ _ m0 (with_dirs m (char_dir self c)))
    by (rewrite Hlen; eapply evolves_trans; [exact Hev |]; by rewrite <- Hlen).
  pose proof (poses_writes_evolves (char_generator config c) (char_dir self c) c
                (with_dirs m (char_dir self c)) poses (with_dirs m (char_dir self c))
                (evolves_refl _ _)) as Hev2.
  split.
  - eapply evolves_trans; [by rewrite <- Hlen | by rewrite <- Hlen].
  - by apply (dirs_exist_evolves (char_dir self c) _ _ Hev2).
Qed.

Lemma batch_writes_dirs (characters : list string) (m : gmap path FsEntry) (c : string) :
  evolves n m0 m →
  (∀ c', c' ∈ characters → creatable m0 (char_dir self c') = true) →
  c ∈ characters →
  dirs_exist (batch_writes self poses config m0 characters m) (char_dir self c) = true.
Proof.
  revert m. induction characters as [| c' characters IH]; intros m Hev Hc Hin.
  { by apply elem_of_nil in Hin. }
  cbn [batch_writes foldl].
  destruct (character_writes_step c' m Hev) as [Hstep Hdirs]; [apply Hc; by left |].
  assert (Hev' : evolves n m0 (character_writes self poses config m0 c' m))
    by (by eapply evolves_trans).
  destruct (decide (c ∈ characters)) as [Hin' | Hout].
  - apply IH; [done | intros c'' Hc''; apply Hc; by right | done].
  - apply elem_of_cons in Hin as [-> | Hin]; [| done].
    pose proof (batch_writes_evolves self poses config m0 characters _ Hev'
                  (λ c'' Hc'', Hc c'' (list_elem_of_further _ _ _ Hc''))) as Hrest.
    assert (Hstay : evolves n (character_writes self poses config m0 c' m)
                      (batch_writes self poses config m0 characters
                         (character_writes self poses config m0 c' m))).
    { clear IH Hout. revert Hev'. generalize (character_writes self poses config m0 c' m).
      clear Hdirs Hstep Hrest. induction characters as [| c2 characters IH2]; intros m2 Hm2.
      - apply evolves_refl.
      - cbn [batch_writes foldl].
        destruct (character_writes_step c2 m2 Hm2) as [Hstep2 _];
          [apply Hc; right; by left |].
        eapply evolves_trans; [exact Hstep2 |].
        apply IH2; [intros c3 Hc3; apply Hc; apply elem_of_cons in Hc3 as [-> | Hc3];
                      [by left | right; by right] |].
        by eapply evolves_trans. }
    eapply dirs_exist_from_kept; [| exact Hdirs].
    intros q Hq. by destruct (Hstay q) as [Hk _]; apply Hk.
Qed.
End BatchDirectories.

Lemma batch_then_listing (self : BatchSpriteGenerator) (characters : list string)
    (poses : option (list string)) (config : option SpriteConfig) (w : World) :
  (∀ c, c ∈ characters → creatable (fs w) (char_dir self c) = true) →
  ∃ results w',
    generate_character_batch self characters poses config w = (Ok results, w')
    ∧ (∀ c, results !! c =
            if decide (c ∈ characters)
            then Some (character_paths self (resolved_poses poses)
                                       (resolved_config config) (fs w) c)
            else None)
    ∧ (∀ q, (length q ≤ length (asset_dir self) + 2)%nat →
            fs w' !! q = fs w !! q ∨ (fs w !! q = None ∧ fs w' !! q = Some Dir))
    ∧ (characters ≠ [] →
       ∃ names,
         _get_existing_characters self w' = (Ok names, w')
         ∧ Sorted str_le names
         ∧ NoDup names
         ∧ (∀ name, name ∈ names ↔
                    fs w' !! (asset_dir self ++ [name]) = Some Dir
                    ∧ String.prefix "." name = false)
         ∧ ∀ c, c ∈ characters → String.prefix "." c = false → c ∈ names).
Proof.
  intros Hc.
  unfold generate_character_batch. fold (resolved_poses poses) (resolved_config config).
  rewrite bind_run, print_run.
  rewrite (character_loop_run self _ _ (fs w)); [| apply evolves_refl | done].
  cbn [fs console]. do 2 eexists. split; [done |].
  split.
  { intros c. by rewrite batch_results_lookup. }
  cbn [fs].
  pose proof (batch_writes_evolves self (resolved_poses poses) (resolved_config config)
                (fs w) characters (fs w) (evolves_refl _ _) Hc) as Hev.
  split.
  { intros q Hq. by apply (Hev q). }
  intros Hne.
  assert (Hdirs : ∀ c, c ∈ characters →
            entry (batch_writes self (resolved_poses poses) (resolved_config config)
                     (fs w) characters (fs w)) (asset_dir self) = Some Dir
            ∧ batch_writes self (resolved_poses poses) (resolved_config config)
                (fs w) characters (fs w) !! (asset_dir self ++ [c]) = Some Dir).
  { intros c Hin. apply dirs_exist_character.
    apply batch_writes_dirs; [apply evolves_refl | done | done]. }
  destruct characters as [| c0 characters]; [done |].
  destruct (existing_characters_listing self
              (mkWorld (batch_writes self (resolved_poses poses) (resolved_config config)
                          (fs w) (c0 :: characters) (fs w))
                 ((console w ++ [BatchHeader (length (c0 :: characters)) (resolved_poses poses)])
                  ++ ((c0 :: characters) ≫= character_events self (resolved_poses poses)
                        (resolved_config config) (fs w)))))
    as (names & Hrun & Hsorted & Hnodup & Hnames).
  { cbn [fs]. apply (Hdirs c0). by left. }
  exists names. split; [done |]. split; [done |]. split; [done |]. split; [done |].
  intros c Hin Hvisible. apply Hnames. split; [| done]. cbn [fs]. by apply Hdirs.
Qed.



Lemma existing_characters_world (self : BatchSpriteGenerator) (w : World) :
  (_get_existing_characters self w).2 = w.
Proof.
  assert (Hw : mkWorld (fs w) (console w) = w) by (by destruct w).
  destruct (entry (fs w) (asset_dir self)) as [e |] eqn:E.
  2:{ unfold _get_existing_characters. rewrite bind_run, exists_run. unfold present.
      by rewrite bool_decide_eq_false_2 by (rewrite E; by intros [? ?]). }
  destruct e.
  { destruct (existing_characters_listing self w E) as (names & -> & _). done. }
  all: unfold _get_existing_characters; rewrite bind_run, exists_run; unfold present;
    rewrite bool_decide_eq_true_2 by (by eexists); cbn [negb];
    rewrite bind_run; unfold Path_iterdir, fs_op; rewrite E; by rewrite Hw.
Qed.

(** [generate_all_existing_characters] runs the batch, with the four default
    poses, for the characters that [_get_existing_characters] lists, and for
    the six default characters after a warning when it lists none.  When the
    sprite directories of these characters can be created, the dict returned
    has exactly these characters as keys, and a listing made afterwards has
    all of them that do not start with a dot: a second call does not fall
    back to the default set. *)
Theorem all_existing_generates_listed_or_default (self : BatchSpriteGenerator)
    (config : option SpriteConfig) (w : World) (listed : list string) :
  (_get_existing_characters self w).1 = Ok listed →
  (∀ c, c ∈ chosen_characters listed → creatable (fs w) (char_dir self c) = true) →
  ∃ results w' out names,
    generate_all_existing_characters self config w = (Ok results, w')
    ∧ (∀ c, is_Some (results !! c) ↔ c ∈ chosen_characters listed)
    ∧ console w' =
        console w
        ++ (if bool_decide (listed = [])
            then [Verdict "No existing characters found. Generating default set."]
            else [])
        ++ BatchHeader (length (chosen_characters listed)) ["idle"; "walk"; "attack"; "jump"]
           :: out
    ∧ _get_existing_characters self w' = (Ok names, w')
    ∧ ∀ c, c ∈ chosen_characters listed → String.prefix "." c = false → c ∈ names.
Proof.
  intros Hlisted Hc.
  pose proof (existing_characters_world self w) as Hworld.
  unfold generate_all_existing_characters. rewrite bind_run.
  destruct (_get_existing_characters self w) as [r w1]. cbn [fst snd] in *. subst r w1.
  rewrite bind_run. fold (chosen_characters listed) in *.
  assert (Hne : chosen_characters listed ≠ []).
  { unfold chosen_characters. by case_bool_decide. }
  set (w1 := mkWorld (fs w)
               (console w ++ if bool_decide (listed = [])
                             then [Verdict "No existing characters found. Generating default set."]
                             else [])).
  assert (Hpre :
    (if bool_decide (listed = [])
     then _ ← print (Verdict "No existing characters found. Generating default set.");
          mret default_characters
     else mret listed) w = (Ok (chosen_characters listed), w1)).
  { subst w1. unfold chosen_characters. case_bool_decide.
    - by rewrite bind_run, print_run.
    - rewrite ret_run, app_nil_r. by destruct w. }
  rewrite Hpre.
  destruct (batch_then_listing self (chosen_characters listed) None config w1)
    as (results & w' & Hrun & Hvalues & _ & Hlist); [done |].
  assert (Hkeys : ∀ c, is_Some (results !! c) ↔ c ∈ chosen_characters listed).
  { intros c. rewrite Hvalues. destruct (decide (c ∈ chosen_characters listed)).
    - split; [done | by eauto].
    - split; [by intros [? ?] | done]. }
  destruct (Hlist Hne) as (names & Hnames & _ & _ & _ & Hall).
  rewrite Hrun. exists results, w'.
  assert (Hconsole : ∃ out, console w' = console w1
            ++ BatchHeader (length (chosen_characters listed)) ["idle"; "walk"; "attack"; "jump"]
               :: out).
  { unfold generate_character_batch in Hrun. rewrite bind_run, print_run in Hrun.
    rewrite (character_loop_run self _ _ (fs w1)) in Hrun; [| apply evolves_refl | done].
    injection Hrun as _ <-. cbn [console fs default]. eexists. by rewrite <- app_assoc. }
  destruct Hconsole as [out Hout]. exists out, names.
  split; [done |]. split; [done |]. split; [| done].
  rewrite Hout. subst w1. cbn [console]. by rewrite <- app_assoc.
Qed.

Lemma all_existing_generates_listed_or_default_witness :
  ∃ results w' out names,
    generate_all_existing_characters example_self None (mkWorld ∅ []) = (Ok results, w')
    ∧ (∀ c, is_Some (results !! c) ↔ c ∈ default_characters)
    ∧ console w' =
        Verdict "No existing characters found. Generating default set."
        :: BatchHeader 6 ["idle"; "walk"; "attack"; "jump"] :: out
    ∧ _get_existing_characters example_self w' = (Ok names, w')
    ∧ ∀ c, c ∈ default_characters → String.prefix "." c = false → c ∈ names.
Proof.
  apply (all_existing_generates_listed_or_default example_self None (mkWorld ∅ []) []).
  - reflexivity.
  - intros c Hc. unfold chosen_characters in Hc. cbn in Hc.
    repeat (apply elem_of_cons in Hc as [-> | Hc]; [by vm_compute |]).
    by apply elem_of_nil in Hc.
Defined.

(** ** The validation of a batch *)

Section Validation.
Context (character_id : string) (sprite_paths : list string).

Lemma validate_poses_closed (l : list string) (r : Validation) :
  foldl (λ char_results pose, validate_pose character_id sprite_paths pose char_results) r l
  = mkValidation (total_generated r)
      (original_count r
       + Z.of_nat (length (filter (λ pose, original_found character_id sprite_paths pose = true) l)))
      (enhanced_count r
       + Z.of_nat (length (filter (λ pose, enhanced_found character_id sprite_paths pose = true) l)))
      (missing_poses r
       ++ filter (λ pose, not_found character_id sprite_paths pose = true) l)
      (valid_sprites r ++ (l ≫= valid_names character_id sprite_paths)).
Proof.
  revert r. induction l as [| pose l IH]; intros r.
  { cbn. rewrite !Z.add_0_r, !app_nil_r. by destruct r. }
  cbn [foldl]. rewrite IH. rewrite !filter_cons, bind_cons.
  unfold validate_pose, not_found, valid_names.
  fold (original_found character_id sprite_paths pose).
  fold (enhanced_found character_id sprite_paths pose).
  destruct (original_found character_id sprite_paths pose);
    destruct (enhanced_found character_id sprite_paths pose);
    cbn [negb andb total_generated original_count enhanced_count missing_poses valid_sprites];
    repeat case_decide; try done; cbn [length app];
    rewrite <- ?app_assoc; cbn [app]; f_equal; lia.
Qed.

Lemma validate_character_closed :
  validate_character character_id sprite_paths
  = mkValidation (length sprite_paths)
      (Z.of_nat (length (filter (λ pose, original_found character_id sprite_paths pose = true)
                                expected_poses)))
      (Z.of_nat (length (filter (λ pose, enhanced_found character_id sprite_paths pose = true)
                                expected_poses)))
      (filter (λ pose, not_found character_id sprite_paths pose = true) expected_poses)
      (expected_poses ≫= valid_names character_id sprite_paths).
Proof. unfold validate_character. by rewrite validate_poses_closed. Qed.
End Validation.

Lemma validation_counts (character_id : string) (sprite_paths : list string)
    (l : list string) :
  let oc := Z.of_nat (length (filter (λ pose, original_found character_id sprite_paths pose = true) l)) in
  let ec := Z.of_nat (length (filter (λ pose, enhanced_found character_id sprite_paths pose = true) l)) in
  let missed := Z.of_nat (length (filter (λ pose, not_found character_id sprite_paths pose = true) l)) in
  0 ≤ oc ≤ Z.of_nat (length l)
  ∧ 0 ≤ ec ≤ Z.of_nat (length l)
  ∧ Z.of_nat (length (l ≫= valid_names character_id sprite_paths)) = oc + ec
  ∧ missed + Z.max oc ec ≤ Z.of_nat (length l) ≤ missed + oc + ec.
Proof.
  induction l as [| pose l IH]; [cbn; lia |].
  cbn zeta in *. rewrite !filter_cons, bind_cons, length_app.
  pose proof (eq_refl : not_found character_id sprite_paths pose
                        = negb (original_found character_id sprite_paths pose)
                          && negb (enhanced_found character_id sprite_paths pose)) as Hnf.
  unfold valid_names at 1.
  destruct (original_found character_id sprite_paths pose);
    destruct (enhanced_found character_id sprite_paths pose);
    destruct (not_found character_id sprite_paths pose);
    cbn in Hnf; try discriminate Hnf;
    repeat case_decide; try done; cbn [length app] in *; lia.
Qed.

(** [validate_generated_sprites] has an entry for exactly the characters of
    [results].  An entry counts expected poses, not files: each of the four
    expected poses is either listed as missing or counted once for every
    tier that is found, so both counts are at most 4 however many paths
    there are, and [valid_sprites] has as many names as the two counts
    together; [total_generated] is the number of paths and need not be their
    sum. *)
Theorem validation_counts_expected_poses (results : gmap string (list string))
    (character_id : string) :
  match results !! character_id with
  | None => validate_generated_sprites results !! character_id = None
  | Some sprite_paths =>
      ∃ v,
        validate_generated_sprites results !! character_id = Some v
        ∧ total_generated v = length sprite_paths
        ∧ missing_poses v
          = filter (λ pose, not_found character_id sprite_paths pose = true) expected_poses
        ∧ 0 ≤ original_count v ≤ 4
        ∧ 0 ≤ enhanced_count v ≤ 4
        ∧ Z.of_nat (length (valid_sprites v)) = original_count v + enhanced_count v
        ∧ Z.of_nat (length (missing_poses v)) + Z.max (original_count v) (enhanced_count v) ≤ 4
        ∧ 4 ≤ Z.of_nat (length (missing_poses v)) + original_count v + enhanced_count v
  end.
Proof.
  unfold validate_generated_sprites. rewrite map_lookup_imap.
  destruct (results !! character_id) as [sprite_paths |]; [| done].
  exists (validate_character character_id sprite_paths). split; [reflexivity |].
  rewrite validate_character_closed.
  cbn [total_generated missing_poses original_count enhanced_count valid_sprites].
  pose proof (validation_counts character_id sprite_paths expected_poses) as H.
  cbn zeta in H. change (Z.of_nat (length expected_poses)) with 4 in H.
  split; [done |]. split; [done |]. lia.
Qed.

(** Two paths of one expected pose count once, and a path of another pose can
    count for an expected one. *)
Example validation_does_not_count_files :
  validate_character "ryu" ["a/ryu_attack.png"; "b/ryu_attack.png"; "c/ryu_ryu_jump.png"]
  = mkValidation 3 2 0 ["idle"; "walk"] ["original_attack"; "original_jump"].
Proof. by vm_compute. Qed.

Lemma prefix_self_app (s t : string) : String.prefix s (s +:+ t) = true.
Proof.
  induction s as [| a s IH]; [by destruct t |].
  change (String.prefix (String a s) (String a (s +:+ t)) = true).
  cbn [String.prefix].
  destruct (Ascii.ascii_dec a a) as [_ | Hne]; [exact IH | by destruct Hne].
Qed.








(** ** The command line of the generator *)

Lemma lift_run {A} (r : result A) (w : World) : lift r w = (r, w).
Proof. done. Qed.

Lemma keeps_images_refl (m : gmap path FsEntry) : keeps_images m m.
Proof. intros q img H. by eauto. Qed.

Lemma keeps_images_trans (m1 m2 m3 : gmap path FsEntry) :
  keeps_images m1 m2 → keeps_images m2 m3 → keeps_images m1 m3.
Proof. intros H12 H23 q img H. destruct (H12 _ _ H) as [img' H']. by eapply H23. Qed.

Section SaveInDirectory.
Context (dir : path) (m0 : gmap path FsEntry).

Local Abbreviation n := (length dir).

Lemma save_in_dir (sprite : Image) (name : string) (m : gmap path FsEntry) :
  evolves n m0 m → creatable m0 dir = true → is_dir (m0 !! (dir ++ [name])) = false →
  ∃ m', save_fs sprite (dir ++ [name]) m = (Ok tt, m')
        ∧ evolves n m0 m'
        ∧ keeps_images m m'
        ∧ m' !! (dir ++ [name]) = Some (ImageFile sprite).
Proof.
  intros Hev Hc Hfree.
  destruct (save_fs_cases sprite (dir ++ [name]) m) as (r & m' & Hrun & Hothers & Hcase).
  assert (Hlong : (n < length (dir ++ [name]))%nat) by (rewrite length_app; cbn; lia).
  rewrite removelast_last, entry_snoc in Hcase.
  assert (Hc' : creatable m dir = true)
    by (by apply (creatable_from_evolves n m0 m [] dir Hev)).
  rewrite Hc', (is_dir_evolves _ _ _ _ Hev Hlong), Hfree in Hcase.
  destruct Hcase as (-> & _ & Hfile). exists m'. split; [done |].
  assert (Hnd : m !! (dir ++ [name]) ≠ Some Dir).
  { intros E. rewrite <- (is_dir_evolves _ _ _ _ Hev Hlong) in Hfree. by rewrite E in Hfree. }
  split; [| split; [| done]].
  - eapply evolves_trans; [exact Hev |]. intros q.
    destruct (decide (q = dir ++ [name])) as [-> | Hq].
    + rewrite Hfile. split; [done |]. split; [lia | done].
    + destruct (Hothers q Hq) as [-> | (H1 & H2 & H3)]; [by auto |].
      rewrite H1, H2. split; [done |]. split; [by auto |].
      rewrite length_app in H3. cbn in H3. lia.
  - intros q img Hq. destruct (decide (q = dir ++ [name])) as [-> | Hne]; [by eauto |].
    destruct (Hothers q Hne) as [-> | (H1 & _)]; [by eauto | congruence].
Qed.

Lemma save_in_dir_blocked (sprite : Image) (name : string) (m : gmap path FsEntry) :
  evolves n m0 m →
  creatable m0 dir && negb (is_dir (m0 !! (dir ++ [name]))) = false →
  ∃ e m', save_fs sprite (dir ++ [name]) m = (Raise e, m').
Proof.
  intros Hev Hblocked.
  destruct (save_fs_cases sprite (dir ++ [name]) m) as (r & m' & Hrun & _ & Hcase).
  assert (Hlong : (n < length (dir ++ [name]))%nat) by (rewrite length_app; cbn; lia).
  rewrite removelast_last, entry_snoc in Hcase.
  rewrite (is_dir_evolves _ _ _ _ Hev Hlong) in Hcase.
  assert (Hcond : creatable m dir && negb (is_dir (m0 !! (dir ++ [name]))) = false).
  { apply andb_false_iff in Hblocked as [H | H]; apply andb_false_iff; [left | by right].
    by apply (creatable_from_blocked n m0 m [] dir Hev). }
  rewrite Hcond in Hcase. destruct Hcase as ([e ->] & _). by eauto.
Qed.
End SaveInDirectory.

Section CommandLineRun.
Context (args : Args).

Local Abbreviation generator := (SpriteGenerator_init (args_config args)).
Local Abbreviation n := (length (args_output_dir args)).

(** One tier of one pose: render, save, print. *)
Lemma main_tier_run (pose : string) (enhanced : bool) (m0 : gmap path FsEntry) (w : World) :
  evolves n m0 (fs w) →
  match generate_character_sprite generator (args_character args) pose enhanced with
  | Raise e => tier_can_run args m0 pose enhanced = false
  | Ok sprite =>
      if tier_can_run args m0 pose enhanced
      then ∃ m', save_sprite sprite (main_target args pose enhanced) w
                 = (Ok tt, mkWorld m' (console w))
                 ∧ evolves n m0 m'
                 ∧ keeps_images (fs w) m'
                 ∧ m' !! main_target args pose enhanced = Some (ImageFile sprite)
      else ∃ e w', save_sprite sprite (main_target args pose enhanced) w = (Raise e, w')
  end.
Proof.
  intros Hev.
  destruct (generate_character_sprite_any generator (args_character args) pose enhanced)
    as (shapes & _ & Hgen).
  cbn [config SpriteGenerator_init] in Hgen. rewrite Hgen. unfold tier_can_run.
  case_bool_decide as Hneg.
  { rewrite bool_decide_eq_false_2 by lia. done. }
  rewrite bool_decide_eq_true_2 by lia. cbn [andb].
  set (sprite := finish _ _).
  rewrite save_sprite_fs. unfold main_target.
  set (name := args_character args +:+ "_" +:+ pose
               +:+ (if enhanced then "_enhanced.png" else ".png")).
  destruct (creatable m0 (args_output_dir args)
            && negb (is_dir (m0 !! (args_output_dir args ++ [name])))) eqn:Hcond.
  - apply andb_true_iff in Hcond as [Hc Hfree]. apply negb_true_iff in Hfree.
    destruct (save_in_dir (args_output_dir args) m0 sprite name (fs w) Hev Hc Hfree)
      as (m' & -> & Hev' & Hkeep & Hfile).
    exists m'. split; [reflexivity |]. split; [exact Hev' |]. split; [exact Hkeep | exact Hfile].
  - destruct (save_in_dir_blocked (args_output_dir args) m0 sprite name (fs w) Hev Hcond)
      as (e & m' & ->).
    exists e. eexists. reflexivity.
Qed.

Lemma main_pose_run (pose : string) (paths : list string) (m0 : gmap path FsEntry)
    (w : World) :
  evolves n m0 (fs w) →
  if forallb (tier_can_run args m0 pose) (main_tiers args)
  then ∃ w', main_pose generator args pose paths w
             = (Ok (paths ++ (path_str <$> (main_target args pose <$> main_tiers args))), w')
             ∧ evolves n m0 (fs w')
             ∧ keeps_images (fs w) (fs w')
             ∧ ∀ p, p ∈ main_target args pose <$> main_tiers args →
                    ∃ img, fs w' !! p = Some (ImageFile img)
  else ∃ e w', main_pose generator args pose paths w = (Raise e, w').
Proof.
  intros Hev. unfold main_pose, main_tiers.
  rewrite bind_run, print_run.
  set (w0 := mkWorld (fs w) (console w ++ [Verdict ("Generating " +:+ pose +:+ " pose...")])).
  assert (Hev0 : evolves n m0 (fs w0)) by done.
  destruct (args_enhanced_only args); cbn [negb forallb fmap list_fmap andb].
  - (* enhanced only *)
    rewrite bind_run, ret_run, bind_run, lift_run.
    pose proof (main_tier_run pose true m0 w0 Hev0) as Hone.
    destruct (generate_character_sprite generator (args_character args) pose true)
      as [sprite | e].
    2:{ rewrite Hone. cbn [andb]. exists e. eexists. reflexivity. }
    rewrite andb_true_r. rewrite bind_run.
    destruct (tier_can_run args m0 pose true).
    + destruct Hone as (m' & Hrun & Hev' & Hkeep & Hfile).
      unfold main_target in Hrun. rewrite Hrun, bind_run, print_run, ret_run.
      eexists. split; [done |]. cbn [fs]. split; [done |]. split; [done |].
      intros p Hp. apply list_elem_of_singleton in Hp as ->. by eauto.
    + destruct Hone as (e & w' & Hrun). unfold main_target in Hrun. rewrite Hrun. by eauto.
  - (* both tiers *)
    rewrite bind_run, bind_run, lift_run.
    pose proof (main_tier_run pose false m0 w0 Hev0) as Hbase.
    destruct (generate_character_sprite generator (args_character args) pose false)
      as [sprite | e].
    2:{ rewrite Hbase. cbn [andb]. by eauto. }
    rewrite bind_run.
    destruct (tier_can_run args m0 pose false); cbn [andb].
    2:{ destruct Hbase as (e & w' & Hrun). unfold main_target in Hrun. rewrite Hrun.
        by eauto. }
    destruct Hbase as (m1 & Hrun1 & Hev1 & Hkeep1 & Hfile1).
    unfold main_target in Hrun1. rewrite Hrun1, bind_run, print_run, ret_run.
    rewrite bind_run, lift_run. cbn [fs console].
    set (w1 := mkWorld m1 _).
    pose proof (main_tier_run pose true m0 w1 Hev1) as Henh.
    destruct (generate_character_sprite generator (args_character args) pose true)
      as [sprite' | e].
    2:{ rewrite Henh. cbn [andb]. exists e. eexists. reflexivity. }
    rewrite andb_true_r, bind_run.
    destruct (tier_can_run args m0 pose true).
    2:{ destruct Henh as (e & w' & Hrun). unfold main_target in Hrun. rewrite Hrun.
        by eauto. }
    destruct Henh as (m2 & Hrun2 & Hev2 & Hkeep2 & Hfile2).
    unfold main_target in Hrun2. rewrite Hrun2, bind_run, print_run, ret_run.
    eexists. split; [by rewrite <- app_assoc |]. cbn [fs].
    split; [done |]. split; [by eapply keeps_images_trans |].
    intros p Hp. apply elem_of_cons in Hp as [-> | Hp].
    + by apply (Hkeep2 _ _ Hfile1).
    + apply list_elem_of_singleton in Hp as ->. by eauto.
Qed.

Lemma main_loop_run (poses : list string) (paths : list string) (m0 : gmap path FsEntry)
    (w : World) :
  evolves n m0 (fs w) →
  if forallb (λ pose, forallb (tier_can_run args m0 pose) (main_tiers args)) poses
  then ∃ w', for_each poses (main_pose generator args) paths w
             = (Ok (paths ++ (path_str <$> (poses ≫= λ pose,
                                               main_target args pose <$> main_tiers args))), w')
             ∧ keeps_images (fs w) (fs w')
             ∧ ∀ p, p ∈ (poses ≫= λ pose, main_target args pose <$> main_tiers args) →
                    ∃ img, fs w' !! p = Some (ImageFile img)
  else ∃ e w', for_each poses (main_pose generator args) paths w = (Raise e, w').
Proof.
  revert paths w. induction poses as [| pose poses IH]; intros paths w Hev.
  { cbn. exists w. rewrite app_nil_r. split; [done |]. split; [apply keeps_images_refl |].
    intros p Hp. by apply elem_of_nil in Hp. }
  cbn [forallb for_each]. rewrite bind_run.
  pose proof (main_pose_run pose paths m0 w Hev) as Hpose.
  destruct (forallb (tier_can_run args m0 pose) (main_tiers args)); cbn [andb].
  2:{ destruct Hpose as (e & w' & ->). by eauto. }
  destruct Hpose as (w1 & -> & Hev1 & Hkeep1 & Hfiles1).
  specialize (IH (paths ++ (path_str <$> (main_target args pose <$> main_tiers args))) w1 Hev1).
  destruct (forallb _ poses); [| done].
  destruct IH as (w2 & -> & Hkeep2 & Hfiles2).
  exists w2. rewrite bind_cons, fmap_app, <- app_assoc. split; [done |].
  split; [by eapply keeps_images_trans |].
  intros p Hp. apply elem_of_app in Hp as [Hp | Hp]; [| by apply Hfiles2].
  destruct (Hfiles1 p Hp) as [img Himg]. by apply (Hkeep2 _ _ Himg).
Qed.
End CommandLineRun.

(** [main] of [sprite_generator.py] has no [try]: it returns the list of
    all the paths, one per pose and tier in the order of the loop, when
    every tier of every pose can be rendered and saved, and then every one
    of these paths holds an image; and it raises, returning no list, as soon
    as one tier cannot (a negative canvas size, a file in the way of the
    output directory, a directory in the place of a sprite).  With
    [--enhanced-only] the base tier is neither rendered nor required. *)
Theorem command_line_generates_all_or_raises (args : Args) (w : World) :
  if main_can_run args (fs w)
  then ∃ w', sprite_generator.main args w = (Ok (path_str <$> main_targets args), w')
             ∧ ∀ p, p ∈ main_targets args → ∃ img, fs w' !! p = Some (ImageFile img)
  else ∃ e w', sprite_generator.main args w = (Raise e, w').
Proof.
  unfold sprite_generator.main, main_can_run, main_targets.
  fold (args_config args).
  rewrite bind_run, print_run, bind_run, print_run, bind_run, print_run,
    bind_run, print_run, bind_run, print_run, bind_run.
  set (w0 := mkWorld _ _).
  pose proof (main_loop_run args (args_poses args) [] (fs w) w0 (evolves_refl _ _)) as Hloop.
  destruct (forallb _ (args_poses args)).
  - destruct Hloop as (w1 & -> & _ & Hfiles). cbn [app].
    rewrite bind_run, print_run, bind_run, print_run, ret_run. by eauto.
  - destruct Hloop as (e & w1 & ->). by eauto.
Qed.

(** A negative base height stops [main] at the first pose, although every
    enhanced sprite could be made; the batch goes on in the same case. *)
Example command_line_stops_where_the_batch_goes_on :
  let args := mkArgs "ryu" ["idle"; "walk"] "default" "balanced" ["out"]
                     64 (-1) 256 384 false false in
  (sprite_generator.main args (mkWorld ∅ [])).1
    = Raise (ValueError "Width and height must be >= 0")
  ∧ fs (sprite_generator.main args (mkWorld ∅ [])).2 = ∅.
Proof. by vm_compute. Qed.

(** ** The compatibility test and the exit status of the validator *)

Section CompatibilityRun.
Context (file : path).

Lemma simulate_character_loading_run (test_case : string * string) (w : World) :
  simulate_character_loading file test_case.1 test_case.2 w
  = (Ok (test_selected file (fs w) test_case,
         if present (fs w) (test_enhanced_path file test_case) then "enhanced"
         else if present (fs w) (test_original_path file test_case) then "original"
         else "missing"), w).
Proof.
  unfold simulate_character_loading, test_selected. cbv zeta.
  fold (test_enhanced_path file test_case) (test_original_path file test_case).
  rewrite bind_run, exists_run.
  destruct (present (fs w) (test_enhanced_path file test_case)); [done |].
  rewrite bind_run, exists_run.
  by destruct (present (fs w) (test_original_path file test_case)).
Qed.

Lemma compatibility_body_run (test_case : string * string) (all_passed : bool) (w : World) :
  if test_readable file (fs w) test_case
  then ∃ line, compatibility_body file test_case all_passed w
               = (Ok (all_passed && test_found file (fs w) test_case),
                  mkWorld (fs w) (console w ++ [line]))
  else ∃ e, compatibility_body file test_case all_passed w = (Raise e, w).
Proof.
  assert (Hw : mkWorld (fs w) (console w) = w) by (by destruct w).
  unfold compatibility_body, test_readable, test_found.
  destruct test_case as [character_id state].
  rewrite bind_run.
  pose proof (simulate_character_loading_run (character_id, state) w) as Hload.
  cbn [fst snd] in Hload. rewrite Hload. clear Hload.
  destruct (test_selected file (fs w) (character_id, state)) as [p |] eqn:Hsel.
  - rewrite bool_decide_eq_true_2 by (by eexists). rewrite andb_true_r.
    rewrite bind_run. unfold Image_open_size, fs_op, opens_as_image.
    destruct (entry (fs w) p) as [[| img |] |]; rewrite Hw.
    + by eexists.
    + destruct (size img) as [width height].
      rewrite bind_run, print_run, ret_run. by eexists.
    + by eexists.
    + by eexists.
  - rewrite bool_decide_eq_false_2 by (by intros [? ?]). rewrite andb_false_r.
    rewrite bind_run, print_run, ret_run. by eexists.
Qed.

Lemma compatibility_loop_run (cases : list (string * string)) (all_passed : bool)
    (w : World) :
  if forallb (test_readable file (fs w)) cases
  then ∃ out, for_each cases (compatibility_body file) all_passed w
              = (Ok (all_passed && forallb (test_found file (fs w)) cases),
                 mkWorld (fs w) (console w ++ out))
  else ∃ e out, for_each cases (compatibility_body file) all_passed w
                = (Raise e, mkWorld (fs w) (console w ++ out)).
Proof.
  revert all_passed w. induction cases as [| tc cases IH]; intros all_passed w.
  { cbn. exists []. rewrite app_nil_r, andb_true_r. by destruct w. }
  cbn [forallb for_each]. rewrite bind_run.
  pose proof (compatibility_body_run tc all_passed w) as Hbody.
  destruct (test_readable file (fs w) tc); cbn [andb].
  - destruct Hbody as [line ->].
    specialize (IH (all_passed && test_found file (fs w) tc)
                   (mkWorld (fs w) (console w ++ [line]))).
    cbn [fs console] in IH.
    destruct (forallb (test_readable file (fs w)) cases).
    + destruct IH as [out ->]. exists (line :: out).
      by rewrite <- app_assoc, andb_assoc.
    + destruct IH as (e & out & ->). exists e, (line :: out). by rewrite <- app_assoc.
  - destruct Hbody as [e ->]. exists e, []. rewrite app_nil_r. by destruct w.
Qed.

Lemma compatibility_run (w : World) :
  if forallb (test_readable file (fs w)) test_cases
  then ∃ out, validate_character_cs_compatibility file w
              = (Ok (forallb (test_found file (fs w)) test_cases),
                 mkWorld (fs w) (console w ++ out))
  else ∃ e out, validate_character_cs_compatibility file w
                = (Raise e, mkWorld (fs w) (console w ++ out)).
Proof.
  unfold validate_character_cs_compatibility. rewrite bind_run, print_run.
  pose proof (compatibility_loop_run test_cases true
                (mkWorld (fs w) (console w ++ [Verdict "=== CHARACTER.CS COMPATIBILITY TEST ==="])))
    as Hloop.
  cbn [fs console] in Hloop.
  destruct (forallb (test_readable file (fs w)) test_cases).
  - destruct Hloop as [out ->]. eexists. cbn [andb]. by rewrite <- app_assoc.
  - destruct Hloop as (e & out & ->). exists e. eexists. by rewrite <- app_assoc.
Qed.
End CompatibilityRun.

(** [validate_character_cs_compatibility] opens what it selects outside any
    [try]: when, for each of its four test cases, the path it selects (the
    enhanced one if it exists, else the original one) opens as an image, it
    returns whether all four were found; and when a selected path is a
    directory or a file that is no image, it raises and returns nothing,
    where [validate_sprite_system] prints a line and goes on.  It changes no
    file. *)
Theorem compatibility_test_outcome (file : path) (w : World) :
  if forallb (test_readable file (fs w)) test_cases
  then ∃ out, validate_character_cs_compatibility file w
              = (Ok (forallb (test_found file (fs w)) test_cases),
                 mkWorld (fs w) (console w ++ out))
  else ∃ e out, validate_character_cs_compatibility file w
                = (Raise e, mkWorld (fs w) (console w ++ out)).
Proof. apply compatibility_run. Qed.

(** The validator asks for a sprite that the default batch does not make:
    its test cases include the jump of akuma, who is none of the six default
    characters.  As long as neither tier of that sprite is on disk, [main]
    of [validate.py] does not return 0: it returns 1 or raises. *)
Theorem validator_requires_akuma (file : path) (w : World) :
  test_selected file (fs w) ("akuma", "jump") = None →
  (validate.main file w).1 = Ok 1 ∨ ∃ e, (validate.main file w).1 = Raise e.
Proof.
  intros Hakuma. unfold validate.main.
  rewrite bind_run, print_run, bind_run, print_run, bind_run.
  set (w0 := mkWorld _ _).
  destruct (validate_sprite_system_run (removelast (removelast (removelast file))) w0)
    as [out1 ->].
  rewrite bind_run.
  set (w1 := mkWorld _ _).
  pose proof (compatibility_run file w1) as Hcompat.
  assert (Hfs : fs w1 = fs w) by done. rewrite Hfs in Hcompat.
  destruct (forallb (test_readable file (fs w)) test_cases).
  - destruct Hcompat as [out2 ->].
    assert (Hmissing : forallb (test_found file (fs w)) test_cases = false).
    { cbn [forallb test_cases]. unfold test_found at 4. rewrite Hakuma.
      rewrite bool_decide_eq_false_2 by (by intros [? ?]).
      by rewrite !andb_false_r. }
    rewrite Hmissing. left.
    rewrite bind_run, print_run, andb_false_r, bind_run, print_run, bind_run.
    destruct (negb _); rewrite ?print_run, ?ret_run; cbn [negb];
      by rewrite bind_run, print_run, ret_run.
  - destruct Hcompat as (e & out2 & ->). right. by exists e.
Qed.

Lemma validator_requires_akuma_witness :
  let file := ["proj"; "tools"; "sprite_generator"; "validate.py"] in
  let w := (generate_all_existing_characters example_self None (mkWorld ∅ [])).2 in
  (validate_sprite_system ["proj"] w).1 = Ok true
  ∧ ((validate.main file w).1 = Ok 1 ∨ ∃ e, (validate.main file w).1 = Raise e).
Proof.
  intros file w. split; [by vm_compute |].
  apply validator_requires_akuma. by vm_compute.
Defined.
